(** * ALMA archive browser scripts: a shallow embedding and its properties

    The repository holds two scripts, [alma.py] (interactive target and
    radius) and [alma_w-hydrae.py] (target fixed to W Hya).  Both are one
    linear pipeline: prompts, archive queries, file filtering, download,
    optional tar extraction, and a log-scaled plot.

    The embedding follows the scripts statement by statement.  Python strings
    are [string]s whose characters are the code points below 256 (URLs and
    file names are ASCII), integers are [Z], floats are IEEE doubles given
    by [spec_float].  The
    scripts' effects (terminal, archive services, file system, plotting) are
    threaded through a small state-and-exception monad whose state records
    the lines still waiting on standard input, the directory listing and the
    trace of every external action performed so far. *)

From Stdlib Require Import String Ascii List ZArith Bool Lia.
From Stdlib Require Import Floats.SpecFloat.
Import ListNotations.
Open Scope string_scope.
Open Scope Z_scope.
Open Scope list_scope.

(** ** Python string operations used by the scripts *)

Module PyStr.

(** [c.lower()] on one character: [A]..[Z] go to [a]..[z], and the
    capital letters of the upper half (code points 192 to 222, the
    multiplication sign 215 apart) go to their small forms, 32 further up. *)
Definition lower_ascii (c : ascii) : ascii :=
  let n := nat_of_ascii c in
  if orb (andb (Nat.leb 65 n) (Nat.leb n 90))
         (orb (andb (Nat.leb 192 n) (Nat.leb n 214))
              (andb (Nat.leb 216 n) (Nat.leb n 222)))
  then ascii_of_nat (n + 32) else c.

(** [s.lower()] *)
Fixpoint lower (s : string) : string :=
  match s with
  | EmptyString => EmptyString
  | String c r => String (lower_ascii c) (lower r)
  end.

Fixpoint rev_onto (s acc : string) : string :=
  match s with
  | EmptyString => acc
  | String c r => rev_onto r (String c acc)
  end.

Definition rev (s : string) : string := rev_onto s EmptyString.

(** [s.startswith(p)] *)
Fixpoint startswith (s p : string) {struct p} : bool :=
  match p, s with
  | EmptyString, _ => true
  | String _ _, EmptyString => false
  | String a p', String b s' => andb (Ascii.eqb a b) (startswith s' p')
  end.

(** [s.endswith(suf)]: the suffix read backwards starts the string read
    backwards. *)
Definition endswith (s suf : string) : bool := startswith (rev s) (rev suf).

(** Characters removed by [str.strip()] with no argument: the blanks among
    the code points below 256, which are 9 to 13, 28 to 32, 133 (next line)
    and 160 (no-break space). *)
Definition isspace (c : ascii) : bool :=
  let n := nat_of_ascii c in
  orb (andb (Nat.leb 9 n) (Nat.leb n 13))
      (orb (andb (Nat.leb 28 n) (Nat.leb n 32))
           (orb (Nat.eqb n 133) (Nat.eqb n 160))).

Fixpoint lstrip (s : string) : string :=
  match s with
  | EmptyString => EmptyString
  | String c r => if isspace c then lstrip r else s
  end.

(** [s.strip()] *)
Definition strip (s : string) : string := rev (lstrip (rev (lstrip s))).

(** The part of [s] after its last ['/'], with [cur] the part read since
    the last ['/'] seen (kept reversed). *)
Fixpoint basename_from (s cur : string) : string :=
  match s with
  | EmptyString => rev cur
  | String c r =>
      if Ascii.eqb c "/" then basename_from r EmptyString
      else basename_from r (String c cur)
  end.

(** [os.path.basename(p)] *)
Definition basename (p : string) : string := basename_from p EmptyString.

(** [os.path.join(d, n)] for a directory [d] that does not end in ['/']. *)
Definition path_join (d n : string) : string :=
  if startswith n "/" then n else (d ++ "/" ++ n)%string.

End PyStr.

(** ** Step 6 of both scripts: the file filtering policy *)

(** [url.lower().endswith(".fits")] *)
Definition is_fits (url : string) : bool :=
  PyStr.endswith (PyStr.lower url) ".fits".

(** [url.lower().endswith(".tar.gz")] *)
Definition is_targz (url : string) : bool :=
  PyStr.endswith (PyStr.lower url) ".tar.gz".

(** Lines 76-78 of [alma.py], 56-58 of [alma_w-hydrae.py]:
<<
fits_urls = [url for url in info_table["access_url"] if url.lower().endswith(".fits")]
if len(fits_urls) == 0:
    fits_urls = [url for url in info_table["access_url"] if url.lower().endswith(".tar.gz")]
>> *)
Definition fits_urls (access_url : list string) : list string :=
  let fits_urls := filter is_fits access_url in
  if (Z.of_nat (length fits_urls) =? 0)
  then filter is_targz access_url
  else fits_urls.

(** ** Values exchanged with the outside world *)

(** IEEE doubles: Python's [float] and numpy's [float64]. *)
Definition float := spec_float.

(** The literal [1e-10], i.e. the double nearest to it,
    [7737125245533627 * 2^-86]. *)
Definition f_1e_10 : float := S754_finite false 7737125245533627 (-86).

(** The integer [0] as the right operand of [radius > 0]. *)
Definition f_zero : float := S754_zero false.

(** [a > b] on floats; false as soon as one side is NaN. *)
Definition py_gt (a b : float) : bool := SFltb b a.

(** The builtin [max(a, b)] of two arguments: [b] replaces [a] only when
    [b > a]. *)
Definition py_max (a b : float) : float := if py_gt b a then b else a.

(** The pieces of an f-string: literal text and interpolated values. *)
Inductive fragment : Type :=
| Str (s : string)             (* literal text, or a [str] value *)
| Int (z : Z)                  (* an [int] value *)
| Flt (x : float)              (* a [float] value, with or without [:.5f] *)
| OptStr (o : option string).  (* a value that is a [str] or [None] *)

Definition message := list fragment.

(** The line feed written as [\n] in the scripts. *)
Definition nl : string := String (ascii_of_nat 10) EmptyString.

(** The table returned by [alma.query_region], column by column; the four
    columns tested with [in results.colnames] may be absent. *)
Record results_table : Type := {
  member_ous_uid : list string;
  lastModified : list string;
  obs_title : option (list string);
  band_list : option (list string);
  instrument_name : option (list string);
  frequency : option (list string)
}.

(** The table returned by [alma.get_data_info]. *)
Record info_table : Type := {
  access_url : list string;
  access_format : option (list string);
  access_estsize : option (list string)
}.

(** Every column of an astropy table has one cell per row. *)
Definition column_ok (n : nat) (c : option (list string)) : Prop :=
  match c with
  | None => True
  | Some cells => length cells = n
  end.

Definition info_table_ok (t : info_table) : Prop :=
  column_ok (length (access_url t)) (access_format t) /\
  column_ok (length (access_url t)) (access_estsize t).

(** A numpy array: its shape and its values in row-major order. *)
Record ndarray : Type := {
  shape : list nat;
  flat : list float
}.

(** [np.squeeze(a)]: axes of length one are dropped, the values stay. *)
Definition squeeze (a : ndarray) : ndarray :=
  {| shape := filter (fun d => negb (Nat.eqb d 1)) (shape a);
     flat := flat a |}.

(** What [fits.open] returns, as far as the scripts look into it:
    [hdul[0].data], which is an array, or [None] for a primary HDU that
    carries no data. *)
Record hdulist : Type := {
  primary_data : option ndarray
}.

(** [np.squeeze(data)].  For [None] numpy returns an array of no axes that
    holds [None], no more an image than [None] is; it is written [None]. *)
Definition np_squeeze (data : option ndarray) : option ndarray :=
  option_map squeeze data.

(** Handles on open files. *)
Inductive handle : Type :=
| TarHandle (path : string)            (* the [tar] of the [with] block *)
| HduHandle (path : option string).    (* the [hdul] of [fits.open] *)

(** Everything the scripts do to the outside world, in the order done.
    A call event is recorded when the call is made, whatever its outcome;
    [EvOpened] and [EvClosed] record that a handle came into being and that
    it was closed. *)
Inductive event : Type :=
| EvPrompt (m : message)                       (* the prompt of [input(m)] *)
| EvPrint (m : message)                        (* [print(m)] *)
| EvFromName (name : string)                   (* [SkyCoord.from_name] *)
| EvQueryRegion (radius : float)               (* [alma.query_region] *)
| EvGetDataInfo (uid : string)                 (* [alma.get_data_info] *)
| EvDownload (urls : list string) (savedir : string)  (* [alma.download_files] *)
| EvTarfileOpen (path : string)                (* [tarfile.open(path, "r:*")] *)
| EvExtractAll (dest : string)                 (* [tar.extractall(path=dest)] *)
| EvListDir (dir : string)                     (* [os.listdir(dir)] *)
| EvFitsOpen (path : option string)            (* [fits.open(path)] *)
| EvOpened (h : handle)
| EvClosed (h : handle)
| EvFigure
| EvImshow (data : ndarray) (vmin vmax : float)  (* [norm=LogNorm(vmin, vmax)] *)
| EvColorbar
| EvTitle (m : message)
| EvXlabel (s : string)
| EvYlabel (s : string)
| EvShow.

(** Exceptions that end a run.  [RuntimeError] is raised by the scripts'
    own [raise] statements; [LibraryError] stands for whatever exception an
    external call raises, tagged with the call. *)
Inductive exn : Type :=
| EOFError
| IndexError
| RuntimeError (msg : message)
| LibraryError (call : string).

Inductive result (A : Type) : Type :=
| Ok (a : A)
| Raise (e : exn).

Arguments Ok {A} a.
Arguments Raise {A} e.

(** The builtins and library calls the scripts rely on.  [None] means the
    call raises ([ValueError] for the two parsers). *)
Record externals : Type := {
  coord : Type;
  ra_deg : coord -> float;
  dec_deg : coord -> float;
  py_float : string -> option float;
  py_int : string -> option Z;
  from_name : string -> option coord;
  query_region : coord -> float -> option results_table;
  get_data_info : string -> option info_table;
  (* urls, savedir, directory entries before; paths, directory entries after *)
  download_files :
    list string -> string -> list string -> option (list string * list string);
  (* [tarfile.open] succeeds on this path *)
  tar_readable : string -> bool;
  (* archive, destination, directory entries before; entries after *)
  tar_extractall : string -> string -> list string -> option (list string);
  fits_open : option string -> option hdulist;
  (* [np.percentile(a, q)] of an array of numbers *)
  percentile : ndarray -> Z -> option float;
  (* whether this [plt] call returns, given all that was done before it *)
  plt_returns : list event -> event -> bool
}.

(** ** The state-and-exception monad *)

Record world : Type := {
  stdin : list string;     (* lines not yet read by [input] *)
  listdir : list string;   (* [os.listdir(".")], in its order *)
  trace : list event       (* what was done so far, oldest first *)
}.

Definition M (A : Type) : Type := world -> result A * world.

Definition ret {A} (a : A) : M A := fun w => (Ok a, w).

Definition raise {A} (e : exn) : M A := fun w => (Raise e, w).

Definition bind {A B} (m : M A) (k : A -> M B) : M B :=
  fun w =>
    match m w with
    | (Ok a, w') => k a w'
    | (Raise e, w') => (Raise e, w')
    end.

Notation "x <- m ;; k" := (bind m (fun x => k))
  (at level 61, m at next level, right associativity).
Notation "m ;; k" := (bind m (fun _ => k))
  (at level 61, right associativity).

Definition record (evs : list event) (w : world) : world :=
  {| stdin := stdin w; listdir := listdir w; trace := trace w ++ evs |}.

Definition emit (e : event) : M unit := fun w => (Ok tt, record [e] w).

Definition print (m : message) : M unit := emit (EvPrint m).

(** The outcome of an external call: its value, or the exception. *)
Definition outcome {A} (call : string) (o : option A) : M A :=
  match o with
  | Some a => ret a
  | None => raise (LibraryError call)
  end.

(** [seq[i]] for an index that is not negative. *)
Definition item {A} (l : list A) (i : nat) : M A :=
  match nth_error l i with
  | Some a => ret a
  | None => raise IndexError
  end.

(** [finally m cleanup]: [cleanup] runs whether or not [m] raised, and the
    outcome of [m] stands. *)
Definition finally {A} (m : M A) (cleanup : M unit) : M A :=
  fun w =>
    let (r, w') := m w in
    match cleanup w' with
    | (Ok _, w'') => (r, w'')
    | (Raise e, w'') => (Raise e, w'')
    end.

Definition set_stdin (lines : list string) (w : world) : world :=
  {| stdin := lines; listdir := listdir w; trace := trace w |}.

Definition set_listdir (entries : list string) (w : world) : world :=
  {| stdin := stdin w; listdir := entries; trace := trace w |}.

(** [input(prompt)]: the prompt is written, then one line is read;
    at end of input Python raises [EOFError]. *)
Definition input (prompt : message) : M string :=
  fun w =>
    match stdin w with
    | [] => (Raise EOFError, record [EvPrompt prompt] w)
    | line :: rest => (Ok line, record [EvPrompt prompt] (set_stdin rest w))
    end.

(** ** The scripts *)

Definition download_dir : string := ".".

(** The literal [0.1] of [alma_w-hydrae.py], [7205759403792794 * 2^-56]. *)
Definition f_0_1 : float := S754_finite false 7205759403792794 (-56).

Definition radius_prompt : message :=
  [Str "Enter search radius in degrees (e.g., 0.1): "].

Definition ds_prompt (count : Z) : message :=
  [Str (nl ++ "Enter the index of the dataset to use (0-")%string; Int (count - 1);
   Str "): "].

Definition file_prompt (count : Z) : message :=
  [Str (nl ++ "Enter the index of the file to download (0-")%string; Int (count - 1);
   Str "): "].

Definition no_files_msg : message :=
  [Str "No FITS or tarball files found in this dataset."].

(** [downloaded_file.endswith(".tar.gz") or downloaded_file.endswith(".tar")] *)
Definition is_archive_name (downloaded_file : string) : bool :=
  orb (PyStr.endswith downloaded_file ".tar.gz")
      (PyStr.endswith downloaded_file ".tar").

(** Lines 122-125 of [alma.py]: the [for] loop over [os.listdir] with its
    [break]; [None] is the initial value of [fits_file]. *)
Fixpoint first_fits (names : list string) : option string :=
  match names with
  | [] => None
  | name :: rest =>
      if is_fits name then Some (PyStr.path_join download_dir name)
      else first_fits rest
  end.

Section Scripts.

Variable X : externals.

(** Lines 16-25 of [alma.py].  Every pass of the [while True:] reads one
    line, so the loop is a recursion on the lines left on standard input. *)
Fixpoint radius_loop (lines : list string) (w : world) : result float * world :=
  match lines with
  | [] => (Raise EOFError, record [EvPrompt radius_prompt] (set_stdin [] w))
  | line :: rest =>
      let w1 := record [EvPrompt radius_prompt] (set_stdin rest w) in
      let radius_input := PyStr.strip line in
      match py_float X radius_input with
      | Some radius =>
          if py_gt radius f_zero then (Ok radius, w1)
          else radius_loop rest
                 (record [EvPrint [Str "Radius must be positive."]] w1)
      | None =>
          radius_loop rest
            (record [EvPrint [Str "Invalid input. Enter a number."]] w1)
      end
  end.

Definition read_radius : M float := fun w => radius_loop (stdin w) w.

(** Lines 58-67 and 94-103 of [alma.py] (38-47 and 70-79 of
    [alma_w-hydrae.py]): the two index loops, which differ in their prompt
    and in the length compared against. *)
Fixpoint index_loop (prompt : message) (count : Z) (lines : list string)
    (w : world) : result Z * world :=
  match lines with
  | [] => (Raise EOFError, record [EvPrompt prompt] (set_stdin [] w))
  | line :: rest =>
      let w1 := record [EvPrompt prompt] (set_stdin rest w) in
      match py_int X line with
      | Some index =>
          if andb (0 <=? index) (index <? count) then (Ok index, w1)
          else index_loop prompt count rest
                 (record [EvPrint [Str "Index out of range, try again."]] w1)
      | None =>
          index_loop prompt count rest
            (record [EvPrint [Str "Invalid input, enter a number."]] w1)
      end
  end.

Definition read_index (prompt : message) (count : Z) : M Z :=
  fun w => index_loop prompt count (stdin w) w.

(** [len(results)] *)
Definition len_results (results : results_table) : Z :=
  Z.of_nat (length (member_ous_uid results)).

(** [table[name][i] if name in table.colnames else missing] *)
Definition cell (column : option (list string)) (i : nat) (missing : string)
    : M string :=
  match column with
  | Some cells => item cells i
  | None => ret missing
  end.

(** Lines 47-53 of [alma.py]: the body of the [for i, uid in enumerate(...)]
    loop, from index [i] on. *)
Fixpoint list_datasets (results : results_table) (i : nat) (uids : list string)
    : M unit :=
  match uids with
  | [] => ret tt
  | uid :: rest =>
      title <- cell (obs_title results) i "No title" ;;
      bands <- cell (band_list results) i "N/A" ;;
      instr <- cell (instrument_name results) i "N/A" ;;
      freq <- cell (frequency results) i "N/A" ;;
      date <- item (lastModified results) i ;;
      print [Int (Z.of_nat i); Str ": UID="; Str uid; Str ", Title="; Str title;
             Str ", Bands="; Str bands; Str ", Instrument="; Str instr;
             Str ", Frequency="; Str freq; Str ", Last Modified="; Str date] ;;
      list_datasets results (S i) rest
  end.

(** Lines 30-33 of [alma_w-hydrae.py]. *)
Fixpoint list_datasets_w_hya (results : results_table) (i : nat)
    (uids : list string) : M unit :=
  match uids with
  | [] => ret tt
  | uid :: rest =>
      title <- cell (obs_title results) i "No title" ;;
      date <- item (lastModified results) i ;;
      print [Int (Z.of_nat i); Str ": UID="; Str uid; Str ", Title="; Str title;
             Str ", Last Modified="; Str date] ;;
      list_datasets_w_hya results (S i) rest
  end.

(** Lines 58-69 of [alma.py]. *)
Definition pick_dataset (results : results_table) : M string :=
  ds_index <- read_index (ds_prompt (len_results results)) (len_results results) ;;
  item (member_ous_uid results) (Z.to_nat ds_index).

(** Lines 74-81 of [alma.py]. *)
Definition find_files (selected_uid : string) : M (info_table * list string) :=
  emit (EvGetDataInfo selected_uid) ;;
  info_table <- outcome "alma.get_data_info" (get_data_info X selected_uid) ;;
  let fits_urls := fits_urls (access_url info_table) in
  if Z.of_nat (length fits_urls) =? 0
  then raise (RuntimeError no_files_msg)
  else ret (info_table, fits_urls).

(** Lines 84-89 of [alma.py]: the listing loop from index [i] on.  The
    format and size cells are looked up in [info_table] at the loop index. *)
Fixpoint list_files (info_table : info_table) (i : nat) (urls : list string)
    : M unit :=
  match urls with
  | [] => ret tt
  | url :: rest =>
      let fname := PyStr.basename url in
      fmt <- cell (access_format info_table) i "N/A" ;;
      size <- cell (access_estsize info_table) i "N/A" ;;
      print [Int (Z.of_nat i); Str ": File="; Str fname; Str ", Format=";
             Str fmt; Str ", Size="; Str size; Str " bytes"] ;;
      list_files info_table (S i) rest
  end.

(** Lines 64-65 of [alma_w-hydrae.py]. *)
Fixpoint list_files_w_hya (i : nat) (urls : list string) : M unit :=
  match urls with
  | [] => ret tt
  | url :: rest =>
      print [Int (Z.of_nat i); Str ": "; Str url] ;;
      list_files_w_hya (S i) rest
  end.

(** Lines 94-105 of [alma.py]. *)
Definition pick_file (fits_urls : list string) : M string :=
  let count := Z.of_nat (length fits_urls) in
  file_index <- read_index (file_prompt count) count ;;
  item fits_urls (Z.to_nat file_index).

(** Lines 110-112 of [alma.py]. *)
Definition download (first_file_url : string) : M string :=
  emit (EvDownload [first_file_url] download_dir) ;;
  downloaded <-
    (fun w =>
       match download_files X [first_file_url] download_dir (listdir w) with
       | Some (paths, entries) => (Ok paths, set_listdir entries w)
       | None => (Raise (LibraryError "alma.download_files"), w)
       end) ;;
  item downloaded 0.

(** [tarfile.open(path, "r:*")] *)
Definition tarfile_open (path : string) : M handle :=
  emit (EvTarfileOpen path) ;;
  if tar_readable X path
  then emit (EvOpened (TarHandle path)) ;; ret (TarHandle path)
  else raise (LibraryError "tarfile.open").

(** [tar.extractall(path=dest)] on the archive at [archive] *)
Definition extractall (archive dest : string) : M unit :=
  emit (EvExtractAll dest) ;;
  fun w =>
    match tar_extractall X archive dest (listdir w) with
    | Some entries => (Ok tt, set_listdir entries w)
    | None => (Raise (LibraryError "tar.extractall"), w)
    end.

(** [os.listdir(dir)] for the download directory *)
Definition os_listdir (dir : string) : M (list string) :=
  emit (EvListDir dir) ;;
  fun w => (Ok (listdir w), w).

(** Lines 117-127 of [alma.py] (93-103 of [alma_w-hydrae.py]); the [with]
    block closes the archive whether or not [extractall] raised. *)
Definition extract (downloaded_file : string) : M (option string) :=
  if is_archive_name downloaded_file then
    tar <- tarfile_open downloaded_file ;;
    finally (extractall downloaded_file download_dir) (emit (EvClosed tar)) ;;
    names <- os_listdir download_dir ;;
    ret (first_fits names)
  else ret (Some downloaded_file).

(** [os.path.basename(fits_file)]; [None] is not a path. *)
Definition basename_of (fits_file : option string) : M string :=
  match fits_file with
  | Some p => ret (PyStr.basename p)
  | None => raise (LibraryError "os.path.basename")
  end.

(** A call into [matplotlib.pyplot]: the call is made, then it returns or
    raises. *)
Definition plt (call : string) (e : event) : M unit :=
  fun w =>
    if plt_returns X (trace w) e then (Ok tt, record [e] w)
    else (Raise (LibraryError call), record [e] w).

(** [np.percentile(data_2d, q)]; numpy raises on the array that holds
    [None]. *)
Definition np_percentile (data_2d : option ndarray) (q : Z) : M float :=
  match data_2d with
  | Some a => outcome "np.percentile" (percentile X a q)
  | None => raise (LibraryError "np.percentile")
  end.

(** [plt.imshow(data_2d, ..., norm=LogNorm(vmin=vmin, vmax=vmax))];
    the array that holds [None] is refused. *)
Definition plt_imshow (data_2d : option ndarray) (vmin vmax : float) : M unit :=
  match data_2d with
  | Some a => plt "plt.imshow" (EvImshow a vmin vmax)
  | None => raise (LibraryError "plt.imshow")
  end.

(** Lines 134-149 of [alma.py] (110-128 of [alma_w-hydrae.py]).  The last
    statement, [plt.show()], blocks until the window is closed and then
    returns. *)
Definition plot (target_name : string) (fits_file : option string) : M unit :=
  emit (EvFitsOpen fits_file) ;;
  hdul <- outcome "fits.open" (fits_open X fits_file) ;;
  emit (EvOpened (HduHandle fits_file)) ;;
  let data := primary_data hdul in
  let data_2d := np_squeeze data in
  plt "plt.figure" EvFigure ;;
  vmin <- np_percentile data_2d 1 ;;
  vmax <- np_percentile data_2d 99 ;;
  plt_imshow data_2d (py_max vmin f_1e_10) vmax ;;
  plt "plt.colorbar" EvColorbar ;;
  fname <- basename_of fits_file ;;
  plt "plt.title" (EvTitle [Str target_name; Str " - "; Str fname]) ;;
  plt "plt.xlabel" (EvXlabel "X Pixel") ;;
  plt "plt.ylabel" (EvYlabel "Y Pixel") ;;
  emit EvShow.

(** Steps 8 to 10, the same in both scripts. *)
Definition fetch_and_plot (target_name first_file_url : string) : M unit :=
  downloaded_file <- download first_file_url ;;
  fits_file <- extract downloaded_file ;;
  print [Str (nl ++ "Downloaded FITS file: ")%string; OptStr fits_file] ;;
  plot target_name fits_file.

(** Lines 83-89 of [alma.py]. *)
Definition show_files (info_table : info_table) (fits_urls : list string)
    : M unit :=
  print [Str (nl ++ "Available files in dataset:")%string] ;;
  list_files info_table 0 fits_urls.

(** Lines 63-65 of [alma_w-hydrae.py]. *)
Definition show_files_w_hya (info_table : info_table) (fits_urls : list string)
    : M unit :=
  print [Str (nl ++ "Available FITS/tarball files:")%string] ;;
  list_files_w_hya 0 fits_urls.

(** Steps 5 to 10 of [alma.py] (4 to 10 of [alma_w-hydrae.py]), from the
    query result on; the scripts differ in how they show the files and in
    the target named in the plot title. *)
Definition browse (show : info_table -> list string -> M unit)
    (target_name : string) (results : results_table) : M unit :=
  selected_uid <- pick_dataset results ;;
  found <- find_files selected_uid ;;
  let (info_table, fits_urls) := found in
  show info_table fits_urls ;;
  first_file_url <- pick_file fits_urls ;;
  fetch_and_plot target_name first_file_url.

(** Steps 1 to 4 of [alma.py]: lines 14-53. *)
Definition query_datasets : M (string * results_table) :=
  line <- input [Str "Enter the target name (e.g., W Hya, Betelgeuse, NGC 253): "] ;;
  let target_name := PyStr.strip line in
  radius <- read_radius ;;
  emit (EvFromName target_name) ;;
  coord <- outcome "SkyCoord.from_name" (from_name X target_name) ;;
  print [Str "Coordinates of "; Str target_name; Str ": RA=";
         Flt (ra_deg X coord); Str ", Dec="; Flt (dec_deg X coord)] ;;
  emit (EvQueryRegion radius) ;;
  results <- outcome "alma.query_region" (query_region X coord radius) ;;
  print [Str "Total datasets found: "; Int (len_results results)] ;;
  (if len_results results =? 0
   then raise (RuntimeError [Str "No ALMA datasets found for "; Str target_name;
                             Str " within "; Flt radius; Str " deg."])
   else ret tt) ;;
  print [Str (nl ++ "Available datasets (latest first):")%string] ;;
  list_datasets results 0 (member_ous_uid results) ;;
  ret (target_name, results).

(** Steps 1 to 3 of [alma_w-hydrae.py]: lines 14-33. *)
Definition query_datasets_w_hya : M results_table :=
  emit (EvFromName "W Hya") ;;
  coord <- outcome "SkyCoord.from_name" (from_name X "W Hya") ;;
  emit (EvQueryRegion f_0_1) ;;
  results <- outcome "alma.query_region" (query_region X coord f_0_1) ;;
  print [Str "Total datasets found: "; Int (len_results results)] ;;
  (if len_results results =? 0
   then raise (RuntimeError [Str "No ALMA datasets found for W Hya."])
   else ret tt) ;;
  print [Str (nl ++ "Available datasets (latest first):")%string] ;;
  list_datasets_w_hya results 0 (member_ous_uid results) ;;
  ret results.

(** [alma.py] *)
Definition alma_main : M unit :=
  found <- query_datasets ;;
  browse show_files (fst found) (snd found).

(** [alma_w-hydrae.py] *)
Definition alma_w_hydrae_main : M unit :=
  results <- query_datasets_w_hya ;;
  browse show_files_w_hya "W Hya" results.

End Scripts.

(** A run starts with nothing done yet. *)
Definition start (lines entries : list string) : world :=
  {| stdin := lines; listdir := entries; trace := [] |}.

(** ** Open handles along a trace *)

Definition handle_eqb (a b : handle) : bool :=
  match a, b with
  | TarHandle p, TarHandle q => String.eqb p q
  | HduHandle (Some p), HduHandle (Some q) => String.eqb p q
  | HduHandle None, HduHandle None => true
  | _, _ => false
  end.

Fixpoint close_handle (h : handle) (hs : list handle) : list handle :=
  match hs with
  | [] => []
  | x :: r => if handle_eqb h x then r else x :: close_handle h r
  end.

(** The handles open after [evs], given those open before. *)
Fixpoint open_handles (hs : list handle) (evs : list event) : list handle :=
  match evs with
  | [] => hs
  | EvOpened h :: r => open_handles (h :: hs) r
  | EvClosed h :: r => open_handles (close_handle h hs) r
  | _ :: r => open_handles hs r
  end.

Definition is_tar_handle (h : handle) : bool :=
  match h with
  | TarHandle _ => true
  | HduHandle _ => false
  end.

Definition is_download (e : event) : bool :=
  match e with
  | EvDownload _ _ => true
  | _ => false
  end.

Definition is_get_data_info (e : event) : bool :=
  match e with
  | EvGetDataInfo _ => true
  | _ => false
  end.

Definition closes_hdu (e : event) : bool :=
  match e with
  | EvClosed (HduHandle _) => true
  | _ => false
  end.

(** ** A scripted environment for concrete runs *)

Module Demo.

(** Blanks that [int()] skips around a number: 9 to 13 and 32, and of the
    code points from 128 on those that are blanks, 133 and 160.  (The
    separators 28 to 31, which [str.strip()] removes, are not skipped.) *)
Definition int_space (c : ascii) : bool :=
  let n := nat_of_ascii c in
  orb (andb (Nat.leb 9 n) (Nat.leb n 13))
      (orb (Nat.eqb n 32) (orb (Nat.eqb n 133) (Nat.eqb n 160))).

Definition is_digit (c : ascii) : bool :=
  andb (Nat.leb 48 (nat_of_ascii c)) (Nat.leb (nat_of_ascii c) 57).

Fixpoint skip_blanks (s : string) : string :=
  match s with
  | EmptyString => EmptyString
  | String c r => if int_space c then skip_blanks r else s
  end.

(** Digits, where two digits may have one underscore between them;
    [after_digit] tells whether the character before was a digit. *)
Fixpoint digits (s : string) (acc : Z) (after_digit : bool) : option Z :=
  match s with
  | EmptyString => if after_digit then Some acc else None
  | String c r =>
      if is_digit c
      then digits r (10 * acc + Z.of_nat (nat_of_ascii c - 48)) true
      else if andb (Ascii.eqb c "_") after_digit then
        match r with
        | String d _ => if is_digit d then digits r acc false else None
        | EmptyString => None
        end
      else None
  end.

Fixpoint count_digits (s : string) : nat :=
  match s with
  | EmptyString => 0%nat
  | String c r => ((if is_digit c then 1 else 0) + count_digits r)%nat
  end.

(** [int(s)] on a [str], base ten: blanks around, an optional sign, then
    digits with single underscores allowed between them; no more than 4300
    digits, the limit CPython sets by default. *)
Definition int_of_string (s : string) : option Z :=
  let body := PyStr.rev (skip_blanks (PyStr.rev (skip_blanks s))) in
  let number (t : string) : option Z :=
    if Nat.ltb 4300 (count_digits t) then None else digits t 0 false in
  match body with
  | EmptyString => None
  | String c r =>
      if Ascii.eqb c "-" then option_map Z.opp (number r)
      else if Ascii.eqb c "+" then number r
      else number body
  end.

(** [float(s)] on the literals typed in the runs below. *)
Definition float_of_string (s : string) : option float :=
  if String.eqb s "0.1" then Some f_0_1
  else if String.eqb s "0" then Some f_zero
  else if String.eqb s "-1" then Some (S754_finite true 4503599627370496 (-52))
  else if String.eqb s "nan" then Some S754_nan
  else None.

Definition datasets : results_table :=
  {| member_ous_uid := ["uid://A001/X1/Xa"; "uid://A001/X1/Xb"; "uid://A001/X1/Xc";
                        "uid://A001/X1/Xd"; "uid://A001/X1/Xe"];
     lastModified := ["2021-05-01"; "2020-11-30"; "2019-02-14"; "2018-07-07";
                      "2017-03-03"];
     obs_title := Some ["Mapping"; "Monitoring"; "Survey"; "Imaging"; "Pilot"];
     band_list := None;
     instrument_name := None;
     frequency := None |}.

Definition files_of (uid : string) : option info_table :=
  if String.eqb uid "uid://A001/X1/Xa" then
    Some {| access_url := ["https://h/d/cube.tar.gz"; "https://h/d/image.fits"];
            access_format := Some ["application/x-tar"; "image/fits"];
            access_estsize := Some ["2048"; "512"] |}
  else if String.eqb uid "uid://A001/X1/Xb" then
    Some {| access_url := ["https://h/d/bundle.tar.gz"; "https://h/d/readme.txt"];
            access_format := None;
            access_estsize := None |}
  else if String.eqb uid "uid://A001/X1/Xc" then
    Some {| access_url := ["https://h/d/readme.txt"];
            access_format := None;
            access_estsize := None |}
  else if String.eqb uid "uid://A001/X1/Xd" then
    Some {| access_url := ["https://h/d/maps.tar.gz"];
            access_format := None;
            access_estsize := None |}
  else if String.eqb uid "uid://A001/X1/Xe" then
    Some {| access_url := ["https://h/d/OLD.TAR.GZ"];
            access_format := None;
            access_estsize := None |}
  else None.

(** What each archive of the demo holds. *)
Definition members (archive : string) : list string :=
  if String.eqb (PyStr.basename archive) "bundle.tar.gz" then ["README"]
  else if String.eqb (PyStr.basename archive) "maps.tar.gz"
       then ["notes.txt"; "map.FITS"]
  else [].

(** The double [1.0]. *)
Definition f_1 : float := S754_finite false 4503599627370496 (-52).

(** A 2x2 image inside two axes of length one, with pixels [0.1], [0.1],
    [1.0], [1.0]. *)
Definition image : ndarray :=
  {| shape := [1%nat; 1%nat; 2%nat; 2%nat];
     flat := [f_0_1; f_0_1; f_1; f_1] |}.

Definition is_nan (x : float) : bool :=
  match x with
  | S754_nan => true
  | _ => false
  end.

(** [np.percentile] on the images of the runs below, whose two lowest
    pixels are equal and whose two highest pixels are equal: the 1st
    percentile lies between the two lowest and is the lowest pixel, the 99th
    is the highest; an image that holds NaN has NaN for every percentile. *)
Definition percentile_of (a : ndarray) (q : Z) : option float :=
  match flat a with
  | [] => None
  | x :: r =>
      Some (if existsb is_nan (flat a) then S754_nan
            else if q <=? 50
                 then fold_left (fun m y => if SFltb y m then y else m) r x
                 else fold_left (fun m y => if SFltb m y then y else m) r x)
  end.

(** Shapes [imshow] draws: two axes, or three with 3 or 4 colour
    channels. *)
Definition image_shape (s : list nat) : bool :=
  match s with
  | [_; _] => true
  | [_; _; c] => orb (Nat.eqb c 3) (Nat.eqb c 4)
  | _ => false
  end.

(** A bound the logarithmic norm can take: finite and above zero. *)
Definition log_bound (x : float) : bool :=
  match x with
  | S754_finite false _ _ => true
  | _ => false
  end.

(** The bounds of the image drawn last. *)
Fixpoint last_bounds (evs : list event) (found : option (float * float))
    : option (float * float) :=
  match evs with
  | [] => found
  | EvImshow _ vmin vmax :: r => last_bounds r (Some (vmin, vmax))
  | _ :: r => last_bounds r found
  end.

(** Which plotting calls return: [imshow] needs an image shape; [colorbar]
    needs an image drawn before it whose bounds the logarithmic norm can
    take, the lower not above the upper; the other calls return. *)
Definition plotting (before : list event) (e : event) : bool :=
  match e with
  | EvImshow a _ _ => image_shape (shape a)
  | EvColorbar =>
      match last_bounds before None with
      | Some (vmin, vmax) =>
          andb (log_bound vmin) (andb (log_bound vmax) (negb (SFltb vmax vmin)))
      | None => false
      end
  | _ => true
  end.

Definition env : externals :=
  {| coord := float * float;
     ra_deg := fst;
     dec_deg := snd;
     py_float := float_of_string;
     py_int := int_of_string;
     from_name := fun _ => Some (f_0_1, f_zero);
     query_region := fun _ _ => Some datasets;
     get_data_info := files_of;
     download_files := fun urls savedir entries =>
       Some (map (fun u => PyStr.path_join savedir (PyStr.basename u)) urls,
             entries ++ map PyStr.basename urls);
     tar_readable := is_targz;
     tar_extractall := fun archive _ entries => Some (entries ++ members archive);
     fits_open := fun path =>
       match path with
       | Some p =>
           if is_fits p then Some {| primary_data := Some image |} else None
       | None => None
       end;
     percentile := percentile_of;
     plt_returns := plotting |}.

End Demo.

(** ** What the input loops accept *)

(** The line parses as a float greater than zero. *)
Definition valid_radius (X : externals) (line : string) (radius : float) : Prop :=
  py_float X (PyStr.strip line) = Some radius /\ py_gt radius f_zero = true.

Definition invalid_radius (X : externals) (line : string) : Prop :=
  forall radius,
    py_float X (PyStr.strip line) = Some radius -> py_gt radius f_zero = false.

(** The line parses as an integer of [[0, count)]. *)
Definition valid_index (X : externals) (count : Z) (line : string) (index : Z)
    : Prop :=
  py_int X line = Some index /\ 0 <= index < count.

Definition invalid_index (X : externals) (count : Z) (line : string) : Prop :=
  forall index, py_int X line = Some index -> ~ (0 <= index < count).

(** What the terminal shows for one rejected line: the prompt that asked
    for it and the complaint that answers it. *)
Definition radius_retry (X : externals) (line : string) : list event :=
  [EvPrompt radius_prompt;
   EvPrint [Str (match py_float X (PyStr.strip line) with
                 | Some _ => "Radius must be positive."
                 | None => "Invalid input. Enter a number."
                 end)]].

Definition index_retry (X : externals) (prompt : message) (line : string)
    : list event :=
  [EvPrompt prompt;
   EvPrint [Str (match py_int X line with
                 | Some _ => "Index out of range, try again."
                 | None => "Invalid input, enter a number."
                 end)]].


(** ** Vocabulary of the statements about listings and handles *)

(** The line [print(f"{i}: File={fname}, Format={fmt}, Size={size} bytes")]. *)
Definition file_line (i : nat) (url fmt size : string) : message :=
  [Int (Z.of_nat i); Str ": File="; Str (PyStr.basename url); Str ", Format=";
   Str fmt; Str ", Size="; Str size; Str " bytes"].

(** The lines that pair the candidate URLs, numbered from [i], with the
    cells found at the same numbers in the two columns given. *)
Fixpoint listing_lines (i : nat) (urls fmts sizes : list string) : list event :=
  match urls with
  | [] => []
  | url :: rest =>
      EvPrint (file_line i url (nth i fmts "") (nth i sizes ""))
      :: listing_lines (S i) rest fmts sizes
  end.

(** The image handles that [evs] opened, latest first. *)
Fixpoint opened_hdus (evs : list event) : list handle :=
  match evs with
  | [] => []
  | EvOpened (HduHandle p) :: r => opened_hdus r ++ [HduHandle p]
  | _ :: r => opened_hdus r
  end.

(** After [evs], the handles open are those open before and every image
    handle that [evs] opened: tar handles opened were closed again, image
    handles were not. *)
Definition keeps_images_open (evs : list event) : Prop :=
  forall hs, open_handles hs evs = opened_hdus evs ++ hs.


(** ** Vocabulary of the statements about traces *)

(** [extends Q m]: whatever [m] does, it only adds events to the trace, and
    the events added satisfy [Q]. *)
Definition extends {A} (Q : list event -> Prop) (m : M A) : Prop :=
  forall w r w', m w = (r, w') -> exists evs, trace w' = trace w ++ evs /\ Q evs.

(** Properties of added events that survive sequencing and that talking to
    the terminal cannot break. *)
Record harmless (Q : list event -> Prop) : Prop := {
  harmless_nil : Q [];
  harmless_app : forall a b, Q a -> Q b -> Q (a ++ b);
  harmless_prompt : forall m, Q [EvPrompt m];
  harmless_print : forall m, Q [EvPrint m]
}.

(** Traces free of one sort of event. *)
Definition free_of (bad : event -> bool) (evs : list event) : Prop :=
  Forall (fun e => bad e = false) evs.

(** Neither the listing service nor the download has been called. *)
Definition lists_or_downloads (e : event) : bool :=
  orb (is_get_data_info e) (is_download e).

(** No URL of the listing ends in [.fits] or in [.tar.gz]. *)
Definition no_candidate (t : info_table) : Prop :=
  forall url, In url (access_url t) -> is_fits url = false /\ is_targz url = false.

(** ** Vocabulary of the statements about whole runs *)

(** Every event of [evs] satisfies [P]. *)
Definition all_events (P : event -> Prop) (evs : list event) : Prop :=
  Forall P evs.

(** The archive is only asked about regions of positive radius. *)
Definition positive_query (e : event) : Prop :=
  match e with
  | EvQueryRegion radius => py_gt radius f_zero = true
  | _ => True
  end.


(** An archive with nothing in it, and a name nobody knows. *)

Module Barren.

Definition no_datasets : results_table :=
  {| member_ous_uid := [];
     lastModified := [];
     obs_title := None;
     band_list := None;
     instrument_name := None;
     frequency := None |}.

Definition env : externals :=
  {| coord := float * float;
     ra_deg := fst;
     dec_deg := snd;
     py_float := Demo.float_of_string;
     py_int := Demo.int_of_string;
     from_name := fun name =>
       if String.eqb name "Nowhere" then None else Some (f_0_1, f_zero);
     query_region := fun _ _ => Some no_datasets;
     get_data_info := Demo.files_of;
     download_files := download_files Demo.env;
     tar_readable := fun path => negb (String.eqb path "./broken.tar");
     tar_extractall := fun _ _ _ => None;
     fits_open := fun _ => None;
     percentile := Demo.percentile_of;
     plt_returns := Demo.plotting |}.

End Barren.

(** The services of the demo, with an image file that holds a blanked
    pixel. *)

Module Masked.

(** A 2x2 image whose first pixel is NaN. *)
Definition image : ndarray :=
  {| shape := [2%nat; 2%nat];
     flat := [S754_nan; f_0_1; Demo.f_1; Demo.f_1] |}.

Definition env : externals :=
  {| coord := float * float;
     ra_deg := fst;
     dec_deg := snd;
     py_float := Demo.float_of_string;
     py_int := Demo.int_of_string;
     from_name := from_name Demo.env;
     query_region := query_region Demo.env;
     get_data_info := Demo.files_of;
     download_files := download_files Demo.env;
     tar_readable := is_targz;
     tar_extractall := tar_extractall Demo.env;
     fits_open := fun path =>
       match path with
       | Some p =>
           if is_fits p then Some {| primary_data := Some image |} else None
       | None => None
       end;
     percentile := Demo.percentile_of;
     plt_returns := Demo.plotting |}.

End Masked.

(** ** Vocabulary of the statements about the lists shown *)

(** The cell shown for row [i] of a column that may be absent. *)
Definition cell_or (column : option (list string)) (i : nat) (missing : string)
    : string :=
  match column with
  | Some cells => nth i cells ""
  | None => missing
  end.

(** The line of [alma.py] for dataset [i]. *)
Definition dataset_line (results : results_table) (i : nat) (uid : string)
    : message :=
  [Int (Z.of_nat i); Str ": UID="; Str uid;
   Str ", Title="; Str (cell_or (obs_title results) i "No title");
   Str ", Bands="; Str (cell_or (band_list results) i "N/A");
   Str ", Instrument="; Str (cell_or (instrument_name results) i "N/A");
   Str ", Frequency="; Str (cell_or (frequency results) i "N/A");
   Str ", Last Modified="; Str (nth i (lastModified results) "")].

(** The line of [alma_w-hydrae.py] for dataset [i]. *)
Definition dataset_line_w_hya (results : results_table) (i : nat) (uid : string)
    : message :=
  [Int (Z.of_nat i); Str ": UID="; Str uid;
   Str ", Title="; Str (cell_or (obs_title results) i "No title");
   Str ", Last Modified="; Str (nth i (lastModified results) "")].

(** One line per entry, numbered from [i]. *)
Fixpoint numbered_lines (line : nat -> string -> message) (i : nat)
    (entries : list string) : list event :=
  match entries with
  | [] => []
  | entry :: rest => EvPrint (line i entry) :: numbered_lines line (S i) rest
  end.

(** The line of [alma.py] for candidate [i], with [N/A] for a column the
    listing does not have. *)
Definition candidate_line (t : info_table) (i : nat) (url : string) : message :=
  file_line i url (cell_or (access_format t) i "N/A")
            (cell_or (access_estsize t) i "N/A").

(** Every column of the query result has one cell per dataset. *)
Definition results_ok (results : results_table) : Prop :=
  let n := length (member_ous_uid results) in
  length (lastModified results) = n /\
  column_ok n (obs_title results) /\
  column_ok n (band_list results) /\
  column_ok n (instrument_name results) /\
  column_ok n (frequency results).


(** ** Vocabulary of the statements about how a run ends *)

Definition is_show (e : event) : bool :=
  match e with
  | EvShow => true
  | _ => false
  end.

Definition is_imshow (e : event) : bool :=
  match e with
  | EvImshow _ _ _ => true
  | _ => false
  end.

(** [m] ends normally only by showing the figure as the last thing it
    does, having shown nothing before; when it raises it has shown
    nothing. *)
Definition shows_last {A} (m : M A) : Prop :=
  forall w r w',
    m w = (r, w') ->
    (exists a before,
       r = Ok a /\ trace w' = trace w ++ before ++ [EvShow] /\
       free_of is_show before) \/
    (exists e evs,
       r = Raise e /\ trace w' = trace w ++ evs /\ free_of is_show evs).

(** Started where nothing has been shown, [m] either raises with nothing
    shown or hands over to the plotting step with nothing shown. *)
Definition ends_in_plot (X : externals) (m : M unit) : Prop :=
  forall w r w',
    free_of is_show (trace w) ->
    m w = (r, w') ->
    (exists e, r = Raise e /\ free_of is_show (trace w')) \/
    (exists target fits_file w1,
       free_of is_show (trace w1) /\ plot X target fits_file w1 = (r, w')).


(** ** Vocabulary of the statement about the order of calls *)

(** The place of a call in the pipeline.  Talking to the terminal and the
    bookkeeping of handles have no place of their own. *)
Definition stage (e : event) : option nat :=
  match e with
  | EvFromName _ => Some 1%nat
  | EvQueryRegion _ => Some 2%nat
  | EvGetDataInfo _ => Some 3%nat
  | EvDownload _ _ => Some 4%nat
  | EvTarfileOpen _ => Some 5%nat
  | EvExtractAll _ => Some 6%nat
  | EvListDir _ => Some 7%nat
  | EvFitsOpen _ => Some 8%nat
  | EvFigure => Some 9%nat
  | EvImshow _ _ _ => Some 10%nat
  | EvColorbar => Some 11%nat
  | EvTitle _ => Some 12%nat
  | EvXlabel _ => Some 13%nat
  | EvYlabel _ => Some 14%nat
  | EvShow => Some 15%nat
  | EvPrompt _ | EvPrint _ | EvOpened _ | EvClosed _ => None
  end.

(** The stages of the calls of [evs], in the order made. *)
Fixpoint calls (evs : list event) : list nat :=
  match evs with
  | [] => []
  | e :: r =>
      match stage e with
      | Some s => s :: calls r
      | None => calls r
      end
  end.

(** Every number is smaller than all the numbers after it. *)
Fixpoint ascending (l : list nat) : Prop :=
  match l with
  | [] => True
  | a :: r => Forall (fun b => (a < b)%nat) r /\ ascending r
  end.

(** The calls of [evs] are made in pipeline order, each stage at most once,
    and all of them belong to the stages from [lo] up to, not including,
    [hi]. *)
Definition within (lo hi : nat) (evs : list event) : Prop :=
  ascending (calls evs) /\ Forall (fun s => (lo <= s < hi)%nat) (calls evs).


(** Every download asked for is for the single URL [url], into the
    download directory. *)
Definition downloads_only (url : string) (e : event) : Prop :=
  match e with
  | EvDownload urls savedir => urls = [url] /\ savedir = download_dir
  | _ => True
  end.


(** The figure [plot] draws from the file at [path], given the pixels
    read from it and their 1st and 99th percentile. *)
Definition figure_of (target path : string) (data : ndarray) (vmin vmax : float)
    : list event :=
  [EvFitsOpen (Some path); EvOpened (HduHandle (Some path)); EvFigure;
   EvImshow (squeeze data) (py_max vmin f_1e_10) vmax;
   EvColorbar;
   EvTitle [Str target; Str " - "; Str (PyStr.basename path)];
   EvXlabel "X Pixel"; EvYlabel "Y Pixel"; EvShow].

(** The calls into the plotting library. *)
Definition is_plt (e : event) : bool :=
  match e with
  | EvFigure | EvImshow _ _ _ | EvColorbar | EvTitle _ | EvXlabel _
  | EvYlabel _ => true
  | _ => false
  end.

(** Each plotting call of [evs] returns, made after [before] and the events
    of [evs] that precede it. *)
Fixpoint calls_return (X : externals) (before evs : list event) : bool :=
  match evs with
  | [] => true
  | e :: r =>
      andb (if is_plt e then plt_returns X before e else true)
           (calls_return X (before ++ [e]) r)
  end.

(** The plotting library draws the figure [evs], whatever happened before. *)
Definition draws (X : externals) (evs : list event) : Prop :=
  forall before, calls_return X before evs = true.

(** ** Vocabulary of the statement about how a run can fail *)





(** * Properties *)

(** ** Strings *)

Module PyStrFacts.
Import PyStr.

Lemma append_assoc (a b c : string) :
  ((a ++ b) ++ c)%string = (a ++ (b ++ c))%string.
Proof. induction a as [|x a IH]; simpl; [|rewrite IH]; reflexivity. Qed.

Lemma rev_onto_app (s acc : string) : rev_onto s acc = (rev s ++ acc)%string.
Proof.
  unfold rev. revert acc.
  induction s as [|c s IH]; intros acc; simpl; [reflexivity|].
  rewrite IH, (IH (String c EmptyString)).
  rewrite append_assoc. reflexivity.
Qed.

Lemma append_empty_r (s : string) : (s ++ "")%string = s.
Proof. induction s as [|c s IH]; simpl; [|rewrite IH]; reflexivity. Qed.

Lemma rev_app (a b : string) : rev (a ++ b) = (rev b ++ rev a)%string.
Proof.
  induction a as [|c a IH]; simpl.
  - rewrite append_empty_r. reflexivity.
  - change (rev (String c (a ++ b))) with (rev_onto (a ++ b) (String c "")).
    change (rev (String c a)) with (rev_onto a (String c "")).
    rewrite (rev_onto_app (a ++ b) (String c "")).
    rewrite (rev_onto_app a (String c "")).
    rewrite IH, append_assoc. reflexivity.
Qed.

Lemma rev_rev (s : string) : rev (rev s) = s.
Proof.
  induction s as [|c s IH]; [reflexivity|].
  change (String c s) with (String c "" ++ s)%string at 1.
  rewrite rev_app, rev_app, IH. reflexivity.
Qed.

Lemma startswith_spec (s p : string) :
  startswith s p = true <-> exists t, s = (p ++ t)%string.
Proof.
  revert s. induction p as [|a p IH]; intros s; simpl.
  - split; [intros _; exists s; reflexivity | reflexivity].
  - destruct s as [|b s].
    + split; [discriminate | intros [t H]; discriminate].
    + rewrite andb_true_iff, IH. split.
      * intros [Hab [t ->]]. apply Ascii.eqb_eq in Hab. subst b.
        exists t. reflexivity.
      * intros [t H]. injection H as -> ->. split.
        -- apply Ascii.eqb_refl.
        -- exists t. reflexivity.
Qed.

(** [endswith] is the suffix test it stands for. *)
Lemma endswith_spec (s suf : string) :
  endswith s suf = true <-> exists pre, s = (pre ++ suf)%string.
Proof.
  unfold endswith. rewrite startswith_spec. split.
  - intros [t H]. exists (rev t).
    rewrite <- (rev_rev s), H, rev_app, rev_rev. reflexivity.
  - intros [pre ->]. exists (rev pre). apply rev_app.
Qed.

End PyStrFacts.

Example strip_blanks : PyStr.strip "  0.1 " = "0.1".
Proof. reflexivity. Qed.

Example basename_of_url : PyStr.basename "https://h/a/b/c.fits" = "c.fits".
Proof. reflexivity. Qed.

Example path_join_entry : PyStr.path_join download_dir "map.FITS" = "./map.FITS".
Proof. reflexivity. Qed.

Example fits_urls_mixed_case :
  fits_urls ["http://a/x.tar.gz"; "http://a/Y.FITS"; "http://a/readme.txt";
             "http://a/z.fits"]
  = ["http://a/Y.FITS"; "http://a/z.fits"].
Proof. reflexivity. Qed.

Example fits_urls_tar_is_no_candidate :
  fits_urls ["http://a/readme.txt"; "http://a/u.tar"] = [].
Proof. reflexivity. Qed.

Example int_of_string_signed : Demo.int_of_string " -12 " = Some (-12).
Proof. reflexivity. Qed.

Example int_of_string_rejects : Demo.int_of_string "1.5" = None.
Proof. reflexivity. Qed.

(** ** The filtering policy *)

(** No name carries both extensions: one ends in [s], the other in [z]. *)
Lemma fits_not_targz (url : string) : is_fits url = true -> is_targz url = false.
Proof.
  unfold is_fits, is_targz, PyStr.endswith.
  change (PyStr.rev ".fits") with (String "s" "tif.").
  change (PyStr.rev ".tar.gz") with (String "z" "g.rat.").
  destruct (PyStr.rev (PyStr.lower url)) as [|c r]; [intros _; reflexivity|].
  change (Ascii.eqb "s" c && PyStr.startswith r "tif." = true ->
          Ascii.eqb "z" c && PyStr.startswith r "g.rat." = false).
  destruct (Ascii.eqb_spec "s" c) as [<-|_].
  - intros _. reflexivity.
  - intros H. discriminate H.
Qed.

Lemma filter_nil_iff {A} (f : A -> bool) (l : list A) :
  filter f l = [] <-> forall x, In x l -> f x = false.
Proof.
  induction l as [|a l IH]; simpl.
  - split; [intros _ x [] | reflexivity].
  - destruct (f a) eqn:E.
    + split; [discriminate|]. intros H. specialize (H a (or_introl eq_refl)).
      congruence.
    + rewrite IH. split.
      * intros H x [<-|Hx]; auto.
      * intros H x Hx. apply H. right. exact Hx.
Qed.

Lemma length_zero_eqb {A} (l : list A) :
  (Z.of_nat (length l) =? 0) = match l with [] => true | _ => false end.
Proof. destruct l; reflexivity. Qed.

Lemma fits_urls_cases (listing : list string) :
  fits_urls listing =
  match filter is_fits listing with
  | [] => filter is_targz listing
  | _ :: _ => filter is_fits listing
  end.
Proof.
  unfold fits_urls. rewrite length_zero_eqb.
  destruct (filter is_fits listing); reflexivity.
Qed.

(** C1: when the listing holds at least one URL ending, whatever the case of
    its letters, in [.fits], the candidate list is exactly the listing's
    [.fits] URLs in their order: it is not empty, each candidate comes from
    the listing and ends in [.fits], and no URL ending in [.tar.gz] is a
    candidate. *)
Theorem fits_urls_prefers_images (listing : list string) :
  (exists url, In url listing /\ is_fits url = true) ->
  fits_urls listing = filter is_fits listing /\
  fits_urls listing <> [] /\
  (forall url, In url (fits_urls listing) ->
     In url listing /\ is_fits url = true) /\
  (forall url, In url listing -> is_targz url = true ->
     ~ In url (fits_urls listing)).
Proof.
  intros [u [Hin Hu]].
  assert (Hne : filter is_fits listing <> []).
  { intros H. rewrite filter_nil_iff in H. rewrite (H u Hin) in Hu. discriminate. }
  assert (Heq : fits_urls listing = filter is_fits listing).
  { rewrite fits_urls_cases. destruct (filter is_fits listing); congruence. }
  rewrite Heq. repeat split; try assumption.
  - apply filter_In in H. tauto.
  - apply filter_In in H. tauto.
  - intros url _ Htar Hc. apply filter_In in Hc. destruct Hc as [_ Hf].
    apply fits_not_targz in Hf. congruence.
Qed.

Lemma fits_urls_prefers_images_witness :
  fits_urls ["http://a/x.tar.gz"; "http://a/Y.FITS"; "http://a/z.fits"]
  = ["http://a/Y.FITS"; "http://a/z.fits"].
Proof.
  destruct (fits_urls_prefers_images
              ["http://a/x.tar.gz"; "http://a/Y.FITS"; "http://a/z.fits"])
    as [H _].
  - exists "http://a/Y.FITS". split; [simpl; tauto | reflexivity].
  - rewrite H. reflexivity.
Defined.

(** C2: when no URL of the listing ends in [.fits] and at least one ends in
    [.tar.gz], the candidate list is the listing's [.tar.gz] URLs, in their
    order, and it is not empty. *)
Theorem fits_urls_falls_back_to_archives (listing : list string) :
  (forall url, In url listing -> is_fits url = false) ->
  (exists url, In url listing /\ is_targz url = true) ->
  fits_urls listing = filter is_targz listing /\ fits_urls listing <> [].
Proof.
  intros Hnone [u [Hin Hu]].
  apply filter_nil_iff in Hnone.
  assert (Heq : fits_urls listing = filter is_targz listing).
  { rewrite fits_urls_cases, Hnone. reflexivity. }
  split; [exact Heq|]. rewrite Heq. intros H.
  rewrite filter_nil_iff in H. rewrite (H u Hin) in Hu. discriminate.
Qed.

Lemma fits_urls_falls_back_to_archives_witness :
  fits_urls ["http://a/x.tar.gz"; "http://a/readme.txt"; "http://a/w.Tar.GZ"]
  = ["http://a/x.tar.gz"; "http://a/w.Tar.GZ"].
Proof.
  destruct (fits_urls_falls_back_to_archives
              ["http://a/x.tar.gz"; "http://a/readme.txt"; "http://a/w.Tar.GZ"])
    as [H _].
  - intros url Hin. simpl in Hin.
    destruct Hin as [<-|[<-|[<-|[]]]]; reflexivity.
  - exists "http://a/x.tar.gz". split; [simpl; tauto | reflexivity].
  - rewrite H. reflexivity.
Defined.

(** ** Reasoning about runs *)

Lemma bind_inv {A B} (m : M A) (k : A -> M B) (w : world) (r : result B)
    (w' : world) :
  bind m k w = (r, w') ->
  (exists e, m w = (Raise e, w') /\ r = Raise e) \/
  (exists a w1, m w = (Ok a, w1) /\ k a w1 = (r, w')).
Proof.
  unfold bind. destruct (m w) as [[a|e] w1]; intros H.
  - right. exists a, w1. split; [reflexivity | exact H].
  - left. exists e. injection H as <- <-. split; reflexivity.
Qed.

Lemma bind_ok {A B} (m : M A) (k : A -> M B) (w : world) (a : A) (w1 : world) :
  m w = (Ok a, w1) -> bind m k w = k a w1.
Proof. intros H. unfold bind. rewrite H. reflexivity. Qed.

Lemma bind_raise {A B} (m : M A) (k : A -> M B) (w : world) (e : exn)
    (w1 : world) :
  m w = (Raise e, w1) -> bind m k w = (Raise e, w1).
Proof. intros H. unfold bind. rewrite H. reflexivity. Qed.

Lemma record_record (a b : list event) (w : world) :
  record b (record a w) = record (a ++ b) w.
Proof. unfold record. simpl. rewrite app_assoc. reflexivity. Qed.

Section Extends.

Variable Q : list event -> Prop.
Hypothesis HQ : harmless Q.

Lemma extends_ret {A} (a : A) : extends Q (ret a).
Proof.
  intros w r w' H. injection H as <- <-. exists []. rewrite app_nil_r.
  split; [reflexivity | apply (harmless_nil Q HQ)].
Qed.

Lemma extends_raise {A} (e : exn) : extends Q (@raise A e).
Proof.
  intros w r w' H. injection H as <- <-. exists []. rewrite app_nil_r.
  split; [reflexivity | apply (harmless_nil Q HQ)].
Qed.

Lemma extends_bind {A B} (m : M A) (k : A -> M B) :
  extends Q m -> (forall a, extends Q (k a)) -> extends Q (bind m k).
Proof.
  intros Hm Hk w r w' H. apply bind_inv in H.
  destruct H as [[e [H _]] | [a [w1 [H1 H2]]]].
  - exact (Hm _ _ _ H).
  - destruct (Hm _ _ _ H1) as [e1 [T1 Q1]].
    destruct (Hk a _ _ _ H2) as [e2 [T2 Q2]].
    exists (e1 ++ e2). rewrite T2, T1, app_assoc.
    split; [reflexivity | apply (harmless_app Q HQ); assumption].
Qed.

Lemma extends_emit (e : event) : Q [e] -> extends Q (emit e).
Proof.
  intros He w r w' H. injection H as <- <-. exists [e].
  split; [reflexivity | exact He].
Qed.

Lemma extends_print (m : message) : extends Q (print m).
Proof. apply extends_emit, (harmless_print Q HQ). Qed.

Lemma extends_outcome {A} (call : string) (o : option A) :
  extends Q (outcome call o).
Proof. destruct o; [apply extends_ret | apply extends_raise]. Qed.

Lemma extends_item {A} (l : list A) (i : nat) : extends Q (item l i).
Proof.
  unfold item. destruct (nth_error l i); [apply extends_ret | apply extends_raise].
Qed.

Lemma extends_cell (column : option (list string)) (i : nat) (missing : string) :
  extends Q (cell column i missing).
Proof. destruct column; [apply extends_item | apply extends_ret]. Qed.

Lemma extends_input (prompt : message) : extends Q (input prompt).
Proof.
  intros w r w' H. unfold input in H.
  destruct (stdin w); injection H as <- <-; exists [EvPrompt prompt];
    (split; [reflexivity | apply (harmless_prompt Q HQ)]).
Qed.

Lemma extends_finally {A} (m : M A) (cleanup : M unit) :
  extends Q m -> extends Q cleanup -> extends Q (finally m cleanup).
Proof.
  intros Hm Hc w r w' H. unfold finally in H.
  destruct (m w) as [r1 w1] eqn:E1. destruct (cleanup w1) as [r2 w2] eqn:E2.
  destruct (Hm _ _ _ E1) as [e1 [T1 Q1]].
  destruct (Hc _ _ _ E2) as [e2 [T2 Q2]].
  exists (e1 ++ e2).
  assert (w' = w2) as -> by (destruct r2; injection H as _ <-; reflexivity).
  rewrite T2, T1, app_assoc.
  split; [reflexivity | apply (harmless_app Q HQ); assumption].
Qed.

(** A state change that leaves the trace alone. *)
Lemma extends_silent {A} (f : world -> result A * world) :
  (forall w, trace (snd (f w)) = trace w) -> extends Q f.
Proof.
  intros Hf w r w' H. exists []. rewrite app_nil_r.
  split; [|apply (harmless_nil Q HQ)].
  rewrite <- (Hf w), H. reflexivity.
Qed.

Variable X : externals.

Lemma extends_radius_loop (lines : list string) (w : world) (r : result float)
    (w' : world) :
  radius_loop X lines w = (r, w') ->
  exists evs, trace w' = trace w ++ evs /\ Q evs.
Proof.
  revert w. induction lines as [|line rest IH]; intros w H; simpl in H.
  - injection H as <- <-. exists [EvPrompt radius_prompt].
    split; [reflexivity | apply (harmless_prompt Q HQ)].
  - destruct (py_float X (PyStr.strip line)) as [radius|];
      [destruct (py_gt radius f_zero)|].
    + injection H as <- <-. exists [EvPrompt radius_prompt].
      split; [reflexivity | apply (harmless_prompt Q HQ)].
    + destruct (IH _ H) as [evs [T HQe]]. simpl in T.
      exists ([EvPrompt radius_prompt] ++ [EvPrint [Str "Radius must be positive."]] ++ evs).
      split; [rewrite T, <- !app_assoc; reflexivity|].
      repeat apply (harmless_app Q HQ); trivial;
        [apply (harmless_prompt Q HQ) | apply (harmless_print Q HQ)].
    + destruct (IH _ H) as [evs [T HQe]]. simpl in T.
      exists ([EvPrompt radius_prompt] ++ [EvPrint [Str "Invalid input. Enter a number."]] ++ evs).
      split; [rewrite T, <- !app_assoc; reflexivity|].
      repeat apply (harmless_app Q HQ); trivial;
        [apply (harmless_prompt Q HQ) | apply (harmless_print Q HQ)].
Qed.

Lemma extends_read_radius : extends Q (read_radius X).
Proof. intros w r w' H. exact (extends_radius_loop _ _ _ _ H). Qed.

Lemma extends_index_loop (prompt : message) (count : Z) (lines : list string)
    (w : world) (r : result Z) (w' : world) :
  index_loop X prompt count lines w = (r, w') ->
  exists evs, trace w' = trace w ++ evs /\ Q evs.
Proof.
  revert w. induction lines as [|line rest IH]; intros w H; simpl in H.
  - injection H as <- <-. exists [EvPrompt prompt].
    split; [reflexivity | apply (harmless_prompt Q HQ)].
  - destruct (py_int X line) as [index|];
      [destruct (andb (0 <=? index) (index <? count))|].
    + injection H as <- <-. exists [EvPrompt prompt].
      split; [reflexivity | apply (harmless_prompt Q HQ)].
    + destruct (IH _ H) as [evs [T HQe]]. simpl in T.
      exists ([EvPrompt prompt] ++ [EvPrint [Str "Index out of range, try again."]] ++ evs).
      split; [rewrite T, <- !app_assoc; reflexivity|].
      repeat apply (harmless_app Q HQ); trivial;
        [apply (harmless_prompt Q HQ) | apply (harmless_print Q HQ)].
    + destruct (IH _ H) as [evs [T HQe]]. simpl in T.
      exists ([EvPrompt prompt] ++ [EvPrint [Str "Invalid input, enter a number."]] ++ evs).
      split; [rewrite T, <- !app_assoc; reflexivity|].
      repeat apply (harmless_app Q HQ); trivial;
        [apply (harmless_prompt Q HQ) | apply (harmless_print Q HQ)].
Qed.

Lemma extends_read_index (prompt : message) (count : Z) :
  extends Q (read_index X prompt count).
Proof. intros w r w' H. exact (extends_index_loop _ _ _ _ _ _ H). Qed.

Lemma extends_list_datasets (results : results_table) (uids : list string) :
  forall i, extends Q (list_datasets results i uids).
Proof.
  induction uids as [|uid rest IH]; intros i; simpl.
  - apply extends_ret.
  - repeat (apply extends_bind; [|intros]);
      auto using extends_cell, extends_item, extends_print.
Qed.

Lemma extends_list_datasets_w_hya (results : results_table) (uids : list string) :
  forall i, extends Q (list_datasets_w_hya results i uids).
Proof.
  induction uids as [|uid rest IH]; intros i; simpl.
  - apply extends_ret.
  - repeat (apply extends_bind; [|intros]);
      auto using extends_cell, extends_item, extends_print.
Qed.

Lemma extends_list_files (t : info_table) (urls : list string) :
  forall i, extends Q (list_files t i urls).
Proof.
  induction urls as [|url rest IH]; intros i; simpl.
  - apply extends_ret.
  - repeat (apply extends_bind; [|intros]);
      auto using extends_cell, extends_print.
Qed.

Lemma extends_list_files_w_hya (urls : list string) :
  forall i, extends Q (list_files_w_hya i urls).
Proof.
  induction urls as [|url rest IH]; intros i; simpl.
  - apply extends_ret.
  - apply extends_bind; [apply extends_print | intros; apply IH].
Qed.

Lemma extends_show_files (t : info_table) (urls : list string) :
  extends Q (show_files t urls).
Proof.
  apply extends_bind; [apply extends_print | intros; apply extends_list_files].
Qed.

Lemma extends_show_files_w_hya (t : info_table) (urls : list string) :
  extends Q (show_files_w_hya t urls).
Proof.
  apply extends_bind;
    [apply extends_print | intros; apply extends_list_files_w_hya].
Qed.

Lemma extends_pick_dataset (results : results_table) :
  extends Q (pick_dataset X results).
Proof.
  apply extends_bind; [apply extends_read_index | intros; apply extends_item].
Qed.

Lemma extends_pick_file (urls : list string) : extends Q (pick_file X urls).
Proof.
  apply extends_bind; [apply extends_read_index | intros; apply extends_item].
Qed.

Lemma extends_plt (call : string) (e : event) :
  Q [e] -> extends Q (plt X call e).
Proof.
  intros He w r w' H. unfold plt in H.
  destruct (plt_returns X (trace w) e); injection H as <- <-; exists [e];
    (split; [reflexivity | exact He]).
Qed.

Lemma extends_np_percentile (data_2d : option ndarray) (q : Z) :
  extends Q (np_percentile X data_2d q).
Proof.
  destruct data_2d; [apply extends_outcome | apply extends_raise].
Qed.

Lemma extends_plt_imshow (data_2d : option ndarray) (vmin vmax : float) :
  (forall a, Q [EvImshow a vmin vmax]) ->
  extends Q (plt_imshow X data_2d vmin vmax).
Proof.
  intros He. destruct data_2d; [apply extends_plt, He | apply extends_raise].
Qed.

End Extends.

(** Breaks an [extends] goal along the structure of the program; [leaf]
    settles what is asked of each single event. *)
Ltac extends_silent_leaf HQ :=
  apply (extends_silent _ HQ); intros ?; simpl;
  repeat match goal with
         | |- context [match ?x with _ => _ end] => destruct x
         end; reflexivity.

Ltac extends_with HQ leaf known :=
  repeat first
    [ known
    | apply (extends_read_radius _ HQ)
    | apply (extends_read_index _ HQ)
    | apply (extends_pick_dataset _ HQ)
    | apply (extends_pick_file _ HQ)
    | apply (extends_list_datasets _ HQ)
    | apply (extends_list_datasets_w_hya _ HQ)
    | apply (extends_list_files _ HQ)
    | apply (extends_list_files_w_hya _ HQ)
    | apply (extends_show_files _ HQ)
    | apply (extends_show_files_w_hya _ HQ)
    | apply (extends_np_percentile _ HQ)
    | apply (extends_plt_imshow _ HQ); intros; solve [leaf]
    | apply (extends_plt _); solve [leaf]
    | apply (extends_bind _ HQ); [ | intros ]
    | apply (extends_ret _ HQ)
    | apply (extends_raise _ HQ)
    | apply (extends_print _ HQ)
    | apply (extends_outcome _ HQ)
    | apply (extends_item _ HQ)
    | apply (extends_input _ HQ)
    | apply (extends_finally _ HQ)
    | apply (extends_emit _); solve [leaf]
    | match goal with
      | |- extends _ (if ?b then _ else _) => destruct b
      | |- extends _ (match ?x with _ => _ end) => destruct x
      end
    | extends_silent_leaf HQ ].

Ltac extends_auto HQ leaf := extends_with HQ leaf fail.

Lemma free_of_harmless (bad : event -> bool) :
  (forall m, bad (EvPrompt m) = false) ->
  (forall m, bad (EvPrint m) = false) ->
  harmless (free_of bad).
Proof.
  intros Hp Hq. split.
  - constructor.
  - intros a b Ha Hb. apply Forall_app. split; assumption.
  - intros m. repeat constructor. apply Hp.
  - intros m. repeat constructor. apply Hq.
Qed.

Lemma free_of_not_in (bad : event -> bool) (evs : list event) (e : event) :
  free_of bad evs -> bad e = true -> ~ In e evs.
Proof.
  intros H He Hin. unfold free_of in H. rewrite Forall_forall in H.
  rewrite (H e Hin) in He. discriminate.
Qed.

Ltac free_leaf := repeat constructor.

Lemma harmless_before_listing : harmless (free_of lists_or_downloads).
Proof. apply free_of_harmless; reflexivity. Qed.

Lemma harmless_no_listing : harmless (free_of is_get_data_info).
Proof. apply free_of_harmless; reflexivity. Qed.

Lemma query_datasets_before_listing (X : externals) :
  extends (free_of lists_or_downloads) (query_datasets X).
Proof.
  unfold query_datasets.
  extends_auto harmless_before_listing free_leaf.
Qed.

Lemma query_datasets_w_hya_before_listing (X : externals) :
  extends (free_of lists_or_downloads) (query_datasets_w_hya X).
Proof.
  unfold query_datasets_w_hya.
  extends_auto harmless_before_listing free_leaf.
Qed.

Lemma fetch_and_plot_no_listing (X : externals) (target url : string) :
  extends (free_of is_get_data_info) (fetch_and_plot X target url).
Proof.
  unfold fetch_and_plot, download, extract, plot, tarfile_open, extractall,
    os_listdir, basename_of.
  extends_auto harmless_no_listing free_leaf.
Qed.

(** ** A listing without image or archive files *)

Lemma no_candidate_fits_urls (t : info_table) :
  no_candidate t -> fits_urls (access_url t) = [].
Proof.
  intros H. rewrite fits_urls_cases.
  assert (Hf : filter is_fits (access_url t) = []).
  { apply filter_nil_iff. intros u Hu. apply (H u Hu). }
  rewrite Hf. apply filter_nil_iff. intros u Hu. apply (H u Hu).
Qed.

Lemma free_of_weaken (evs : list event) :
  free_of lists_or_downloads evs ->
  free_of is_get_data_info evs /\ free_of is_download evs.
Proof.
  unfold free_of. rewrite !Forall_forall. intros H.
  split; intros e He; specialize (H e He); unfold lists_or_downloads in H;
    apply orb_false_iff in H; tauto.
Qed.

Lemma no_listing_not_in (evs : list event) (uid : string) :
  free_of is_get_data_info evs -> ~ In (EvGetDataInfo uid) evs.
Proof. intros H. apply (free_of_not_in _ _ (EvGetDataInfo uid) H). reflexivity. Qed.

Lemma before_listing_not_in (evs : list event) (uid : string) :
  free_of lists_or_downloads evs -> ~ In (EvGetDataInfo uid) evs.
Proof. intros H. apply (free_of_not_in _ _ (EvGetDataInfo uid) H). reflexivity. Qed.

Lemma browse_no_candidate (X : externals)
    (show : info_table -> list string -> M unit) (target : string)
    (results : results_table) (w : world) (r : result unit) (w' : world)
    (uid : string) (t : info_table) :
  (forall i u, extends (free_of is_get_data_info) (show i u)) ->
  free_of lists_or_downloads (trace w) ->
  browse X show target results w = (r, w') ->
  In (EvGetDataInfo uid) (trace w') ->
  get_data_info X uid = Some t ->
  no_candidate t ->
  r = Raise (RuntimeError no_files_msg) /\
  free_of is_download (trace w') /\
  exists before, trace w' = before ++ [EvGetDataInfo uid].
Proof.
  intros Hshow Hw Hrun Hin Hget Hnone. unfold browse in Hrun.
  apply bind_inv in Hrun. destruct Hrun as [[e [H1 _]] | [sel [w1 [H1 Hrun]]]].
  - (* the dataset was never picked *)
    destruct (extends_pick_dataset _ harmless_before_listing X _ _ _ _ H1)
      as [evs [T Hq]].
    exfalso. rewrite T in Hin.
    apply (before_listing_not_in (trace w ++ evs) uid);
      [apply Forall_app; split; assumption | exact Hin].
  - destruct (extends_pick_dataset _ harmless_before_listing X _ _ _ _ H1)
      as [evs [T1 Hq]].
    assert (Hw1 : free_of lists_or_downloads (trace w1)).
    { rewrite T1. apply Forall_app. split; assumption. }
    destruct (free_of_weaken _ Hw1) as [Hg1 Hd1].
    apply bind_inv in Hrun.
    unfold find_files in Hrun at 1. unfold find_files in Hrun.
    cbv beta delta [bind emit outcome ret raise] in Hrun.
    destruct (get_data_info X sel) as [t'|] eqn:Eget.
    + destruct (Z.of_nat (length (fits_urls (access_url t'))) =? 0) eqn:Elen.
      * (* nothing to offer: the explicit abort *)
        destruct Hrun as [[e [H2 ->]] | [a [w2 [H2 _]]]]; [|discriminate H2].
        injection H2 as <- <-. simpl in Hin |- *.
        apply in_app_or in Hin. destruct Hin as [Hin|[Hin|[]]].
        { exfalso. exact (no_listing_not_in _ _ Hg1 Hin). }
        injection Hin as ->. split; [reflexivity|]. split.
        -- apply Forall_app. split; [exact Hd1 | repeat constructor].
        -- exists (trace w1). reflexivity.
      * (* something to offer: then this is another listing *)
        destruct Hrun as [[e [H2 _]] | [a [w2 [H2 Hrest]]]]; [discriminate H2|].
        injection H2 as <- <-.
        assert (Hext : exists evs2,
                   trace w' = trace (record [EvGetDataInfo sel] w1) ++ evs2 /\
                   free_of is_get_data_info evs2).
        { revert Hrest. generalize (record [EvGetDataInfo sel] w1). intros w2.
          apply (extends_bind _ harmless_no_listing); [apply Hshow | intros].
          apply (extends_bind _ harmless_no_listing);
            [apply (extends_pick_file _ harmless_no_listing) | intros].
          apply fetch_and_plot_no_listing. }
        destruct Hext as [evs2 [T2 Hq2]]. exfalso.
        rewrite T2 in Hin. simpl in Hin.
        apply in_app_or in Hin. destruct Hin as [Hin|Hin];
          [|exact (no_listing_not_in _ _ Hq2 Hin)].
        apply in_app_or in Hin. destruct Hin as [Hin|[Hin|[]]];
          [exact (no_listing_not_in _ _ Hg1 Hin)|].
        injection Hin as ->. rewrite Hget in Eget. injection Eget as <-.
        rewrite (no_candidate_fits_urls _ Hnone) in Elen. discriminate Elen.
    + (* the listing call itself failed *)
      destruct Hrun as [[e [H2 ->]] | [a [w2 [H2 _]]]]; [|discriminate H2].
      injection H2 as <- <-. simpl in Hin. exfalso.
      apply in_app_or in Hin. destruct Hin as [Hin|[Hin|[]]].
      * exact (no_listing_not_in _ _ Hg1 Hin).
      * injection Hin as ->. rewrite Hget in Eget. discriminate Eget.
Qed.

(** C3: in a run of either script, when the file listing obtained for the
    dataset picked holds no URL ending in [.fits] or [.tar.gz], the run ends
    with the script's own [RuntimeError("No FITS or tarball files found in
    this dataset.")], the listing call is the last thing done, and no
    download was ever requested. *)
Theorem no_candidate_aborts_without_download (X : externals)
    (lines entries : list string) (main : M unit) (r : result unit)
    (w' : world) (uid : string) (t : info_table) :
  main = alma_main X \/ main = alma_w_hydrae_main X ->
  main (start lines entries) = (r, w') ->
  In (EvGetDataInfo uid) (trace w') ->
  get_data_info X uid = Some t ->
  no_candidate t ->
  r = Raise (RuntimeError no_files_msg) /\
  free_of is_download (trace w') /\
  exists before, trace w' = before ++ [EvGetDataInfo uid].
Proof.
  intros Hmain Hrun Hin Hget Hnone.
  destruct Hmain as [-> | ->]; apply bind_inv in Hrun;
    destruct Hrun as [[e [H1 _]] | [a [w1 [H1 Hrun]]]].
  - destruct (query_datasets_before_listing X _ _ _ H1) as [evs [T Hq]].
    simpl in T. rewrite T in Hin.
    exfalso. exact (before_listing_not_in _ _ Hq Hin).
  - destruct (query_datasets_before_listing X _ _ _ H1) as [evs [T Hq]].
    simpl in T. rewrite <- T in Hq.
    apply (browse_no_candidate X show_files (fst a) (snd a) w1 r w' uid t);
      try assumption.
    intros. apply (extends_show_files _ harmless_no_listing).
  - destruct (query_datasets_w_hya_before_listing X _ _ _ H1) as [evs [T Hq]].
    simpl in T. rewrite T in Hin.
    exfalso. exact (before_listing_not_in _ _ Hq Hin).
  - destruct (query_datasets_w_hya_before_listing X _ _ _ H1) as [evs [T Hq]].
    simpl in T. rewrite <- T in Hq.
    apply (browse_no_candidate X show_files_w_hya "W Hya" a w1 r w' uid t);
      try assumption.
    intros. apply (extends_show_files_w_hya _ harmless_no_listing).
Qed.

Lemma no_candidate_aborts_without_download_witness :
  fst (alma_main Demo.env (start ["W Hya"; "0.1"; "2"] ["alma.py"]))
  = Raise (RuntimeError no_files_msg).
Proof.
  set (run := alma_main Demo.env (start ["W Hya"; "0.1"; "2"] ["alma.py"])).
  assert (E : run = (fst run, snd run)) by apply surjective_pairing.
  destruct (no_candidate_aborts_without_download Demo.env _ _
              (alma_main Demo.env) (fst run) (snd run) "uid://A001/X1/Xc"
              {| access_url := ["https://h/d/readme.txt"];
                 access_format := None; access_estsize := None |}
              (or_introl eq_refl) E) as [H _].
  - vm_compute. repeat (try (left; reflexivity); right).
  - reflexivity.
  - intros url Hin. simpl in Hin. destruct Hin as [<-|[]]. split; reflexivity.
  - exact H.
Defined.

(** ** The input loops *)

Lemma set_stdin_record (lines : list string) (a : list event) (w : world) :
  set_stdin lines (record a w) = record a (set_stdin lines w).
Proof. reflexivity. Qed.

Lemma set_stdin_twice (a b : list string) (w : world) :
  set_stdin a (set_stdin b w) = set_stdin a w.
Proof. reflexivity. Qed.

Lemma radius_loop_first_valid (X : externals) (bad : list string) :
  forall (good : string) (rest : list string) (radius : float) (w : world),
    Forall (invalid_radius X) bad ->
    valid_radius X good radius ->
    radius_loop X (bad ++ good :: rest) w =
    (Ok radius,
     record (flat_map (radius_retry X) bad ++ [EvPrompt radius_prompt])
            (set_stdin rest w)).
Proof.
  induction bad as [|line bad IH]; intros good rest radius w Hbad [Hp Hr]; simpl.
  - rewrite Hp, Hr. reflexivity.
  - inversion Hbad as [|? ? Hline Hbad']; subst.
    unfold radius_retry at 1. unfold invalid_radius in Hline.
    destruct (py_float X (PyStr.strip line)) as [x|].
    + rewrite (Hline x eq_refl).
      rewrite (IH good rest radius _ Hbad' (conj Hp Hr)).
      rewrite !set_stdin_record, set_stdin_twice, !record_record. reflexivity.
    + rewrite (IH good rest radius _ Hbad' (conj Hp Hr)).
      rewrite !set_stdin_record, set_stdin_twice, !record_record. reflexivity.
Qed.

Lemma index_loop_first_valid (X : externals) (prompt : message) (count : Z)
    (bad : list string) :
  forall (good : string) (rest : list string) (index : Z) (w : world),
    Forall (invalid_index X count) bad ->
    valid_index X count good index ->
    index_loop X prompt count (bad ++ good :: rest) w =
    (Ok index,
     record (flat_map (index_retry X prompt) bad ++ [EvPrompt prompt])
            (set_stdin rest w)).
Proof.
  induction bad as [|line bad IH]; intros good rest index w Hbad [Hp Hr]; simpl.
  - rewrite Hp.
    replace (andb (0 <=? index) (index <? count)) with true by lia.
    reflexivity.
  - inversion Hbad as [|? ? Hline Hbad']; subst.
    unfold index_retry at 1. unfold invalid_index in Hline.
    destruct (py_int X line) as [x|].
    + specialize (Hline x eq_refl).
      replace (andb (0 <=? x) (x <? count)) with false by lia.
      rewrite (IH good rest index _ Hbad' (conj Hp Hr)).
      rewrite !set_stdin_record, set_stdin_twice, !record_record. reflexivity.
    + rewrite (IH good rest index _ Hbad' (conj Hp Hr)).
      rewrite !set_stdin_record, set_stdin_twice, !record_record. reflexivity.
Qed.

Lemma radius_loop_eof (X : externals) (lines : list string) :
  forall w, Forall (invalid_radius X) lines ->
            fst (radius_loop X lines w) = Raise EOFError.
Proof.
  induction lines as [|line lines IH]; intros w Hbad; simpl; [reflexivity|].
  inversion Hbad as [|? ? Hline Hbad']; subst. unfold invalid_radius in Hline.
  destruct (py_float X (PyStr.strip line)) as [x|].
  - rewrite (Hline x eq_refl). apply IH, Hbad'.
  - apply IH, Hbad'.
Qed.

Lemma index_loop_eof (X : externals) (prompt : message) (count : Z)
    (lines : list string) :
  forall w, Forall (invalid_index X count) lines ->
            fst (index_loop X prompt count lines w) = Raise EOFError.
Proof.
  induction lines as [|line lines IH]; intros w Hbad; simpl; [reflexivity|].
  inversion Hbad as [|? ? Hline Hbad']; subst. unfold invalid_index in Hline.
  destruct (py_int X line) as [x|].
  - specialize (Hline x eq_refl).
    replace (andb (0 <=? x) (x <? count)) with false by lia.
    apply IH, Hbad'.
  - apply IH, Hbad'.
Qed.

Lemma radius_loop_outcome (X : externals) (lines : list string) :
  forall w r w',
    radius_loop X lines w = (r, w') ->
    r = Raise EOFError \/
    exists radius line,
      r = Ok radius /\ In line lines /\ valid_radius X line radius.
Proof.
  induction lines as [|line lines IH]; intros w r w' H; simpl in H.
  - injection H as <- _. left. reflexivity.
  - destruct (py_float X (PyStr.strip line)) as [x|] eqn:Ep;
      [destruct (py_gt x f_zero) eqn:Eg|].
    + injection H as <- _. right. exists x, line.
      split; [reflexivity|]. split; [left; reflexivity | split; assumption].
    + destruct (IH _ _ _ H) as [->|[x' [l' [-> [Hin Hv]]]]]; [left; reflexivity|].
      right. exists x', l'. split; [reflexivity|]. split; [right|]; assumption.
    + destruct (IH _ _ _ H) as [->|[x' [l' [-> [Hin Hv]]]]]; [left; reflexivity|].
      right. exists x', l'. split; [reflexivity|]. split; [right|]; assumption.
Qed.

Lemma index_loop_outcome (X : externals) (prompt : message) (count : Z)
    (lines : list string) :
  forall w r w',
    index_loop X prompt count lines w = (r, w') ->
    r = Raise EOFError \/
    exists index line,
      r = Ok index /\ In line lines /\ valid_index X count line index.
Proof.
  induction lines as [|line lines IH]; intros w r w' H; simpl in H.
  - injection H as <- _. left. reflexivity.
  - destruct (py_int X line) as [x|] eqn:Ep;
      [destruct (andb (0 <=? x) (x <? count)) eqn:Eg|].
    + injection H as <- _. right. exists x, line.
      split; [reflexivity|]. split; [left; reflexivity|].
      split; [assumption | lia].
    + destruct (IH _ _ _ H) as [->|[x' [l' [-> [Hin Hv]]]]]; [left; reflexivity|].
      right. exists x', l'. split; [reflexivity|]. split; [right|]; assumption.
    + destruct (IH _ _ _ H) as [->|[x' [l' [-> [Hin Hv]]]]]; [left; reflexivity|].
      right. exists x', l'. split; [reflexivity|]. split; [right|]; assumption.
Qed.

(** C5, as amended: when the lines waiting on standard input hold a valid
    value, each loop answers every invalid line before it with its complaint
    and a new prompt, stops at the first valid line, yields its value,
    leaves the later lines unread and raises nothing; valid means a float
    greater than zero for the radius and an integer of [[0, count)] for the
    two indices.  When the input ends before any valid line, [input] raises
    [EOFError] and the loop lets it through; no other exception leaves a
    loop, and a value that leaves it was read from a valid line. *)
Theorem input_loops_yield_first_valid (X : externals) :
  (forall bad good rest radius w,
     Forall (invalid_radius X) bad ->
     valid_radius X good radius ->
     stdin w = bad ++ good :: rest ->
     read_radius X w =
     (Ok radius,
      record (flat_map (radius_retry X) bad ++ [EvPrompt radius_prompt])
             (set_stdin rest w))) /\
  (forall prompt count bad good rest index w,
     Forall (invalid_index X count) bad ->
     valid_index X count good index ->
     stdin w = bad ++ good :: rest ->
     read_index X prompt count w =
     (Ok index,
      record (flat_map (index_retry X prompt) bad ++ [EvPrompt prompt])
             (set_stdin rest w))) /\
  (forall w, Forall (invalid_radius X) (stdin w) ->
             fst (read_radius X w) = Raise EOFError) /\
  (forall prompt count w,
     Forall (invalid_index X count) (stdin w) ->
     fst (read_index X prompt count w) = Raise EOFError) /\
  (forall w r w',
     read_radius X w = (r, w') ->
     r = Raise EOFError \/
     exists radius line,
       r = Ok radius /\ In line (stdin w) /\ valid_radius X line radius) /\
  (forall prompt count w r w',
     read_index X prompt count w = (r, w') ->
     r = Raise EOFError \/
     exists index line,
       r = Ok index /\ In line (stdin w) /\ valid_index X count line index).
Proof.
  repeat apply conj.
  - intros bad good rest radius w Hbad Hgood Hin. unfold read_radius.
    rewrite Hin. apply radius_loop_first_valid; assumption.
  - intros prompt count bad good rest index w Hbad Hgood Hin. unfold read_index.
    rewrite Hin. apply index_loop_first_valid; assumption.
  - intros w Hbad. apply radius_loop_eof, Hbad.
  - intros prompt count w Hbad. apply index_loop_eof, Hbad.
  - intros w r w' H. exact (radius_loop_outcome X _ _ _ _ H).
  - intros prompt count w r w' H. exact (index_loop_outcome X _ _ _ _ _ _ H).
Qed.

Lemma input_loops_yield_first_valid_witness :
  fst (read_index Demo.env (ds_prompt 5) 5 (start ["abc"; "9"; " 2"; "0"] []))
  = Ok 2.
Proof.
  destruct (input_loops_yield_first_valid Demo.env) as [_ [H _]].
  rewrite (H (ds_prompt 5) 5 ["abc"; "9"] " 2" ["0"] 2).
  - reflexivity.
  - repeat constructor; intros i Hi; vm_compute in Hi;
      try discriminate Hi; injection Hi as <-; lia.
  - split; [reflexivity | lia].
  - reflexivity.
Defined.

(** C5, as first stated, fails when the input ends: with the two lines
    [abc] and [7] on standard input and three datasets to choose from, the
    index loop yields no value and [EOFError] leaves it; the same happens to
    the radius loop on [abc], [0], [-1], and to a whole run of
    [alma_w-hydrae.py] whose only input line is [9]. *)
Lemma input_loop_eof_escapes :
  fst (read_index Demo.env (ds_prompt 3) 3 (start ["abc"; "7"] []))
    = Raise EOFError /\
  fst (read_radius Demo.env (start ["abc"; "0"; "-1"] [])) = Raise EOFError /\
  fst (alma_w_hydrae_main Demo.env (start ["9"] [])) = Raise EOFError.
Proof. repeat split; vm_compute; reflexivity. Qed.

(** ** Display bounds *)

Lemma py_max_cases (a b : float) :
  (py_gt b a = true /\ py_max a b = b) \/ (py_gt b a = false /\ py_max a b = a).
Proof. unfold py_max. destruct (py_gt b a); [left | right]; split; reflexivity. Qed.

(** The clamped bound is never below [1e-10]. *)
Lemma py_max_not_below (p : float) : py_gt f_1e_10 (py_max p f_1e_10) = false.
Proof.
  destruct (py_max_cases p f_1e_10) as [[_ ->] | [H ->]]; [reflexivity | exact H].
Qed.

Lemma SFcompare_swap (m m' : positive) (e e' : Z) :
  SFcompare (S754_finite false m' e') (S754_finite false m e) =
  option_map CompOpp
    (SFcompare (S754_finite false m e) (S754_finite false m' e')).
Proof.
  cbv beta iota delta [SFcompare option_map].
  rewrite (Z.compare_antisym e e').
  destruct (e ?= e'); cbv beta iota delta [CompOpp]; try reflexivity.
  f_equal. apply (Pos.compare_antisym m m').
Qed.

(** Unless the percentile is NaN, [1e-10 <= max(p, 1e-10)]. *)
Lemma py_max_at_least (p : float) :
  p <> S754_nan -> SFleb f_1e_10 (py_max p f_1e_10) = true.
Proof.
  intros Hnan.
  destruct (py_max_cases p f_1e_10) as [[_ ->] | [H ->]]; [reflexivity|].
  unfold py_gt, SFltb in H. unfold SFleb.
  destruct p as [s|s| |s m e]; try congruence.
  - cbv in H. discriminate H.
  - destruct s; [cbv in H; discriminate H | reflexivity].
  - destruct s; [cbv in H; discriminate H|].
    unfold f_1e_10 in *. rewrite SFcompare_swap.
    destruct (SFcompare (S754_finite false m e)
                (S754_finite false 7737125245533627 (-86))) as [[ | | ]|] eqn:E.
    + reflexivity.
    + discriminate H.
    + reflexivity.
    + cbv beta iota delta [SFcompare] in E. discriminate E.
Qed.

Lemma squeeze_keeps_values (a : ndarray) : flat (squeeze a) = flat a.
Proof. reflexivity. Qed.

(** A NaN first argument comes back from [max] unchanged. *)
Lemma py_max_nan (b : float) : py_max S754_nan b = S754_nan.
Proof. unfold py_max, py_gt, SFltb. destruct b; reflexivity. Qed.

(** A plotting call records itself, whether it returns or raises. *)
Lemma plt_run (X : externals) (call : string) (e : event) (w : world)
    (r : result unit) (w' : world) :
  plt X call e w = (r, w') -> w' = record [e] w.
Proof.
  unfold plt. destruct (plt_returns X (trace w) e); intros H;
    injection H as _ <-; reflexivity.
Qed.

Lemma plt_ok (X : externals) (call : string) (e : event) (w : world) :
  plt_returns X (trace w) e = true -> plt X call e w = (Ok tt, record [e] w).
Proof. intros H. unfold plt. rewrite H. reflexivity. Qed.

Lemma harmless_no_imshow : harmless (free_of is_imshow).
Proof. apply free_of_harmless; reflexivity. Qed.

(** After [imshow], [plot] draws no second image. *)
Lemma plot_rest_draws_no_image (X : externals) (target : string)
    (fits_file : option string) :
  extends (free_of is_imshow)
    (plt X "plt.colorbar" EvColorbar ;;
     fname <- basename_of fits_file ;;
     plt X "plt.title" (EvTitle [Str target; Str " - "; Str fname]) ;;
     plt X "plt.xlabel" (EvXlabel "X Pixel") ;;
     plt X "plt.ylabel" (EvYlabel "Y Pixel") ;;
     emit EvShow).
Proof.
  unfold basename_of. extends_auto harmless_no_imshow free_leaf.
Qed.

(** The run of [plot] up to its call of [imshow]. *)
Lemma plot_reaches_imshow (X : externals) (target : string)
    (fits_file : option string) (hdul : hdulist) (data : ndarray)
    (vmin vmax : float) (w : world) :
  fits_open X fits_file = Some hdul ->
  primary_data hdul = Some data ->
  plt_returns X (trace w ++ [EvFitsOpen fits_file; EvOpened (HduHandle fits_file)])
    EvFigure = true ->
  percentile X (squeeze data) 1 = Some vmin ->
  percentile X (squeeze data) 99 = Some vmax ->
  plot X target fits_file w =
  (plt X "plt.imshow" (EvImshow (squeeze data) (py_max vmin f_1e_10) vmax) ;;
   plt X "plt.colorbar" EvColorbar ;;
   fname <- basename_of fits_file ;;
   plt X "plt.title" (EvTitle [Str target; Str " - "; Str fname]) ;;
   plt X "plt.xlabel" (EvXlabel "X Pixel") ;;
   plt X "plt.ylabel" (EvYlabel "Y Pixel") ;;
   emit EvShow)
    (record [EvFitsOpen fits_file; EvOpened (HduHandle fits_file); EvFigure] w).
Proof.
  intros Hopen Hdata Hfig H1 H99. unfold plot.
  rewrite (bind_ok (emit (EvFitsOpen fits_file)) _ w tt _ eq_refl).
  rewrite Hopen.
  rewrite (bind_ok (outcome "fits.open" (Some hdul)) _ _ hdul _ eq_refl).
  rewrite (bind_ok (emit (EvOpened (HduHandle fits_file))) _ _ tt _ eq_refl).
  rewrite record_record. cbv zeta. rewrite Hdata.
  change (np_squeeze (Some data)) with (Some (squeeze data)).
  rewrite (bind_ok (plt X "plt.figure" EvFigure) _ _ tt _
             (plt_ok X _ _ (record [EvFitsOpen fits_file;
                                    EvOpened (HduHandle fits_file)] w) Hfig)).
  rewrite record_record.
  unfold np_percentile. rewrite H1, H99.
  rewrite (bind_ok (outcome "np.percentile" (Some vmin)) _ _ vmin _ eq_refl).
  rewrite (bind_ok (outcome "np.percentile" (Some vmax)) _ _ vmax _ eq_refl).
  reflexivity.
Qed.

(** C6: when the image file opens with a pixel array, the figure is
    created and both percentiles of the squeezed array are computed, the
    one [imshow] call of [plot] receives the squeezed array, which holds the
    values of the primary data array; its upper bound is the 99th percentile
    of the squeezed array and its lower bound is [max] of the 1st percentile
    and [1e-10].  That lower bound is the percentile or [1e-10] and is never
    below [1e-10]; it is at least [1e-10] when the percentile is a number,
    and it is NaN, which is not at least [1e-10], when the percentile is
    NaN. *)
Theorem display_bounds (X : externals) (target : string)
    (fits_file : option string) (hdul : hdulist) (data : ndarray)
    (vmin vmax : float) (w : world) :
  fits_open X fits_file = Some hdul ->
  primary_data hdul = Some data ->
  plt_returns X (trace w ++ [EvFitsOpen fits_file; EvOpened (HduHandle fits_file)])
    EvFigure = true ->
  percentile X (squeeze data) 1 = Some vmin ->
  percentile X (squeeze data) 99 = Some vmax ->
  (exists r w' after,
     plot X target fits_file w = (r, w') /\
     trace w' = trace w ++
       [EvFitsOpen fits_file; EvOpened (HduHandle fits_file); EvFigure;
        EvImshow (squeeze data) (py_max vmin f_1e_10) vmax] ++ after /\
     free_of is_imshow after) /\
  flat (squeeze data) = flat data /\
  (py_max vmin f_1e_10 = vmin \/ py_max vmin f_1e_10 = f_1e_10) /\
  py_gt f_1e_10 (py_max vmin f_1e_10) = false /\
  (vmin <> S754_nan -> SFleb f_1e_10 (py_max vmin f_1e_10) = true) /\
  (vmin = S754_nan ->
   py_max vmin f_1e_10 = S754_nan /\
   SFleb f_1e_10 (py_max vmin f_1e_10) = false).
Proof.
  intros Hopen Hdata Hfig H1 H99.
  split; [|split; [|split; [|split; [|split]]]].
  - rewrite (plot_reaches_imshow X target fits_file hdul data vmin vmax w
               Hopen Hdata Hfig H1 H99).
    match goal with
    | |- exists r w' after, bind ?m ?k ?w0 = _ /\ _ =>
        destruct (bind m k w0) as [r w'] eqn:E
    end.
    exists r, w'. apply bind_inv in E.
    destruct E as [[e [E _]] | [[] [w1 [E1 E2]]]].
    + apply plt_run in E. subst w'. exists []. split; [reflexivity|].
      split; [|constructor]. simpl. rewrite <- app_assoc. reflexivity.
    + apply plt_run in E1. subst w1.
      destruct (plot_rest_draws_no_image X target fits_file _ _ _ E2)
        as [after [Htrace Hafter]].
      exists after. split; [reflexivity|]. split; [|exact Hafter].
      rewrite Htrace. simpl. rewrite <- !app_assoc. reflexivity.
  - reflexivity.
  - destruct (py_max_cases vmin f_1e_10) as [[_ ->] | [_ ->]]; tauto.
  - apply py_max_not_below.
  - apply py_max_at_least.
  - intros ->. rewrite py_max_nan. split; reflexivity.
Qed.

Lemma display_bounds_witness :
  In (EvImshow {| shape := [2%nat; 2%nat];
                  flat := [f_0_1; f_0_1; Demo.f_1; Demo.f_1] |}
               f_0_1 Demo.f_1)
     (trace (snd (plot Demo.env "W Hya" (Some "./image.fits") (start [] [])))).
Proof.
  destruct (display_bounds Demo.env "W Hya" (Some "./image.fits")
              {| primary_data := Some Demo.image |} Demo.image f_0_1 Demo.f_1
              (start [] []) eq_refl eq_refl eq_refl eq_refl eq_refl)
    as [[r [w' [after [Hrun [Htrace _]]]]] _].
  rewrite Hrun. simpl. rewrite Htrace. simpl.
  right. right. right. left. reflexivity.
Defined.

(** In the services of [Masked] the image file holds a NaN pixel: both
    percentiles are NaN, [imshow] is handed NaN as its lower bound, which is
    not at least [1e-10], and the colour bar then refuses the norm. *)
Lemma nan_pixel_gives_nan_bound :
  plot Masked.env "W Hya" (Some "./image.fits") (start [] []) =
  (Raise (LibraryError "plt.colorbar"),
   record [EvFitsOpen (Some "./image.fits");
           EvOpened (HduHandle (Some "./image.fits")); EvFigure;
           EvImshow Masked.image S754_nan S754_nan; EvColorbar] (start [] [])) /\
  py_max S754_nan f_1e_10 = S754_nan /\
  SFleb f_1e_10 S754_nan = false.
Proof. split; [vm_compute; reflexivity | split; reflexivity]. Qed.

(** ** Extraction *)

Lemma first_fits_first (before after : list string) (name : string) :
  (forall x, In x before -> is_fits x = false) ->
  is_fits name = true ->
  first_fits (before ++ name :: after) = Some (PyStr.path_join download_dir name).
Proof.
  intros Hb Hn. induction before as [|b before IH]; simpl.
  - rewrite Hn. reflexivity.
  - rewrite (Hb b (or_introl eq_refl)). apply IH.
    intros x Hx. apply Hb. right. exact Hx.
Qed.

Lemma first_fits_none (names : list string) :
  (forall x, In x names -> is_fits x = false) <-> first_fits names = None.
Proof.
  induction names as [|n names IH]; simpl.
  - split; [reflexivity | intros _ x []].
  - destruct (is_fits n) eqn:E.
    + split; [|discriminate]. intros H.
      rewrite (H n (or_introl eq_refl)) in E. discriminate E.
    + rewrite <- IH. split.
      * intros H x Hx. apply H. right. exact Hx.
      * intros H x [<-|Hx]; auto.
Qed.

Lemma extract_direct (X : externals) (downloaded_file : string) (w : world) :
  is_archive_name downloaded_file = false ->
  extract X downloaded_file w = (Ok (Some downloaded_file), w).
Proof. intros H. unfold extract. rewrite H. reflexivity. Qed.

Lemma extract_archive (X : externals) (downloaded_file : string) (w : world)
    (entries : list string) :
  is_archive_name downloaded_file = true ->
  tar_readable X downloaded_file = true ->
  tar_extractall X downloaded_file download_dir (listdir w) = Some entries ->
  extract X downloaded_file w =
  (Ok (first_fits entries),
   record [EvTarfileOpen downloaded_file; EvOpened (TarHandle downloaded_file);
           EvExtractAll download_dir; EvClosed (TarHandle downloaded_file);
           EvListDir download_dir]
          (set_listdir entries w)).
Proof.
  intros Hname Hopen Hextract.
  unfold extract, tarfile_open, extractall, os_listdir, finally, bind, emit,
    ret, raise.
  rewrite Hname, Hopen. simpl. rewrite Hextract. simpl.
  unfold record, set_listdir. simpl. rewrite <- !app_assoc. reflexivity.
Qed.

(** C7: a downloaded file whose name does not end in [.tar.gz] or [.tar]
    is the image file as it is, and nothing is extracted.  One whose name
    does is opened as a tar archive and extracted whole into the download
    directory, the archive is closed, the directory is listed, and the image
    file is the path of the first entry listed whose lowercased name ends in
    [.fits]; with no such entry there is no image file. *)
Theorem extract_selects_image (X : externals) (downloaded_file : string)
    (w : world) :
  (is_archive_name downloaded_file = true <->
   (exists stem, downloaded_file = (stem ++ ".tar.gz")%string) \/
   (exists stem, downloaded_file = (stem ++ ".tar")%string)) /\
  (is_archive_name downloaded_file = false ->
   extract X downloaded_file w = (Ok (Some downloaded_file), w)) /\
  (forall entries,
     is_archive_name downloaded_file = true ->
     tar_readable X downloaded_file = true ->
     tar_extractall X downloaded_file download_dir (listdir w) = Some entries ->
     exists fits_file,
       extract X downloaded_file w =
       (Ok fits_file,
        record [EvTarfileOpen downloaded_file;
                EvOpened (TarHandle downloaded_file);
                EvExtractAll download_dir;
                EvClosed (TarHandle downloaded_file);
                EvListDir download_dir]
               (set_listdir entries w)) /\
       (forall before name after,
          entries = before ++ name :: after ->
          (forall x, In x before -> is_fits x = false) ->
          is_fits name = true ->
          fits_file = Some (PyStr.path_join download_dir name)) /\
       ((forall x, In x entries -> is_fits x = false) -> fits_file = None)).
Proof.
  split; [|split].
  - unfold is_archive_name. rewrite orb_true_iff.
    rewrite !PyStrFacts.endswith_spec. reflexivity.
  - apply extract_direct.
  - intros entries Hname Hopen Hextract. exists (first_fits entries).
    split; [apply extract_archive; assumption|]. split.
    + intros before name after -> Hb Hn. apply first_fits_first; assumption.
    + apply first_fits_none.
Qed.

Lemma extract_selects_image_witness :
  fst (extract Demo.env "./maps.tar.gz" (start [] ["alma.py"; "maps.tar.gz"]))
  = Ok (Some "./map.FITS") /\
  fst (extract Demo.env "./image.fits" (start [] ["alma.py"; "image.fits"]))
  = Ok (Some "./image.fits").
Proof.
  destruct (extract_selects_image Demo.env "./maps.tar.gz"
              (start [] ["alma.py"; "maps.tar.gz"])) as [_ [_ H]].
  destruct (H ["alma.py"; "maps.tar.gz"; "notes.txt"; "map.FITS"]
              eq_refl eq_refl eq_refl) as [fits_file [Hrun [Hfirst _]]].
  destruct (extract_selects_image Demo.env "./image.fits"
              (start [] ["alma.py"; "image.fits"])) as [_ [Hdirect _]].
  rewrite Hrun, (Hdirect eq_refl). split; [|reflexivity]. simpl.
  rewrite (Hfirst ["alma.py"; "maps.tar.gz"; "notes.txt"] "map.FITS" []
             eq_refl); [reflexivity | | reflexivity].
  intros x Hx. simpl in Hx. destruct Hx as [<-|[<-|[<-|[]]]]; reflexivity.
Defined.

(** ** An archive without an image *)

Lemma download_run (X : externals) (url path : string) (more : list string)
    (entries : list string) (w : world) :
  download_files X [url] download_dir (listdir w) = Some (path :: more, entries) ->
  download X url w =
  (Ok path, record [EvDownload [url] download_dir] (set_listdir entries w)).
Proof.
  intros H. unfold download, bind, emit. simpl. rewrite H. reflexivity.
Qed.

(** C4 on the code: when the archive downloaded extracts without error and
    the directory then holds no [.fits] entry, the script raises nothing of
    its own.  It prints [Downloaded FITS file: None] and calls
    [fits.open(None)]; the run ends with the exception raised inside that
    call. *)
Theorem archive_without_image_reaches_fits_open (X : externals)
    (target url downloaded_file : string) (more downloaded entries : list string)
    (w : world) :
  download_files X [url] download_dir (listdir w)
    = Some (downloaded_file :: more, downloaded) ->
  is_archive_name downloaded_file = true ->
  tar_readable X downloaded_file = true ->
  tar_extractall X downloaded_file download_dir downloaded = Some entries ->
  (forall name, In name entries -> is_fits name = false) ->
  fits_open X None = None ->
  fetch_and_plot X target url w =
  (Raise (LibraryError "fits.open"),
   record [EvDownload [url] download_dir;
           EvTarfileOpen downloaded_file; EvOpened (TarHandle downloaded_file);
           EvExtractAll download_dir; EvClosed (TarHandle downloaded_file);
           EvListDir download_dir;
           EvPrint [Str (nl ++ "Downloaded FITS file: ")%string; OptStr None];
           EvFitsOpen None]
          (set_listdir entries w)).
Proof.
  intros Hdl Hname Hopen Hextract Hnone Hfits.
  unfold fetch_and_plot, bind at 1.
  rewrite (download_run X url downloaded_file more downloaded w Hdl).
  unfold bind at 1.
  rewrite (extract_archive X downloaded_file
             (record [EvDownload [url] download_dir] (set_listdir downloaded w))
             entries Hname Hopen Hextract).
  apply first_fits_none in Hnone. rewrite Hnone.
  unfold plot, print, bind, emit, outcome, raise. rewrite Hfits. simpl.
  unfold record, set_listdir. simpl. rewrite <- !app_assoc. reflexivity.
Qed.

Lemma archive_without_image_reaches_fits_open_witness :
  fst (fetch_and_plot Demo.env "W Hya" "https://h/d/bundle.tar.gz"
         (start [] ["alma.py"]))
  = Raise (LibraryError "fits.open").
Proof.
  rewrite (archive_without_image_reaches_fits_open Demo.env "W Hya"
             "https://h/d/bundle.tar.gz" "./bundle.tar.gz" []
             ["alma.py"; "bundle.tar.gz"]
             ["alma.py"; "bundle.tar.gz"; "README"]
             (start [] ["alma.py"]) eq_refl eq_refl eq_refl eq_refl).
  - reflexivity.
  - intros x Hx. simpl in Hx. destruct Hx as [<-|[<-|[<-|[]]]]; reflexivity.
  - reflexivity.
Defined.

(** ** Upper-case archive names *)

Lemma harmless_any : harmless (fun _ => True).
Proof. split; intros; exact I. Qed.

Lemma plot_starts_with_open (X : externals) (target : string)
    (fits_file : option string) (w : world) :
  exists r w' after,
    plot X target fits_file w = (r, w') /\
    trace w' = trace w ++ EvFitsOpen fits_file :: after.
Proof.
  unfold plot.
  rewrite (bind_ok (emit (EvFitsOpen fits_file)) _ w tt _ eq_refl).
  match goal with
  | |- exists r w' after, bind ?m ?k ?w0 = _ /\ _ =>
      assert (Hrest : extends (fun _ => True) (bind m k));
      [|destruct (bind m k w0) as [r w'] eqn:E]
  end.
  - unfold basename_of. extends_auto harmless_any ltac:(exact I).
  - destruct (Hrest _ _ _ E) as [after [Htrace _]].
    exists r, w', after. split; [reflexivity|].
    rewrite Htrace. simpl. rewrite <- app_assoc. reflexivity.
Qed.

Lemma lower_ascii_twice (c : ascii) :
  PyStr.lower_ascii (PyStr.lower_ascii c) = PyStr.lower_ascii c.
Proof. destruct c as [[] [] [] [] [] [] [] []]; vm_compute; reflexivity. Qed.

(** C10: the filter lowercases a URL before testing its extension, the
    extraction step tests the downloaded name as it is.  For the file
    [./OLD.TAR.GZ], the URL filter accepts it as an archive, yet it does not
    count as an archive name; so no tar archive is opened, the file itself
    becomes the image file, and it is what [fits.open] is called with. *)
Theorem uppercase_archive_is_opened_as_image :
  (forall url, is_targz url = is_targz (PyStr.lower url)) /\
  fits_urls ["https://h/d/OLD.TAR.GZ"] = ["https://h/d/OLD.TAR.GZ"] /\
  is_targz "./OLD.TAR.GZ" = true /\
  is_archive_name "./OLD.TAR.GZ" = false /\
  is_archive_name (PyStr.lower "./OLD.TAR.GZ") = true /\
  (forall X w, extract X "./OLD.TAR.GZ" w = (Ok (Some "./OLD.TAR.GZ"), w)) /\
  (forall X target url more entries w,
     download_files X [url] download_dir (listdir w)
       = Some ("./OLD.TAR.GZ" :: more, entries) ->
     exists r w' after,
       fetch_and_plot X target url w = (r, w') /\
       trace w' = trace w ++
         [EvDownload [url] download_dir;
          EvPrint [Str (nl ++ "Downloaded FITS file: ")%string;
                   OptStr (Some "./OLD.TAR.GZ")];
          EvFitsOpen (Some "./OLD.TAR.GZ")] ++ after).
Proof.
  repeat apply conj; try reflexivity.
  - intros url. unfold is_targz. f_equal.
    induction url as [|c url IH]; simpl; [reflexivity|]. f_equal; [|exact IH].
    symmetry. apply lower_ascii_twice.
  - intros X target url more entries w Hdl.
    unfold fetch_and_plot, bind at 1. rewrite (download_run X _ _ _ _ _ Hdl).
    unfold bind at 1. rewrite extract_direct by reflexivity.
    unfold bind at 1, print, emit.
    destruct (plot_starts_with_open X target (Some "./OLD.TAR.GZ")
                (record [EvPrint [Str (nl ++ "Downloaded FITS file: ")%string;
                                  OptStr (Some "./OLD.TAR.GZ")]]
                   (record [EvDownload [url] download_dir]
                      (set_listdir entries w))))
      as [r [w' [after [Hrun Htrace]]]].
    exists r, w', after. split; [exact Hrun|].
    rewrite Htrace. simpl. rewrite <- !app_assoc. reflexivity.
Qed.

Lemma uppercase_archive_is_opened_as_image_witness :
  In (EvFitsOpen (Some "./OLD.TAR.GZ"))
     (trace (snd (fetch_and_plot Demo.env "W Hya" "https://h/d/OLD.TAR.GZ"
                    (start [] ["alma.py"])))).
Proof.
  destruct uppercase_archive_is_opened_as_image
    as [_ [_ [_ [_ [_ [_ H]]]]]].
  destruct (H Demo.env "W Hya" "https://h/d/OLD.TAR.GZ" []
              ["alma.py"; "OLD.TAR.GZ"] (start [] ["alma.py"]) eq_refl)
    as [r [w' [after [Hrun Htrace]]]].
  rewrite Hrun. simpl. rewrite Htrace. simpl.
  right. right. left. reflexivity.
Defined.

(** ** The file listing shown by [alma.py] *)

Lemma fits_urls_length (listing : list string) :
  (length (fits_urls listing) <= length listing)%nat.
Proof.
  rewrite fits_urls_cases.
  destruct (filter is_fits listing) eqn:E;
    [|rewrite <- E]; apply filter_length_le.
Qed.

Lemma item_in_range {A} (l : list A) (i : nat) (d : A) (w : world) :
  (i < length l)%nat -> item l i w = (Ok (nth i l d), w).
Proof.
  intros H. unfold item. rewrite (nth_error_nth' l d H). reflexivity.
Qed.

Lemma list_files_run (t : info_table) (fmts sizes : list string)
    (urls : list string) :
  access_format t = Some fmts ->
  access_estsize t = Some sizes ->
  forall (i : nat) (w : world),
    (i + length urls <= length fmts)%nat ->
    (i + length urls <= length sizes)%nat ->
    list_files t i urls w = (Ok tt, record (listing_lines i urls fmts sizes) w).
Proof.
  intros Hf Hs. induction urls as [|url rest IH]; intros i w Hlf Hls; simpl.
  - unfold ret, record. rewrite app_nil_r. destruct w; reflexivity.
  - simpl in Hlf, Hls. rewrite Hf, Hs. unfold cell, bind at 1.
    rewrite (item_in_range fmts i "" w) by lia. unfold bind at 1.
    rewrite (item_in_range sizes i "" w) by lia.
    unfold bind at 1, print, emit. rewrite IH by lia.
    rewrite record_record. reflexivity.
Qed.

Lemma listing_lines_nth (urls fmts sizes : list string) :
  forall (i k : nat) (url : string),
    nth_error urls k = Some url ->
    nth_error (listing_lines i urls fmts sizes) k =
    Some (EvPrint (file_line (i + k) url (nth (i + k) fmts "")
                             (nth (i + k) sizes ""))).
Proof.
  induction urls as [|u rest IH]; intros i k url H.
  - destruct k; discriminate H.
  - destruct k as [|k]; simpl in *.
    + injection H as <-. rewrite Nat.add_0_r. reflexivity.
    + rewrite (IH (S i) k url H). rewrite Nat.add_succ_r. reflexivity.
Qed.

(** C9: in [alma.py], for a listing with both columns, the line shown for
    the candidate numbered [k] names that candidate and carries the format
    and size cells of row [k] of the whole listing.  In the listing
    [cube.tar.gz] (tar, 2048), [image.fits] (FITS, 512) the only candidate
    is [image.fits], which is row 1, and the line shown for it reads
    [0: File=image.fits, Format=application/x-tar, Size=2048 bytes]: the
    format and size of [cube.tar.gz]. *)
Theorem listing_shows_cells_of_unfiltered_rows :
  (forall t fmts sizes w,
     info_table_ok t ->
     access_format t = Some fmts ->
     access_estsize t = Some sizes ->
     list_files t 0 (fits_urls (access_url t)) w =
     (Ok tt,
      record (listing_lines 0 (fits_urls (access_url t)) fmts sizes) w) /\
     forall k url,
       nth_error (fits_urls (access_url t)) k = Some url ->
       nth_error (listing_lines 0 (fits_urls (access_url t)) fmts sizes) k =
       Some (EvPrint (file_line k url (nth k fmts "") (nth k sizes "")))) /\
  (let t := {| access_url := ["https://h/d/cube.tar.gz"; "https://h/d/image.fits"];
               access_format := Some ["application/x-tar"; "image/fits"];
               access_estsize := Some ["2048"; "512"] |} in
   info_table_ok t /\
   fits_urls (access_url t) = ["https://h/d/image.fits"] /\
   nth_error (access_url t) 0 = Some "https://h/d/cube.tar.gz" /\
   nth_error (access_url t) 1 = Some "https://h/d/image.fits" /\
   forall w,
     list_files t 0 (fits_urls (access_url t)) w =
     (Ok tt,
      record [EvPrint [Int 0; Str ": File="; Str "image.fits"; Str ", Format=";
                       Str "application/x-tar"; Str ", Size="; Str "2048";
                       Str " bytes"]] w)).
Proof.
  split.
  - intros t fmts sizes w [Hf Hs] Ef Es. rewrite Ef in Hf. rewrite Es in Hs.
    simpl in Hf, Hs. pose proof (fits_urls_length (access_url t)) as Hlen.
    split.
    + apply list_files_run; simpl; try assumption; lia.
    + intros k url H. apply (listing_lines_nth _ _ _ 0 k url H).
  - cbv zeta. repeat apply conj; reflexivity.
Qed.

Lemma listing_shows_cells_of_unfiltered_rows_witness :
  trace (snd (list_files
                {| access_url := ["https://h/d/cube.tar.gz"; "https://h/d/image.fits"];
                   access_format := Some ["application/x-tar"; "image/fits"];
                   access_estsize := Some ["2048"; "512"] |}
                0 ["https://h/d/image.fits"] (start [] [])))
  = [EvPrint (file_line 0 "https://h/d/image.fits" "application/x-tar" "2048")].
Proof.
  destruct listing_shows_cells_of_unfiltered_rows as [H _].
  destruct (H {| access_url := ["https://h/d/cube.tar.gz"; "https://h/d/image.fits"];
                 access_format := Some ["application/x-tar"; "image/fits"];
                 access_estsize := Some ["2048"; "512"] |}
              ["application/x-tar"; "image/fits"] ["2048"; "512"] (start [] []))
    as [Hrun _].
  - split; reflexivity.
  - reflexivity.
  - reflexivity.
  - change (fits_urls
              (access_url
                 {| access_url := ["https://h/d/cube.tar.gz"; "https://h/d/image.fits"];
                    access_format := Some ["application/x-tar"; "image/fits"];
                    access_estsize := Some ["2048"; "512"] |}))
      with ["https://h/d/image.fits"] in Hrun.
    rewrite Hrun. reflexivity.
Defined.

(** ** File handles *)

Lemma open_handles_app (a b : list event) :
  forall hs, open_handles hs (a ++ b) = open_handles (open_handles hs a) b.
Proof.
  induction a as [|e a IH]; intros hs; [reflexivity|].
  destruct e; simpl; apply IH.
Qed.

Lemma opened_hdus_app (a b : list event) :
  opened_hdus (a ++ b) = opened_hdus b ++ opened_hdus a.
Proof.
  induction a as [|e a IH]; simpl.
  - rewrite app_nil_r. reflexivity.
  - destruct e; try exact IH. destruct h; [exact IH|].
    rewrite IH, app_assoc. reflexivity.
Qed.

Lemma handle_eqb_refl (h : handle) : handle_eqb h h = true.
Proof. destruct h as [p|[p|]]; simpl; try apply String.eqb_refl; reflexivity. Qed.

Lemma harmless_keeps_images_open : harmless keeps_images_open.
Proof.
  split.
  - intros hs. reflexivity.
  - intros a b Ha Hb hs.
    rewrite open_handles_app, Ha, Hb, opened_hdus_app, app_assoc. reflexivity.
  - intros m hs. reflexivity.
  - intros m hs. reflexivity.
Qed.

Lemma harmless_never_closes_hdu : harmless (free_of closes_hdu).
Proof. apply free_of_harmless; reflexivity. Qed.

(** The four ways the extraction step can go: the file is no archive, the
    archive cannot be opened, extraction fails, extraction succeeds. *)
Lemma extract_events (X : externals) (downloaded_file : string)
    (w : world) (r : result (option string)) (w' : world) :
  extract X downloaded_file w = (r, w') ->
  exists evs,
    trace w' = trace w ++ evs /\
    (evs = [] \/ evs = [EvTarfileOpen downloaded_file] \/
     evs = [EvTarfileOpen downloaded_file;
            EvOpened (TarHandle downloaded_file);
            EvExtractAll download_dir;
            EvClosed (TarHandle downloaded_file)] \/
     evs = [EvTarfileOpen downloaded_file;
            EvOpened (TarHandle downloaded_file);
            EvExtractAll download_dir;
            EvClosed (TarHandle downloaded_file);
            EvListDir download_dir]).
Proof.
  unfold extract, tarfile_open, extractall, os_listdir, finally, bind, emit,
    ret, raise.
  destruct (is_archive_name downloaded_file);
    [|intros H; injection H as <- <-; exists []; rewrite app_nil_r; auto].
  destruct (tar_readable X downloaded_file); simpl;
    [|intros H; injection H as <- <-; eexists; split; [reflexivity | auto]].
  destruct (tar_extractall X downloaded_file download_dir (listdir w));
    intros H; injection H as <- <-; simpl; rewrite <- !app_assoc; simpl;
    eexists; (split; [reflexivity | auto]).
Qed.

(** Whatever happens in the extraction step, it ends with the handles it
    started with: the archive it opened is closed again. *)
Lemma extract_closes_archive (X : externals) (downloaded_file : string)
    (w : world) (r : result (option string)) (w' : world) :
  extract X downloaded_file w = (r, w') ->
  exists evs,
    trace w' = trace w ++ evs /\
    opened_hdus evs = [] /\
    free_of closes_hdu evs /\
    forall hs, open_handles hs evs = hs.
Proof.
  intros H. destruct (extract_events X downloaded_file w r w' H) as [evs [T E]].
  exists evs. split; [exact T|].
  destruct E as [ -> | [ -> | [ -> | -> ] ] ]; repeat apply conj;
    try reflexivity; try (repeat constructor);
    intros hs; simpl; rewrite String.eqb_refl; reflexivity.
Qed.

Lemma extract_keeps_images_open (X : externals) (downloaded_file : string) :
  extends keeps_images_open (extract X downloaded_file).
Proof.
  intros w r w' H.
  destruct (extract_closes_archive X downloaded_file w r w' H)
    as [evs [T [Hnone [_ Hsame]]]].
  exists evs. split; [exact T|]. intros hs. rewrite Hsame, Hnone. reflexivity.
Qed.

Lemma extract_never_closes_hdu (X : externals) (downloaded_file : string) :
  extends (free_of closes_hdu) (extract X downloaded_file).
Proof.
  intros w r w' H.
  destruct (extract_closes_archive X downloaded_file w r w' H)
    as [evs [T [_ [Hfree _]]]].
  exists evs. split; assumption.
Qed.

Ltac handles_leaf := intros ?; reflexivity.

Lemma fetch_and_plot_keeps_images_open (X : externals) (target url : string) :
  extends keeps_images_open (fetch_and_plot X target url).
Proof.
  unfold fetch_and_plot.
  unfold fetch_and_plot, plot, basename_of.
  extends_with harmless_keeps_images_open handles_leaf
    ltac:(apply extract_keeps_images_open).
Qed.

Lemma main_keeps_images_open (X : externals) :
  extends keeps_images_open (alma_main X) /\
  extends keeps_images_open (alma_w_hydrae_main X).
Proof.
  split; unfold alma_main, alma_w_hydrae_main, query_datasets,
    query_datasets_w_hya, browse, find_files;
    extends_with harmless_keeps_images_open handles_leaf
      ltac:(apply fetch_and_plot_keeps_images_open).
Qed.

Lemma main_never_closes_hdu (X : externals) :
  extends (free_of closes_hdu) (alma_main X) /\
  extends (free_of closes_hdu) (alma_w_hydrae_main X).
Proof.
  split; unfold alma_main, alma_w_hydrae_main, query_datasets,
    query_datasets_w_hya, browse, find_files, fetch_and_plot, plot,
    basename_of;
    extends_with harmless_never_closes_hdu free_leaf
      ltac:(apply extract_never_closes_hdu).
Qed.

Lemma opened_hdus_in (evs : list event) (p : option string) :
  In (EvOpened (HduHandle p)) evs -> In (HduHandle p) (opened_hdus evs).
Proof.
  induction evs as [|e evs IH]; intros H; [destruct H|].
  destruct H as [->|H].
  - simpl. apply in_or_app. right. left. reflexivity.
  - specialize (IH H). destruct e; simpl; try exact IH.
    destruct h; [exact IH|]. apply in_or_app. left. exact IH.
Qed.

Lemma opened_hdus_not_tar (evs : list event) :
  Forall (fun h => is_tar_handle h = false) (opened_hdus evs).
Proof.
  induction evs as [|e evs IH]; simpl; [constructor|].
  destruct e; try exact IH. destruct h; [exact IH|].
  apply Forall_app. split; [exact IH | repeat constructor].
Qed.

(** C8, as amended: in every run of either script the tar archive opened by
    the extraction step is closed again by the end of that step, whether or
    not extraction raised, so no archive handle is open when the run ends.
    The image handle is never closed: no close of it occurs in any run, and
    every image handle opened is still open when the run ends. *)
Theorem archive_closed_image_left_open (X : externals)
    (lines entries : list string) (main : M unit) (r : result unit)
    (w' : world) :
  main = alma_main X \/ main = alma_w_hydrae_main X ->
  main (start lines entries) = (r, w') ->
  (forall downloaded_file w1 r1 w2,
     extract X downloaded_file w1 = (r1, w2) ->
     exists evs, trace w2 = trace w1 ++ evs /\
                 forall hs, open_handles hs evs = hs) /\
  Forall (fun h => is_tar_handle h = false) (open_handles [] (trace w')) /\
  free_of closes_hdu (trace w') /\
  (forall p, In (EvOpened (HduHandle p)) (trace w') ->
             In (HduHandle p) (open_handles [] (trace w'))).
Proof.
  intros Hmain Hrun.
  assert (Hk : keeps_images_open (trace w') /\ free_of closes_hdu (trace w')).
  { destruct (main_keeps_images_open X) as [K1 K2].
    destruct (main_never_closes_hdu X) as [N1 N2].
    destruct Hmain as [-> | ->].
    - destruct (K1 _ _ _ Hrun) as [e1 [T1 Q1]].
      destruct (N1 _ _ _ Hrun) as [e2 [T2 Q2]].
      simpl in T1, T2. rewrite T1 at 1. rewrite T2. tauto.
    - destruct (K2 _ _ _ Hrun) as [e1 [T1 Q1]].
      destruct (N2 _ _ _ Hrun) as [e2 [T2 Q2]].
      simpl in T1, T2. rewrite T1 at 1. rewrite T2. tauto. }
  destruct Hk as [Hk Hn]. specialize (Hk []). rewrite app_nil_r in Hk.
  repeat apply conj.
  - intros f w1 r1 w2 H.
    destruct (extract_closes_archive X f w1 r1 w2 H) as [evs [T [_ [_ Hs]]]].
    exists evs. tauto.
  - rewrite Hk. apply opened_hdus_not_tar.
  - exact Hn.
  - intros p Hp. rewrite Hk. apply opened_hdus_in, Hp.
Qed.

Lemma archive_closed_image_left_open_witness :
  Forall (fun h => is_tar_handle h = false)
    (open_handles []
       (trace (snd (alma_w_hydrae_main Demo.env (start ["3"; "0"] ["alma.py"]))))).
Proof.
  set (run := alma_w_hydrae_main Demo.env (start ["3"; "0"] ["alma.py"])).
  assert (E : run = (fst run, snd run)) by apply surjective_pairing.
  destruct (archive_closed_image_left_open Demo.env ["3"; "0"] ["alma.py"]
              (alma_w_hydrae_main Demo.env) (fst run) (snd run)
              (or_intror eq_refl) E) as [_ [H _]].
  exact H.
Defined.

(** C8, as first stated, fails for the image handle: the run of [alma.py]
    on the inputs [W Hya], [0.1], [0], [0] reads the pixel data, shows the
    plot and ends normally, and at its end the handle returned by
    [fits.open("./image.fits")] is still open; no event of the run closes
    it. *)
Lemma image_handle_left_open :
  fst (alma_main Demo.env (start ["W Hya"; "0.1"; "0"; "0"] ["alma.py"]))
    = Ok tt /\
  open_handles []
    (trace (snd (alma_main Demo.env
                   (start ["W Hya"; "0.1"; "0"; "0"] ["alma.py"]))))
    = [HduHandle (Some "./image.fits")] /\
  ~ In (EvClosed (HduHandle (Some "./image.fits")))
       (trace (snd (alma_main Demo.env
                      (start ["W Hya"; "0.1"; "0"; "0"] ["alma.py"])))).
Proof.
  repeat apply conj.
  - vm_compute. reflexivity.
  - vm_compute. reflexivity.
  - intros H. vm_compute in H.
    repeat (destruct H as [H|H]; [discriminate H|]). exact H.
Qed.

(** * Further properties of the scripts *)

(** ** The candidate list *)

Lemma filter_filter_same {A} (f : A -> bool) (l : list A) :
  filter f (filter f l) = filter f l.
Proof.
  induction l as [|a l IH]; simpl; [reflexivity|].
  destruct (f a) eqn:E; simpl; [rewrite E, IH|]; auto.
Qed.

Lemma filter_all_true {A} (f : A -> bool) (l : list A) :
  Forall (fun x => f x = true) (filter f l).
Proof.
  apply Forall_forall. intros x Hx. apply filter_In in Hx. tauto.
Qed.

Lemma fits_urls_nil_iff (listing : list string) :
  fits_urls listing = [] <->
  forall url, In url listing -> is_fits url = false /\ is_targz url = false.
Proof.
  rewrite fits_urls_cases. split.
  - intros H url Hin. destruct (filter is_fits listing) eqn:E; [|discriminate H].
    split; [exact (proj1 (filter_nil_iff _ _) E url Hin)
           |exact (proj1 (filter_nil_iff _ _) H url Hin)].
  - intros H.
    assert (E : filter is_fits listing = []).
    { apply filter_nil_iff. intros u Hu. apply (H u Hu). }
    rewrite E. apply filter_nil_iff. intros u Hu. apply (H u Hu).
Qed.

(** X1: the candidate list is the listing filtered by one of the two
    extension tests, so its URLs come from the listing in the listing's
    order; the candidates are never mixed, all of them end in [.fits] or all
    of them end in [.tar.gz]; the list is empty exactly when no URL of the
    listing has either extension; and filtering a candidate list again
    changes nothing. *)
Theorem fits_urls_shape (listing : list string) :
  (fits_urls listing = filter is_fits listing \/
   fits_urls listing = filter is_targz listing) /\
  (forall url, In url (fits_urls listing) -> In url listing) /\
  (Forall (fun url => is_fits url = true) (fits_urls listing) \/
   Forall (fun url => is_targz url = true) (fits_urls listing)) /\
  (fits_urls listing = [] <->
   forall url, In url listing -> is_fits url = false /\ is_targz url = false) /\
  fits_urls (fits_urls listing) = fits_urls listing.
Proof.
  split; [|split; [|split; [|split]]].
  - rewrite fits_urls_cases. destruct (filter is_fits listing); auto.
  - intros url. rewrite fits_urls_cases.
    destruct (filter is_fits listing) eqn:E; [|rewrite <- E];
      intros H; apply filter_In in H; tauto.
  - rewrite fits_urls_cases. destruct (filter is_fits listing) eqn:E.
    + right. apply filter_all_true.
    + left. rewrite <- E. apply filter_all_true.
  - apply fits_urls_nil_iff.
  - rewrite (fits_urls_cases listing).
    destruct (filter is_fits listing) as [|u us] eqn:E.
    + rewrite fits_urls_cases.
      assert (E' : filter is_fits (filter is_targz listing) = []).
      { apply filter_nil_iff. intros x Hx. apply filter_In in Hx.
        exact (proj1 (filter_nil_iff _ _) E x (proj1 Hx)). }
      rewrite E'. apply filter_filter_same.
    + rewrite <- E, fits_urls_cases, filter_filter_same, E. reflexivity.
Qed.

(** X2: a URL that ends in plain [.tar], in any letter case, is never a
    candidate: it fails both extension tests of the filter, although the
    extraction step would take a name with that ending for an archive.  A
    listing that offers only such URLs has no candidates. *)
Theorem plain_tar_is_no_candidate (listing : list string) :
  (forall url, In url listing ->
     PyStr.endswith (PyStr.lower url) ".tar" = true) ->
  (forall url, In url listing ->
     is_fits url = false /\ is_targz url = false /\
     is_archive_name (PyStr.lower url) = true) /\
  fits_urls listing = [].
Proof.
  intros Htar.
  assert (H : forall url, In url listing ->
                is_fits url = false /\ is_targz url = false /\
                is_archive_name (PyStr.lower url) = true).
  { intros url Hin. specialize (Htar url Hin).
    unfold is_archive_name. rewrite Htar, orb_true_r.
    unfold is_fits, is_targz. unfold PyStr.endswith in *.
    change (PyStr.rev ".tar") with (String "r" "at.") in Htar.
    change (PyStr.rev ".fits") with (String "s" "tif.").
    change (PyStr.rev ".tar.gz") with (String "z" "g.rat.").
    destruct (PyStr.rev (PyStr.lower url)) as [|c r]; [discriminate Htar|].
    change (Ascii.eqb "r" c && PyStr.startswith r "at." = true) in Htar.
    change ((Ascii.eqb "s" c && PyStr.startswith r "tif." = false) /\
            (Ascii.eqb "z" c && PyStr.startswith r "g.rat." = false) /\
            true = true).
    destruct (Ascii.eqb_spec "r" c) as [<-|]; [|discriminate Htar].
    repeat split. }
  split; [exact H|]. apply fits_urls_nil_iff.
  intros url Hin. destruct (H url Hin) as [Hf [Ht _]]. split; assumption.
Qed.

Lemma plain_tar_is_no_candidate_witness :
  fits_urls ["https://h/d/one.tar"; "https://h/d/TWO.TAR"] = [].
Proof.
  apply (plain_tar_is_no_candidate ["https://h/d/one.tar"; "https://h/d/TWO.TAR"]).
  intros url Hin. simpl in Hin. destruct Hin as [<-|[<-|[]]]; reflexivity.
Defined.

(** ** Looking up the files of a dataset *)

(** X3: the listing step calls the listing service once and does nothing
    else to the outside world.  If the call raises, so does the step; if
    the listing has no [.fits] and no [.tar.gz] URL the step raises the
    script's [RuntimeError]; otherwise it yields the listing together with
    its candidate list, which is not empty. *)
Theorem find_files_outcome (X : externals) (selected_uid : string) (w : world)
    (r : result (info_table * list string)) (w' : world) :
  find_files X selected_uid w = (r, w') ->
  w' = record [EvGetDataInfo selected_uid] w /\
  match get_data_info X selected_uid with
  | None => r = Raise (LibraryError "alma.get_data_info")
  | Some t =>
      (no_candidate t /\ r = Raise (RuntimeError no_files_msg)) \/
      (~ no_candidate t /\ fits_urls (access_url t) <> [] /\
       r = Ok (t, fits_urls (access_url t)))
  end.
Proof.
  unfold find_files, bind, emit, outcome, ret, raise.
  destruct (get_data_info X selected_uid) as [t|].
  - rewrite length_zero_eqb.
    destruct (fits_urls (access_url t)) as [|u us] eqn:E;
      intros H; injection H as <- <-; (split; [reflexivity|]).
    + left. split; [|reflexivity]. exact (proj1 (fits_urls_nil_iff _) E).
    + right. split; [|split; [discriminate | reflexivity]].
      intros Hn. pose proof (proj2 (fits_urls_nil_iff _) Hn) as Hnil.
      congruence.
  - intros H. injection H as <- <-. split; reflexivity.
Qed.

Lemma find_files_outcome_witness :
  fst (find_files Demo.env "uid://A001/X1/Xa" (start [] []))
  = Ok ({| access_url := ["https://h/d/cube.tar.gz"; "https://h/d/image.fits"];
           access_format := Some ["application/x-tar"; "image/fits"];
           access_estsize := Some ["2048"; "512"] |},
        ["https://h/d/image.fits"]).
Proof.
  set (run := find_files Demo.env "uid://A001/X1/Xa" (start [] [])).
  assert (E : run = (fst run, snd run)) by apply surjective_pairing.
  destruct (find_files_outcome Demo.env "uid://A001/X1/Xa" (start [] [])
              (fst run) (snd run) E) as [_ H].
  simpl in H. destruct H as [[_ H] | [_ [_ H]]]; [discriminate H | exact H].
Defined.

(** ** Picking by index *)

Lemma nth_error_in_range {A} (l : list A) (index : Z) :
  0 <= index < Z.of_nat (length l) ->
  exists a, nth_error l (Z.to_nat index) = Some a.
Proof.
  intros H. destruct (nth_error l (Z.to_nat index)) as [a|] eqn:E.
  - exists a. reflexivity.
  - apply nth_error_None in E. lia.
Qed.

(** X4: picking a dataset and picking a file never index out of range.
    Either the input ran out ([EOFError]), or the step yields the entry of
    the column, respectively of the candidate list, at an index that was
    read from a line of the input and lies within bounds. *)
Theorem picks_stay_in_bounds (X : externals) :
  (forall results w r w',
     pick_dataset X results w = (r, w') ->
     r = Raise EOFError \/
     exists index line selected_uid,
       r = Ok selected_uid /\ In line (stdin w) /\
       valid_index X (len_results results) line index /\
       nth_error (member_ous_uid results) (Z.to_nat index) = Some selected_uid) /\
  (forall fits_urls w r w',
     pick_file X fits_urls w = (r, w') ->
     r = Raise EOFError \/
     exists index line first_file_url,
       r = Ok first_file_url /\ In line (stdin w) /\
       valid_index X (Z.of_nat (length fits_urls)) line index /\
       nth_error fits_urls (Z.to_nat index) = Some first_file_url).
Proof.
  split.
  - intros results w r w' H. unfold pick_dataset in H. apply bind_inv in H.
    destruct H as [[e [H ->]] | [index [w1 [H1 H2]]]].
    + destruct (index_loop_outcome X _ _ _ _ _ _ H)
        as [E | [i [l [E _]]]];
        [left; injection E as ->; reflexivity | discriminate E].
    + destruct (index_loop_outcome X _ _ _ _ _ _ H1)
        as [E | [i [l [E [Hin Hv]]]]]; [discriminate E|].
      injection E as ->. right.
      destruct (nth_error_in_range (member_ous_uid results) i (proj2 Hv))
        as [uid Huid].
      unfold item in H2. rewrite Huid in H2. injection H2 as <- _.
      exists i, l, uid. auto.
  - intros urls w r w' H. unfold pick_file in H. apply bind_inv in H.
    destruct H as [[e [H ->]] | [index [w1 [H1 H2]]]].
    + destruct (index_loop_outcome X _ _ _ _ _ _ H)
        as [E | [i [l [E _]]]];
        [left; injection E as ->; reflexivity | discriminate E].
    + destruct (index_loop_outcome X _ _ _ _ _ _ H1)
        as [E | [i [l [E [Hin Hv]]]]]; [discriminate E|].
      injection E as ->. right.
      destruct (nth_error_in_range urls i (proj2 Hv)) as [url Hurl].
      unfold item in H2. rewrite Hurl in H2. injection H2 as <- _.
      exists i, l, url. auto.
Qed.

Lemma picks_stay_in_bounds_witness :
  fst (pick_file Demo.env ["https://h/d/a.fits"; "https://h/d/b.fits"]
         (start ["2"; "-1"; "1"] []))
  = Ok "https://h/d/b.fits".
Proof.
  set (run := pick_file Demo.env ["https://h/d/a.fits"; "https://h/d/b.fits"]
                (start ["2"; "-1"; "1"] [])).
  assert (E : run = (fst run, snd run)) by apply surjective_pairing.
  destruct (picks_stay_in_bounds Demo.env) as [_ H].
  destruct (H _ _ _ _ E) as [H1 | [i [l [u [H1 _]]]]].
  - vm_compute in H1. discriminate H1.
  - vm_compute in H1. vm_compute. exact eq_refl.
Defined.

(** ** The radius sent to the archive *)

Lemma all_events_harmless (P : event -> Prop) :
  (forall m, P (EvPrompt m)) -> (forall m, P (EvPrint m)) ->
  harmless (all_events P).
Proof.
  intros Hp Hq. split.
  - constructor.
  - intros a b Ha Hb. apply Forall_app. split; assumption.
  - intros m. repeat constructor. apply Hp.
  - intros m. repeat constructor. apply Hq.
Qed.

(** Sequencing when what follows relies on what the first step yields. *)
Lemma extends_bind_post {A B} (Q : list event -> Prop) (HQ : harmless Q)
    (Post : A -> Prop) (m : M A) (k : A -> M B) :
  (forall w a w1, m w = (Ok a, w1) -> Post a) ->
  extends Q m ->
  (forall a, Post a -> extends Q (k a)) ->
  extends Q (bind m k).
Proof.
  intros Hpost Hm Hk w r w' H. apply bind_inv in H.
  destruct H as [[e [H _]] | [a [w1 [H1 H2]]]].
  - exact (Hm _ _ _ H).
  - destruct (Hm _ _ _ H1) as [e1 [T1 Q1]].
    destruct (Hk a (Hpost _ _ _ H1) _ _ _ H2) as [e2 [T2 Q2]].
    exists (e1 ++ e2). rewrite T2, T1, app_assoc.
    split; [reflexivity | apply (harmless_app Q HQ); assumption].
Qed.

Lemma harmless_positive_query : harmless (all_events positive_query).
Proof. apply all_events_harmless; intros; exact I. Qed.

Ltac positive_leaf := repeat constructor; assumption.

Lemma read_radius_positive (X : externals) (w : world) (radius : float)
    (w1 : world) :
  read_radius X w = (Ok radius, w1) -> py_gt radius f_zero = true.
Proof.
  intros H. destruct (radius_loop_outcome X _ _ _ _ H)
    as [E | [x [l [E [_ [_ Hgt]]]]]]; [discriminate E|].
  injection E as ->. exact Hgt.
Qed.

Lemma fetch_and_plot_positive_query (X : externals) (target url : string) :
  extends (all_events positive_query) (fetch_and_plot X target url).
Proof.
  unfold fetch_and_plot, download, extract, plot, tarfile_open, extractall,
    os_listdir, basename_of.
  extends_auto harmless_positive_query positive_leaf.
Qed.

Lemma browse_positive_query (X : externals)
    (show : info_table -> list string -> M unit) (target : string)
    (results : results_table) :
  (forall t urls, extends (all_events positive_query) (show t urls)) ->
  extends (all_events positive_query) (browse X show target results).
Proof.
  intros Hshow. unfold browse, find_files.
  extends_with harmless_positive_query positive_leaf
    ltac:(first [apply Hshow | apply fetch_and_plot_positive_query]).
Qed.

Lemma main_positive_query (X : externals) :
  extends (all_events positive_query) (alma_main X) /\
  extends (all_events positive_query) (alma_w_hydrae_main X).
Proof.
  split.
  - unfold alma_main, query_datasets.
    apply (extends_bind _ harmless_positive_query);
      [|intros; apply browse_positive_query; intros;
        apply (extends_show_files _ harmless_positive_query)].
    apply (extends_bind _ harmless_positive_query);
      [apply (extends_input _ harmless_positive_query) | intros line].
    apply (extends_bind_post _ harmless_positive_query
             (fun radius => py_gt radius f_zero = true));
      [apply read_radius_positive
      |apply (extends_read_radius _ harmless_positive_query)
      |intros radius Hradius].
    extends_auto harmless_positive_query positive_leaf.
  - unfold alma_w_hydrae_main, query_datasets_w_hya.
    apply (extends_bind _ harmless_positive_query);
      [|intros; apply browse_positive_query; intros;
        apply (extends_show_files_w_hya _ harmless_positive_query)].
    extends_auto harmless_positive_query ltac:(repeat constructor).
Qed.

(** X5: in every run of either script, each region query sent to the
    archive carries a radius greater than zero; in particular the radius is
    never NaN, zero or negative, whatever was typed. *)
Theorem query_radius_is_positive (X : externals) (lines entries : list string)
    (main : M unit) (r : result unit) (w' : world) (radius : float) :
  main = alma_main X \/ main = alma_w_hydrae_main X ->
  main (start lines entries) = (r, w') ->
  In (EvQueryRegion radius) (trace w') ->
  py_gt radius f_zero = true /\
  (radius = S754_infinity false \/ exists m e, radius = S754_finite false m e).
Proof.
  intros Hmain Hrun Hin.
  assert (Hall : all_events positive_query (trace w')).
  { destruct (main_positive_query X) as [H1 H2].
    destruct Hmain as [-> | ->].
    - destruct (H1 _ _ _ Hrun) as [evs [T HQ]]. simpl in T. rewrite T. exact HQ.
    - destruct (H2 _ _ _ Hrun) as [evs [T HQ]]. simpl in T. rewrite T. exact HQ. }
  unfold all_events in Hall. rewrite Forall_forall in Hall.
  specialize (Hall _ Hin). simpl in Hall. split; [exact Hall|].
  unfold py_gt, SFltb, f_zero in Hall.
  destruct radius as [s|s| |s m e]; try discriminate Hall.
  - destruct s; [discriminate Hall | left; reflexivity].
  - destruct s; [discriminate Hall | right; exists m, e; reflexivity].
Qed.

Lemma query_radius_is_positive_witness :
  py_gt f_0_1 f_zero = true.
Proof.
  set (run := alma_main Demo.env (start ["W Hya"; "nan"; "-1"; "0.1"] [])).
  assert (E : run = (fst run, snd run)) by apply surjective_pairing.
  apply (query_radius_is_positive Demo.env ["W Hya"; "nan"; "-1"; "0.1"] []
           (alma_main Demo.env) (fst run) (snd run) f_0_1
           (or_introl eq_refl) E).
  vm_compute. repeat (try (left; reflexivity); right).
Defined.

(** ** The first steps: name, radius, query *)

Lemma input_line (prompt : message) (line : string) (rest : list string)
    (w : world) :
  stdin w = line :: rest ->
  input prompt w = (Ok line, record [EvPrompt prompt] (set_stdin rest w)).
Proof. intros H. unfold input. rewrite H. reflexivity. Qed.

(** The name and the radius have been read: the name first, then radius
    lines until one is valid. *)
Lemma name_and_radius_read (X : externals) (name_line : string)
    (bad : list string) (good : string) (rest : list string) (radius : float)
    (w : world) {B} (k : string -> float -> M B) :
  stdin w = name_line :: bad ++ good :: rest ->
  Forall (invalid_radius X) bad ->
  valid_radius X good radius ->
  (line <- input [Str "Enter the target name (e.g., W Hya, Betelgeuse, NGC 253): "] ;;
   radius <- read_radius X ;; k line radius) w =
  k name_line radius
    (record (EvPrompt [Str "Enter the target name (e.g., W Hya, Betelgeuse, NGC 253): "]
             :: flat_map (radius_retry X) bad ++ [EvPrompt radius_prompt])
            (set_stdin rest w)).
Proof.
  intros Hin Hbad Hgood.
  rewrite (bind_ok _ _ _ _ _ (input_line _ _ _ _ Hin)).
  unfold read_radius at 1.
  erewrite bind_ok;
    [|simpl; apply (radius_loop_first_valid X bad good rest radius _ Hbad Hgood)].
  rewrite !set_stdin_record, set_stdin_twice, record_record. reflexivity.
Qed.

(** X6: when the archive answers the region query with no dataset, the run
    ends with the script's own [RuntimeError]: in [alma.py] its message
    names the target as typed (stripped) and the radius accepted, and the
    run has shown the coordinates and [Total datasets found: 0] but no
    dataset list and no index prompt; in [alma_w-hydrae.py] the message
    names W Hya. *)
Theorem empty_result_set_aborts (X : externals) (w : world) :
  (forall name_line bad good rest radius c results,
     stdin w = name_line :: bad ++ good :: rest ->
     Forall (invalid_radius X) bad ->
     valid_radius X good radius ->
     from_name X (PyStr.strip name_line) = Some c ->
     query_region X c radius = Some results ->
     member_ous_uid results = [] ->
     alma_main X w =
     (Raise (RuntimeError [Str "No ALMA datasets found for ";
                           Str (PyStr.strip name_line); Str " within ";
                           Flt radius; Str " deg."]),
      record
        (EvPrompt [Str "Enter the target name (e.g., W Hya, Betelgeuse, NGC 253): "]
         :: flat_map (radius_retry X) bad ++
         [EvPrompt radius_prompt;
          EvFromName (PyStr.strip name_line);
          EvPrint [Str "Coordinates of "; Str (PyStr.strip name_line);
                   Str ": RA="; Flt (ra_deg X c); Str ", Dec=";
                   Flt (dec_deg X c)];
          EvQueryRegion radius;
          EvPrint [Str "Total datasets found: "; Int 0]])
        (set_stdin rest w))) /\
  (forall c results,
     from_name X "W Hya" = Some c ->
     query_region X c f_0_1 = Some results ->
     member_ous_uid results = [] ->
     alma_w_hydrae_main X w =
     (Raise (RuntimeError [Str "No ALMA datasets found for W Hya."]),
      record [EvFromName "W Hya"; EvQueryRegion f_0_1;
              EvPrint [Str "Total datasets found: "; Int 0]] w)).
Proof.
  split.
  - intros name_line bad good rest radius c results Hin Hbad Hgood Hname
      Hquery Hempty.
    unfold alma_main. apply bind_raise. unfold query_datasets.
    rewrite (name_and_radius_read X name_line bad good rest radius w _
               Hin Hbad Hgood).
    unfold bind, emit, print, outcome, ret, raise, len_results.
    rewrite Hname. simpl. rewrite Hquery, Hempty. simpl.
    rewrite !record_record. simpl. rewrite <- !app_assoc. reflexivity.
  - intros c results Hname Hquery Hempty.
    unfold alma_w_hydrae_main. apply bind_raise.
    unfold query_datasets_w_hya, bind, emit, print, outcome, ret, raise,
      len_results.
    rewrite Hname. simpl. rewrite Hquery, Hempty. simpl.
    rewrite !record_record. reflexivity.
Qed.

(** X7: [alma.py] resolves the target name only after a radius has been
    accepted.  When the name cannot be resolved the run ends with the
    resolver's exception right after that call: the radius was asked for,
    and no query was sent to the archive.  [alma_w-hydrae.py] ends the same
    way with the resolver call as its only action. *)
Theorem unresolved_name_ends_the_run (X : externals) (w : world) :
  (forall name_line bad good rest radius,
     stdin w = name_line :: bad ++ good :: rest ->
     Forall (invalid_radius X) bad ->
     valid_radius X good radius ->
     from_name X (PyStr.strip name_line) = None ->
     alma_main X w =
     (Raise (LibraryError "SkyCoord.from_name"),
      record
        (EvPrompt [Str "Enter the target name (e.g., W Hya, Betelgeuse, NGC 253): "]
         :: flat_map (radius_retry X) bad ++
         [EvPrompt radius_prompt; EvFromName (PyStr.strip name_line)])
        (set_stdin rest w))) /\
  (from_name X "W Hya" = None ->
   alma_w_hydrae_main X w =
   (Raise (LibraryError "SkyCoord.from_name"), record [EvFromName "W Hya"] w)).
Proof.
  split.
  - intros name_line bad good rest radius Hin Hbad Hgood Hname.
    unfold alma_main. apply bind_raise. unfold query_datasets.
    rewrite (name_and_radius_read X name_line bad good rest radius w _
               Hin Hbad Hgood).
    unfold bind, emit, outcome, raise. rewrite Hname. simpl.
    rewrite !record_record. simpl. rewrite <- !app_assoc. reflexivity.
  - intros Hname. unfold alma_w_hydrae_main. apply bind_raise.
    unfold query_datasets_w_hya, bind, emit, outcome, raise.
    rewrite Hname. reflexivity.
Qed.

Lemma empty_result_set_aborts_witness :
  fst (alma_main Barren.env (start ["  W Hya "; "x"; "0.1"] []))
  = Raise (RuntimeError [Str "No ALMA datasets found for "; Str "W Hya";
                         Str " within "; Flt f_0_1; Str " deg."]).
Proof.
  destruct (empty_result_set_aborts Barren.env (start ["  W Hya "; "x"; "0.1"] []))
    as [H _].
  rewrite (H "  W Hya " ["x"] "0.1" [] f_0_1 (f_0_1, f_zero) Barren.no_datasets).
  - reflexivity.
  - reflexivity.
  - repeat constructor. intros x Hx. vm_compute in Hx. discriminate Hx.
  - split; reflexivity.
  - reflexivity.
  - reflexivity.
  - reflexivity.
Defined.

Lemma unresolved_name_ends_the_run_witness :
  fst (alma_main Barren.env (start ["Nowhere"; "0.1"] []))
  = Raise (LibraryError "SkyCoord.from_name").
Proof.
  destruct (unresolved_name_ends_the_run Barren.env (start ["Nowhere"; "0.1"] []))
    as [H _].
  rewrite (H "Nowhere" [] "0.1" [] f_0_1).
  - reflexivity.
  - reflexivity.
  - constructor.
  - split; reflexivity.
  - reflexivity.
Defined.

(** ** The lists shown *)

Lemma cell_in_range (column : option (list string)) (n i : nat)
    (missing : string) (w : world) :
  column_ok n column -> (i < n)%nat ->
  cell column i missing w = (Ok (cell_or column i missing), w).
Proof.
  intros Hok Hi. destruct column as [cells|]; simpl; [|reflexivity].
  simpl in Hok. apply item_in_range. lia.
Qed.

Lemma record_nil (w : world) : record [] w = w.
Proof. unfold record. rewrite app_nil_r. destruct w; reflexivity. Qed.

Lemma list_datasets_run (results : results_table) (uids : list string) :
  forall (i : nat) (w : world),
    results_ok results ->
    (i + length uids <= length (member_ous_uid results))%nat ->
    list_datasets results i uids w =
    (Ok tt, record (numbered_lines (dataset_line results) i uids) w).
Proof.
  induction uids as [|uid rest IH]; intros i w Hok Hlen; simpl.
  - unfold ret. rewrite record_nil. reflexivity.
  - simpl in Hlen. destruct Hok as [Hd [Ht [Hb [Hi Hf]]]].
    cbv zeta in Hd, Ht, Hb, Hi, Hf.
    set (n := length (member_ous_uid results)) in *.
    rewrite (bind_ok _ _ _ _ _ (cell_in_range _ n i _ w Ht ltac:(lia))).
    rewrite (bind_ok _ _ _ _ _ (cell_in_range _ n i _ w Hb ltac:(lia))).
    rewrite (bind_ok _ _ _ _ _ (cell_in_range _ n i _ w Hi ltac:(lia))).
    rewrite (bind_ok _ _ _ _ _ (cell_in_range _ n i _ w Hf ltac:(lia))).
    rewrite (bind_ok _ _ _ _ _
               (item_in_range (lastModified results) i "" w ltac:(lia))).
    unfold bind at 1, print, emit.
    rewrite IH by (try lia; repeat split; assumption).
    rewrite record_record. reflexivity.
Qed.

Lemma list_datasets_w_hya_run (results : results_table) (uids : list string) :
  forall (i : nat) (w : world),
    results_ok results ->
    (i + length uids <= length (member_ous_uid results))%nat ->
    list_datasets_w_hya results i uids w =
    (Ok tt, record (numbered_lines (dataset_line_w_hya results) i uids) w).
Proof.
  induction uids as [|uid rest IH]; intros i w Hok Hlen; simpl.
  - unfold ret. rewrite record_nil. reflexivity.
  - simpl in Hlen. destruct Hok as [Hd [Ht [Hb [Hi Hf]]]].
    cbv zeta in Hd, Ht, Hb, Hi, Hf.
    set (n := length (member_ous_uid results)) in *.
    rewrite (bind_ok _ _ _ _ _ (cell_in_range _ n i _ w Ht ltac:(lia))).
    rewrite (bind_ok _ _ _ _ _
               (item_in_range (lastModified results) i "" w ltac:(lia))).
    unfold bind at 1, print, emit.
    rewrite IH by (try lia; repeat split; assumption).
    rewrite record_record. reflexivity.
Qed.

Lemma numbered_lines_nth (line : nat -> string -> message)
    (entries : list string) :
  forall (i k : nat) (entry : string),
    nth_error entries k = Some entry ->
    nth_error (numbered_lines line i entries) k =
    Some (EvPrint (line (i + k)%nat entry)).
Proof.
  induction entries as [|x rest IH]; intros i k entry H.
  - destruct k; discriminate H.
  - destruct k as [|k]; simpl in *.
    + injection H as <-. rewrite Nat.add_0_r. reflexivity.
    + rewrite (IH (S i) k entry H). rewrite Nat.add_succ_r. reflexivity.
Qed.

Lemma numbered_lines_length (line : nat -> string -> message)
    (entries : list string) :
  forall i, length (numbered_lines line i entries) = length entries.
Proof.
  induction entries as [|x rest IH]; intros i; simpl; [|rewrite IH]; reflexivity.
Qed.

(** X8: on a query result whose columns all have one cell per dataset, the
    dataset list of either script never fails; it prints one line per
    dataset and nothing else, dataset [k] on line [k] with its number, its
    identifier and its cells of row [k], where an absent optional column
    shows as [No title] (title) or [N/A] (bands, instrument, frequency). *)
Theorem dataset_list_shows_every_row (results : results_table) (w : world) :
  results_ok results ->
  list_datasets results 0 (member_ous_uid results) w =
    (Ok tt,
     record (numbered_lines (dataset_line results) 0 (member_ous_uid results)) w) /\
  list_datasets_w_hya results 0 (member_ous_uid results) w =
    (Ok tt,
     record (numbered_lines (dataset_line_w_hya results) 0
               (member_ous_uid results)) w) /\
  (forall line,
     length (numbered_lines line 0 (member_ous_uid results))
     = length (member_ous_uid results) /\
     forall k uid,
       nth_error (member_ous_uid results) k = Some uid ->
       nth_error (numbered_lines line 0 (member_ous_uid results)) k
       = Some (EvPrint (line k uid))) /\
  (obs_title results = None -> band_list results = None ->
   instrument_name results = None -> frequency results = None ->
   forall k uid,
     dataset_line results k uid =
     [Int (Z.of_nat k); Str ": UID="; Str uid; Str ", Title="; Str "No title";
      Str ", Bands="; Str "N/A"; Str ", Instrument="; Str "N/A";
      Str ", Frequency="; Str "N/A"; Str ", Last Modified=";
      Str (nth k (lastModified results) "")]).
Proof.
  intros Hok. split; [|split; [|split]].
  - apply list_datasets_run; [exact Hok | simpl; lia].
  - apply list_datasets_w_hya_run; [exact Hok | simpl; lia].
  - intros line. split; [apply numbered_lines_length|].
    intros k uid H. apply (numbered_lines_nth line _ 0 k uid H).
  - intros Ht Hb Hi Hf k uid. unfold dataset_line.
    rewrite Ht, Hb, Hi, Hf. reflexivity.
Qed.

Lemma dataset_list_shows_every_row_witness :
  fst (list_datasets Demo.datasets 0 (member_ous_uid Demo.datasets) (start [] []))
  = Ok tt.
Proof.
  destruct (dataset_list_shows_every_row Demo.datasets (start [] [])) as [H _].
  - repeat split; reflexivity.
  - rewrite H. reflexivity.
Defined.

Lemma list_files_any_columns (t : info_table) (urls : list string) :
  forall (i : nat) (w : world),
    info_table_ok t ->
    (i + length urls <= length (access_url t))%nat ->
    list_files t i urls w =
    (Ok tt, record (numbered_lines (candidate_line t) i urls) w).
Proof.
  induction urls as [|url rest IH]; intros i w Hok Hlen; simpl.
  - unfold ret. rewrite record_nil. reflexivity.
  - simpl in Hlen. destruct Hok as [Hf Hs].
    rewrite (bind_ok _ _ _ _ _
               (cell_in_range _ (length (access_url t)) i _ w Hf ltac:(lia))).
    rewrite (bind_ok _ _ _ _ _
               (cell_in_range _ (length (access_url t)) i _ w Hs ltac:(lia))).
    unfold bind at 1, print, emit.
    rewrite IH by (try lia; split; assumption).
    rewrite record_record. reflexivity.
Qed.

Lemma list_files_w_hya_run (urls : list string) :
  forall (i : nat) (w : world),
    list_files_w_hya i urls w =
    (Ok tt,
     record (numbered_lines
               (fun k url => [Int (Z.of_nat k); Str ": "; Str url]) i urls) w).
Proof.
  induction urls as [|url rest IH]; intros i w; simpl.
  - unfold ret. rewrite record_nil. reflexivity.
  - unfold bind at 1, print, emit. rewrite IH, record_record. reflexivity.
Qed.

(** X9: on a listing whose columns have one cell per row, showing the
    candidates never fails, whichever of the format and size columns the
    listing has: after the heading, [alma.py] prints one line per candidate
    with its number, its file name and the two cells found at that number,
    [N/A] standing for a column that is absent; [alma_w-hydrae.py] prints
    the number and the whole URL. *)
Theorem file_list_shows_every_candidate (t : info_table) (w : world) :
  info_table_ok t ->
  show_files t (fits_urls (access_url t)) w =
    (Ok tt,
     record (EvPrint [Str (nl ++ "Available files in dataset:")%string]
             :: numbered_lines (candidate_line t) 0 (fits_urls (access_url t)))
            w) /\
  show_files_w_hya t (fits_urls (access_url t)) w =
    (Ok tt,
     record (EvPrint [Str (nl ++ "Available FITS/tarball files:")%string]
             :: numbered_lines
                  (fun k url => [Int (Z.of_nat k); Str ": "; Str url]) 0
                  (fits_urls (access_url t)))
            w) /\
  (access_format t = None -> access_estsize t = None ->
   forall k url,
     candidate_line t k url =
     [Int (Z.of_nat k); Str ": File="; Str (PyStr.basename url);
      Str ", Format="; Str "N/A"; Str ", Size="; Str "N/A"; Str " bytes"]).
Proof.
  intros Hok. split; [|split].
  - unfold show_files, bind at 1, print, emit.
    rewrite list_files_any_columns;
      [rewrite record_record; reflexivity | exact Hok |].
    pose proof (fits_urls_length (access_url t)). simpl. lia.
  - unfold show_files_w_hya, bind at 1, print, emit.
    rewrite list_files_w_hya_run, record_record. reflexivity.
  - intros Hf Hs k url. unfold candidate_line. rewrite Hf, Hs. reflexivity.
Qed.

Lemma file_list_shows_every_candidate_witness :
  trace (snd (show_files
                {| access_url := ["https://h/d/bundle.tar.gz"; "https://h/d/readme.txt"];
                   access_format := None; access_estsize := None |}
                ["https://h/d/bundle.tar.gz"] (start [] [])))
  = [EvPrint [Str (nl ++ "Available files in dataset:")%string];
     EvPrint [Int 0; Str ": File="; Str "bundle.tar.gz"; Str ", Format=";
              Str "N/A"; Str ", Size="; Str "N/A"; Str " bytes"]].
Proof.
  destruct (file_list_shows_every_candidate
              {| access_url := ["https://h/d/bundle.tar.gz"; "https://h/d/readme.txt"];
                 access_format := None; access_estsize := None |}
              (start [] [])) as [H _].
  - split; exact I.
  - change (fits_urls
              (access_url
                 {| access_url := ["https://h/d/bundle.tar.gz"; "https://h/d/readme.txt"];
                    access_format := None; access_estsize := None |}))
      with ["https://h/d/bundle.tar.gz"] in H.
    rewrite H. reflexivity.
Defined.

(** ** Archives that cannot be read *)

(** X10: when the downloaded file has an archive name but cannot be opened
    as a tar archive, the run ends with the exception of [tarfile.open];
    when it opens but extraction fails, the run ends with the exception of
    [extractall], after the archive has been closed.  In both cases the
    directory is not listed, nothing is printed about the file and
    [fits.open] is not called. *)
Theorem unreadable_archive_ends_the_run (X : externals)
    (target url downloaded_file : string) (more downloaded : list string)
    (w : world) :
  download_files X [url] download_dir (listdir w)
    = Some (downloaded_file :: more, downloaded) ->
  is_archive_name downloaded_file = true ->
  (tar_readable X downloaded_file = false ->
   fetch_and_plot X target url w =
   (Raise (LibraryError "tarfile.open"),
    record [EvDownload [url] download_dir; EvTarfileOpen downloaded_file]
           (set_listdir downloaded w))) /\
  (tar_readable X downloaded_file = true ->
   tar_extractall X downloaded_file download_dir downloaded = None ->
   fetch_and_plot X target url w =
   (Raise (LibraryError "tar.extractall"),
    record [EvDownload [url] download_dir; EvTarfileOpen downloaded_file;
            EvOpened (TarHandle downloaded_file); EvExtractAll download_dir;
            EvClosed (TarHandle downloaded_file)]
           (set_listdir downloaded w))).
Proof.
  intros Hdl Hname. split.
  - intros Hopen. unfold fetch_and_plot.
    rewrite (bind_ok _ _ _ _ _ (download_run X url _ _ _ w Hdl)).
    apply bind_raise.
    unfold extract, tarfile_open, bind, emit, raise.
    rewrite Hname, Hopen. simpl. rewrite record_record. reflexivity.
  - intros Hopen Hextract. unfold fetch_and_plot.
    rewrite (bind_ok _ _ _ _ _ (download_run X url _ _ _ w Hdl)).
    apply bind_raise.
    unfold extract, tarfile_open, extractall, finally, bind, emit, ret, raise.
    rewrite Hname, Hopen. simpl. rewrite Hextract. simpl.
    unfold record, set_listdir. simpl. rewrite <- !app_assoc. reflexivity.
Qed.

Lemma unreadable_archive_ends_the_run_witness :
  fst (fetch_and_plot Barren.env "W Hya" "https://h/d/broken.tar" (start [] []))
  = Raise (LibraryError "tarfile.open") /\
  fst (fetch_and_plot Barren.env "W Hya" "https://h/d/cut.tar.gz" (start [] []))
  = Raise (LibraryError "tar.extractall").
Proof.
  destruct (unreadable_archive_ends_the_run Barren.env "W Hya"
              "https://h/d/broken.tar" "./broken.tar" [] ["broken.tar"]
              (start [] []) eq_refl eq_refl) as [H1 _].
  destruct (unreadable_archive_ends_the_run Barren.env "W Hya"
              "https://h/d/cut.tar.gz" "./cut.tar.gz" [] ["cut.tar.gz"]
              (start [] []) eq_refl eq_refl) as [_ H2].
  rewrite (H1 eq_refl), (H2 eq_refl eq_refl). split; reflexivity.
Defined.

(** ** How a run ends *)

Lemma harmless_no_show : harmless (free_of is_show).
Proof. apply free_of_harmless; reflexivity. Qed.

Lemma ends_in_plot_bind {A} (X : externals) (m : M A) (k : A -> M unit) :
  extends (free_of is_show) m ->
  (forall a, ends_in_plot X (k a)) ->
  ends_in_plot X (bind m k).
Proof.
  intros Hm Hk w r w' Hw H. apply bind_inv in H.
  destruct H as [[e [H ->]] | [a [w1 [H1 H2]]]].
  - left. exists e. split; [reflexivity|].
    destruct (Hm _ _ _ H) as [evs [T HQ]]. rewrite T.
    apply Forall_app. split; assumption.
  - apply (Hk a w1 r w'); [|exact H2].
    destruct (Hm _ _ _ H1) as [evs [T HQ]]. rewrite T.
    apply Forall_app. split; assumption.
Qed.

Lemma ends_in_plot_plot (X : externals) (target : string)
    (fits_file : option string) :
  ends_in_plot X (plot X target fits_file).
Proof. intros w r w' Hw H. right. exists target, fits_file, w. auto. Qed.

Lemma extract_no_show (X : externals) (downloaded_file : string) :
  extends (free_of is_show) (extract X downloaded_file).
Proof.
  unfold extract, tarfile_open, extractall, os_listdir.
  extends_auto harmless_no_show free_leaf.
Qed.

Lemma download_no_show (X : externals) (url : string) :
  extends (free_of is_show) (download X url).
Proof. unfold download. extends_auto harmless_no_show free_leaf. Qed.

Lemma find_files_no_show (X : externals) (uid : string) :
  extends (free_of is_show) (find_files X uid).
Proof. unfold find_files. extends_auto harmless_no_show free_leaf. Qed.

Lemma query_datasets_no_show (X : externals) :
  extends (free_of is_show) (query_datasets X) /\
  extends (free_of is_show) (query_datasets_w_hya X).
Proof.
  split; unfold query_datasets, query_datasets_w_hya;
    extends_auto harmless_no_show free_leaf.
Qed.

Lemma browse_ends_in_plot (X : externals)
    (show : info_table -> list string -> M unit) (target : string)
    (results : results_table) :
  (forall t urls, extends (free_of is_show) (show t urls)) ->
  ends_in_plot X (browse X show target results).
Proof.
  intros Hshow. unfold browse.
  apply ends_in_plot_bind;
    [apply (extends_pick_dataset _ harmless_no_show) | intros uid].
  apply ends_in_plot_bind; [apply find_files_no_show | intros [t urls]].
  apply ends_in_plot_bind; [apply Hshow | intros _].
  apply ends_in_plot_bind;
    [apply (extends_pick_file _ harmless_no_show) | intros url].
  unfold fetch_and_plot.
  apply ends_in_plot_bind; [apply download_no_show | intros path].
  apply ends_in_plot_bind; [apply extract_no_show | intros fits_file].
  apply ends_in_plot_bind;
    [apply (extends_print _ harmless_no_show) | intros _].
  apply ends_in_plot_plot.
Qed.

Lemma main_ends_in_plot (X : externals) :
  ends_in_plot X (alma_main X) /\ ends_in_plot X (alma_w_hydrae_main X).
Proof.
  destruct (query_datasets_no_show X) as [H1 H2]. split.
  - apply ends_in_plot_bind; [exact H1 | intros found].
    apply browse_ends_in_plot. intros.
    apply (extends_show_files _ harmless_no_show).
  - apply ends_in_plot_bind; [exact H2 | intros results].
    apply browse_ends_in_plot. intros.
    apply (extends_show_files_w_hya _ harmless_no_show).
Qed.

Lemma shows_last_bind {A B} (m : M A) (k : A -> M B) :
  extends (free_of is_show) m ->
  (forall a, shows_last (k a)) ->
  shows_last (bind m k).
Proof.
  intros Hm Hk w r w' H. apply bind_inv in H.
  destruct H as [[e [H ->]] | [a [w1 [H1 H2]]]].
  - right. destruct (Hm _ _ _ H) as [evs [T HQ]]. exists e, evs. auto.
  - destruct (Hm _ _ _ H1) as [evs [T HQ]].
    destruct (Hk a _ _ _ H2)
      as [[b [before [-> [T2 Hb]]]] | [e [evs2 [-> [T2 Hb]]]]].
    + left. exists b, (evs ++ before). split; [reflexivity|].
      split; [rewrite T2, T, <- !app_assoc; reflexivity|].
      apply Forall_app. split; assumption.
    + right. exists e, (evs ++ evs2). split; [reflexivity|].
      split; [rewrite T2, T, <- !app_assoc; reflexivity|].
      apply Forall_app. split; assumption.
Qed.

Lemma shows_last_show : shows_last (emit EvShow).
Proof.
  intros w r w' H. injection H as <- <-. left. exists tt, [].
  split; [reflexivity|]. split; [reflexivity | constructor].
Qed.

Lemma plot_shows_last (X : externals) (target : string)
    (fits_file : option string) :
  shows_last (plot X target fits_file).
Proof.
  unfold plot, basename_of. cbv zeta.
  repeat (apply shows_last_bind;
          [extends_auto harmless_no_show free_leaf | intros ?]).
  apply shows_last_show.
Qed.

(** The plotting step ends normally exactly when it has shown the figure,
    and then showing it was the last thing it did. *)
Lemma plot_shows_or_raises (X : externals) (target : string)
    (fits_file : option string) (w : world) (r : result unit) (w' : world) :
  free_of is_show (trace w) ->
  plot X target fits_file w = (r, w') ->
  (r = Ok tt /\ exists before, trace w' = before ++ [EvShow] /\
                               free_of is_show before) \/
  (exists e, r = Raise e /\ free_of is_show (trace w')).
Proof.
  intros Hw H.
  destruct (plot_shows_last X target fits_file w r w' H)
    as [[[] [before [-> [T Hb]]]] | [e [evs [-> [T Hb]]]]].
  - left. split; [reflexivity|]. exists (trace w ++ before).
    split; [rewrite T, <- app_assoc; reflexivity|].
    apply Forall_app. split; assumption.
  - right. exists e. split; [reflexivity|]. rewrite T.
    apply Forall_app. split; assumption.
Qed.

(** X11: a run of either script ends normally exactly when it has shown
    the figure, and then [plt.show()] is the last thing it did and it did it
    once; a run that raises, at whatever step, has shown nothing. *)
Theorem normal_end_means_figure_shown (X : externals) (lines entries : list string)
    (main : M unit) (r : result unit) (w' : world) :
  main = alma_main X \/ main = alma_w_hydrae_main X ->
  main (start lines entries) = (r, w') ->
  (r = Ok tt <-> In EvShow (trace w')) /\
  (r = Ok tt ->
   exists before, trace w' = before ++ [EvShow] /\ free_of is_show before) /\
  (forall e, r = Raise e -> free_of is_show (trace w')).
Proof.
  intros Hmain Hrun.
  assert (Hends : ends_in_plot X main).
  { destruct (main_ends_in_plot X). destruct Hmain as [-> | ->]; assumption. }
  assert (Hcases :
    (r = Ok tt /\ exists before, trace w' = before ++ [EvShow] /\
                                 free_of is_show before) \/
    (exists e, r = Raise e /\ free_of is_show (trace w'))).
  { destruct (Hends (start lines entries) r w' (Forall_nil _) Hrun)
      as [[e [-> Hfree]] | [target [ff [w1 [Hw1 Hplot]]]]].
    - right. exists e. auto.
    - exact (plot_shows_or_raises X target ff w1 r w' Hw1 Hplot). }
  destruct Hcases as [[-> [before [T Hb]]] | [e [-> Hfree]]].
  - split; [|split].
    + split; [intros _ | reflexivity]. rewrite T. apply in_or_app.
      right. left. reflexivity.
    + intros _. exists before. auto.
    + intros e H. discriminate H.
  - split; [|split].
    + split; [discriminate|]. intros Hin. exfalso.
      exact (free_of_not_in is_show _ EvShow Hfree eq_refl Hin).
    + discriminate.
    + intros e' _. exact Hfree.
Qed.

Lemma normal_end_means_figure_shown_witness :
  In EvShow (trace (snd (alma_w_hydrae_main Demo.env (start ["3"; "0"] ["alma.py"])))).
Proof.
  set (run := alma_w_hydrae_main Demo.env (start ["3"; "0"] ["alma.py"])).
  assert (E : run = (fst run, snd run)) by apply surjective_pairing.
  destruct (normal_end_means_figure_shown Demo.env ["3"; "0"] ["alma.py"]
              (alma_w_hydrae_main Demo.env) (fst run) (snd run)
              (or_intror eq_refl) E) as [[H _] _].
  apply H. vm_compute. reflexivity.
Defined.

(** ** The order of the calls *)

Lemma calls_app (a b : list event) : calls (a ++ b) = calls a ++ calls b.
Proof.
  induction a as [|e a IH]; simpl; [reflexivity|].
  destruct (stage e); simpl; rewrite IH; reflexivity.
Qed.

Lemma ascending_app (a b : list nat) :
  ascending a -> ascending b ->
  (forall x y, In x a -> In y b -> (x < y)%nat) ->
  ascending (a ++ b).
Proof.
  induction a as [|x a IH]; intros Ha Hb Hab; simpl; [exact Hb|].
  destruct Ha as [Hx Ha]. split.
  - apply Forall_app. split; [exact Hx|].
    apply Forall_forall. intros y Hy. apply Hab; [left; reflexivity | exact Hy].
  - apply IH; [exact Ha | exact Hb|].
    intros u v Hu Hv. apply Hab; [right; exact Hu | exact Hv].
Qed.

Lemma within_app (lo mid hi : nat) (a b : list event) :
  (lo <= mid)%nat -> (mid <= hi)%nat ->
  within lo mid a -> within mid hi b -> within lo hi (a ++ b).
Proof.
  intros Hlo Hhi [Sa Ba] [Sb Bb]. unfold within. rewrite calls_app.
  rewrite Forall_forall in Ba, Bb. split.
  - apply ascending_app; [exact Sa | exact Sb|].
    intros x y Hx Hy. specialize (Ba x Hx). specialize (Bb y Hy). lia.
  - apply Forall_app. split; apply Forall_forall; intros s Hs;
      [specialize (Ba s Hs) | specialize (Bb s Hs)]; lia.
Qed.

Lemma within_no_call (lo hi : nat) (evs : list event) :
  calls evs = [] -> within lo hi evs.
Proof. intros H. unfold within. rewrite H. split; constructor. Qed.

Lemma within_one_call (lo hi s : nat) (e : event) :
  stage e = Some s -> (lo <= s < hi)%nat -> within lo hi [e].
Proof.
  intros He Hs. unfold within. simpl. rewrite He. simpl.
  split; [split; [constructor | exact I] | repeat constructor; lia].
Qed.

Lemma within_widen (lo hi lo' hi' : nat) (evs : list event) :
  (lo' <= lo)%nat -> (hi <= hi')%nat -> within lo hi evs -> within lo' hi' evs.
Proof.
  intros Hlo Hhi [S B]. split; [exact S|].
  rewrite Forall_forall in *. intros s Hs. specialize (B s Hs). lia.
Qed.

Lemma within_empty_range (k : nat) (evs : list event) :
  within k k evs -> calls evs = [].
Proof.
  intros [_ B]. destruct (calls evs) as [|s r]; [reflexivity|].
  inversion B; subst. lia.
Qed.

(** Steps that make no call at all can be repeated and mixed freely. *)
Lemma harmless_within (k : nat) : harmless (within k k).
Proof.
  split.
  - apply within_no_call. reflexivity.
  - intros a b Ha Hb. apply within_no_call. rewrite calls_app.
    rewrite (within_empty_range k a Ha), (within_empty_range k b Hb).
    reflexivity.
  - intros m. apply within_no_call. reflexivity.
  - intros m. apply within_no_call. reflexivity.
Qed.

Lemma extends_staged_bind {A B} (lo mid hi : nat) (m : M A) (k : A -> M B) :
  (lo <= mid)%nat -> (mid <= hi)%nat ->
  extends (within lo mid) m ->
  (forall a, extends (within mid hi) (k a)) ->
  extends (within lo hi) (bind m k).
Proof.
  intros Hlo Hhi Hm Hk w r w' H. apply bind_inv in H.
  destruct H as [[e [H _]] | [a [w1 [H1 H2]]]].
  - destruct (Hm _ _ _ H) as [evs [T HQ]]. exists evs.
    split; [exact T|]. apply (within_widen lo mid); auto.
  - destruct (Hm _ _ _ H1) as [e1 [T1 Q1]].
    destruct (Hk a _ _ _ H2) as [e2 [T2 Q2]].
    exists (e1 ++ e2). rewrite T2, T1, app_assoc.
    split; [reflexivity | apply (within_app lo mid hi); assumption].
Qed.

Lemma extends_widen {A} (lo hi lo' hi' : nat) (m : M A) :
  (lo' <= lo)%nat -> (hi <= hi')%nat ->
  extends (within lo hi) m -> extends (within lo' hi') m.
Proof.
  intros Hlo Hhi Hm w r w' H. destruct (Hm _ _ _ H) as [evs [T HQ]].
  exists evs. split; [exact T|]. apply (within_widen lo hi); assumption.
Qed.

Lemma extends_call (lo hi s : nat) (e : event) :
  stage e = Some s -> (lo <= s < hi)%nat -> extends (within lo hi) (emit e).
Proof.
  intros He Hs w r w' H. injection H as <- <-. exists [e].
  split; [reflexivity | apply (within_one_call lo hi s); assumption].
Qed.

Lemma extends_plt_call (X : externals) (lo hi s : nat) (call : string)
    (e : event) :
  stage e = Some s -> (lo <= s < hi)%nat -> extends (within lo hi) (plt X call e).
Proof.
  intros He Hs w r w' H. apply plt_run in H. subst w'. exists [e].
  split; [reflexivity | apply (within_one_call lo hi s); assumption].
Qed.

Lemma extends_imshow_call (X : externals) (lo hi : nat)
    (data_2d : option ndarray) (vmin vmax : float) :
  (lo <= 10 < hi)%nat -> extends (within lo hi) (plt_imshow X data_2d vmin vmax).
Proof.
  intros Hs. destruct data_2d as [a|]; simpl.
  - apply (extends_plt_call X lo hi 10); [reflexivity | exact Hs].
  - intros w r w' H. injection H as <- <-. exists []. rewrite app_nil_r.
    split; [reflexivity | apply within_no_call; reflexivity].
Qed.

Ltac quiet_leaf := apply within_no_call; reflexivity.

(** A step that makes no call: the range of what follows stays as it is. *)
Ltac quiet_step :=
  match goal with
  | |- extends (within ?lo ?hi) (bind _ _) =>
      apply (extends_staged_bind lo lo hi);
      [lia | lia | extends_auto (harmless_within lo) quiet_leaf | intros]
  end.

(** A call: what follows belongs to the stages after it. *)
Ltac call_step :=
  match goal with
  | |- extends (within ?lo ?hi) (bind (emit ?e) _) =>
      let s := eval cbv in (stage e) in
      match s with
      | Some ?n =>
          apply (extends_staged_bind lo (S n) hi);
          [lia | lia | apply (extends_call lo (S n) n); [reflexivity | lia]
          | intros]
      end
  | |- extends (within ?lo ?hi) (bind (plt ?X ?call ?e) _) =>
      let s := eval cbv in (stage e) in
      match s with
      | Some ?n =>
          apply (extends_staged_bind lo (S n) hi);
          [lia | lia
          | apply (extends_plt_call X lo (S n) n); [reflexivity | lia]
          | intros]
      end
  | |- extends (within ?lo ?hi) (bind (plt_imshow ?X _ _ _) _) =>
      apply (extends_staged_bind lo 11 hi);
      [lia | lia | apply (extends_imshow_call X lo 11); lia | intros]
  end.

(** The last step, with or without a call. *)
Ltac last_step :=
  match goal with
  | |- extends (within ?lo ?hi) (emit ?e) =>
      let s := eval cbv in (stage e) in
      match s with
      | Some ?n => apply (extends_call lo hi n); [reflexivity | lia]
      end
  | |- extends (within ?lo ?hi) _ =>
      apply (extends_widen lo lo lo hi);
      [lia | lia | extends_auto (harmless_within lo) quiet_leaf]
  end.

Ltac staged := repeat first [call_step | quiet_step]; last_step.

Lemma query_datasets_staged (X : externals) :
  extends (within 1 3) (query_datasets X) /\
  extends (within 1 3) (query_datasets_w_hya X).
Proof. split; unfold query_datasets, query_datasets_w_hya; staged. Qed.

Lemma find_files_staged (X : externals) (uid : string) :
  extends (within 3 4) (find_files X uid).
Proof. unfold find_files. staged. Qed.

Lemma download_staged (X : externals) (url : string) :
  extends (within 4 5) (download X url).
Proof. unfold download. staged. Qed.

Lemma extract_staged (X : externals) (downloaded_file : string) :
  extends (within 5 8) (extract X downloaded_file).
Proof.
  intros w r w' H.
  destruct (extract_events X downloaded_file w r w' H) as [evs [T E]].
  exists evs. split; [exact T|].
  destruct E as [ -> | [ -> | [ -> | -> ] ] ]; unfold within; simpl;
    repeat split; repeat constructor; lia.
Qed.

Lemma plot_staged (X : externals) (target : string) (fits_file : option string) :
  extends (within 8 16) (plot X target fits_file).
Proof. unfold plot, basename_of. cbv zeta. staged. Qed.

Lemma browse_staged (X : externals)
    (show : info_table -> list string -> M unit) (target : string)
    (results : results_table) :
  (forall t urls, extends (within 4 4) (show t urls)) ->
  extends (within 3 16) (browse X show target results).
Proof.
  intros Hshow. unfold browse.
  apply (extends_staged_bind 3 3 16); [lia | lia | | intros uid].
  { apply (extends_pick_dataset _ (harmless_within 3)). }
  apply (extends_staged_bind 3 4 16);
    [lia | lia | apply find_files_staged | intros [t urls]].
  apply (extends_staged_bind 4 4 16); [lia | lia | apply Hshow | intros _].
  apply (extends_staged_bind 4 4 16); [lia | lia | | intros url].
  { apply (extends_pick_file _ (harmless_within 4)). }
  unfold fetch_and_plot.
  apply (extends_staged_bind 4 5 16);
    [lia | lia | apply download_staged | intros path].
  apply (extends_staged_bind 5 8 16);
    [lia | lia | apply extract_staged | intros fits_file].
  apply (extends_staged_bind 8 8 16); [lia | lia | | intros _].
  { apply (extends_print _ (harmless_within 8)). }
  apply plot_staged.
Qed.

Lemma main_staged (X : externals) :
  extends (within 1 16) (alma_main X) /\
  extends (within 1 16) (alma_w_hydrae_main X).
Proof.
  destruct (query_datasets_staged X) as [H1 H2]. split.
  - apply (extends_staged_bind 1 3 16); [lia | lia | exact H1 | intros found].
    apply browse_staged. intros.
    apply (extends_show_files _ (harmless_within 4)).
  - apply (extends_staged_bind 1 3 16); [lia | lia | exact H2 | intros found].
    apply browse_staged. intros.
    apply (extends_show_files_w_hya _ (harmless_within 4)).
Qed.

Lemma ascending_app_r (a b : list nat) : ascending (a ++ b) -> ascending b.
Proof.
  induction a as [|x a IH]; simpl; [auto|]. intros [_ H]. exact (IH H).
Qed.

(** X12: in every run of either script the calls to the outside world are
    made in the order of the pipeline (name resolution, region query, file
    listing, download, opening the archive, extraction, directory listing,
    opening the image, then the plotting calls from [figure] to [show]), and
    none of them is made twice: of any two calls of a run, the later one
    belongs to a later stage. *)
Theorem calls_follow_the_pipeline (X : externals) (lines entries : list string)
    (main : M unit) (r : result unit) (w' : world) :
  main = alma_main X \/ main = alma_w_hydrae_main X ->
  main (start lines entries) = (r, w') ->
  forall before e1 between e2 after s1 s2,
    trace w' = before ++ e1 :: between ++ e2 :: after ->
    stage e1 = Some s1 -> stage e2 = Some s2 ->
    (s1 < s2)%nat.
Proof.
  intros Hmain Hrun before e1 between e2 after s1 s2 T H1 H2.
  assert (Hw : within 1 16 (trace w')).
  { destruct (main_staged X) as [M1 M2].
    destruct Hmain as [-> | ->];
      [destruct (M1 _ _ _ Hrun) as [evs [Te HQ]]
      |destruct (M2 _ _ _ Hrun) as [evs [Te HQ]]];
      simpl in Te; rewrite Te; exact HQ. }
  destruct Hw as [Hasc _]. rewrite T, calls_app in Hasc.
  apply ascending_app_r in Hasc. simpl in Hasc. rewrite H1 in Hasc.
  destruct Hasc as [Hlt _]. rewrite calls_app in Hlt. simpl in Hlt.
  rewrite H2 in Hlt. rewrite Forall_forall in Hlt. apply Hlt.
  apply in_or_app. right. left. reflexivity.
Qed.

Lemma calls_follow_the_pipeline_witness : (3 < 4)%nat.
Proof.
  set (run := alma_main Demo.env (start ["W Hya"; "0.1"; "0"; "0"] ["alma.py"])).
  assert (E : run = (fst run, snd run)) by apply surjective_pairing.
  assert (T : exists before between after,
             trace (snd run) =
             before ++ EvGetDataInfo "uid://A001/X1/Xa"
               :: between ++ EvDownload ["https://h/d/image.fits"] "." :: after).
  { vm_compute. eexists (_ :: _ :: _ :: _ :: _ :: _ :: _ :: _ :: _ :: _ :: _ :: _ :: _ :: []).
    eexists [_; _; _]. eexists. simpl. reflexivity. }
  destruct T as [before [between [after T]]].
  exact (calls_follow_the_pipeline Demo.env _ _ (alma_main Demo.env)
           (fst run) (snd run) (or_introl eq_refl) E
           before _ between _ after 3%nat 4%nat T eq_refl eq_refl).
Defined.

(** ** What is downloaded *)

Lemma harmless_no_download : harmless (free_of is_download).
Proof. apply free_of_harmless; reflexivity. Qed.

Lemma harmless_downloads_only (url : string) :
  harmless (all_events (downloads_only url)).
Proof. apply all_events_harmless; intros; exact I. Qed.

Lemma fetch_and_plot_downloads_only (X : externals) (target url : string) :
  extends (all_events (downloads_only url)) (fetch_and_plot X target url).
Proof.
  unfold fetch_and_plot, download, extract, plot, tarfile_open, extractall,
    os_listdir, basename_of.
  extends_auto (harmless_downloads_only url)
    ltac:(repeat constructor; simpl; auto).
Qed.

Lemma find_files_inv (X : externals) (uid : string) (w : world)
    (r : result (info_table * list string)) (w' : world) :
  find_files X uid w = (r, w') ->
  w' = record [EvGetDataInfo uid] w /\
  forall t urls, r = Ok (t, urls) ->
    get_data_info X uid = Some t /\ urls = fits_urls (access_url t).
Proof.
  unfold find_files, bind, emit, outcome, ret, raise.
  destruct (get_data_info X uid) as [t|].
  - destruct (Z.of_nat (length (fits_urls (access_url t))) =? 0);
      intros H; injection H as <- <-; (split; [reflexivity|]);
      intros t' urls E; [discriminate E|].
    injection E as <- <-. split; reflexivity.
  - intros H. injection H as <- <-. split; [reflexivity|].
    intros t' urls E. discriminate E.
Qed.

Lemma pick_file_in (X : externals) (urls : list string) (w : world)
    (url : string) (w1 : world) :
  pick_file X urls w = (Ok url, w1) -> In url urls.
Proof.
  intros H. unfold pick_file in H. apply bind_inv in H.
  destruct H as [[e [_ H]] | [index [w2 [_ H]]]]; [discriminate H|].
  unfold item in H. destruct (nth_error urls (Z.to_nat index)) eqn:E;
    [|discriminate H].
  injection H as <- _. exact (nth_error_In _ _ E).
Qed.

Lemma free_of_app (bad : event -> bool) (a b : list event) :
  free_of bad a -> free_of bad b -> free_of bad (a ++ b).
Proof. intros Ha Hb. apply Forall_app. split; assumption. Qed.

Lemma no_download_not_in (evs : list event) (urls : list string)
    (savedir : string) :
  free_of is_download evs -> ~ In (EvDownload urls savedir) evs.
Proof.
  intros H. apply (free_of_not_in _ _ (EvDownload urls savedir) H). reflexivity.
Qed.

Lemma browse_downloads_candidate (X : externals)
    (show : info_table -> list string -> M unit) (target : string)
    (results : results_table) (w : world) (r : result unit) (w' : world)
    (urls : list string) (savedir : string) :
  (forall t u, extends (free_of is_download) (show t u)) ->
  free_of is_download (trace w) ->
  browse X show target results w = (r, w') ->
  In (EvDownload urls savedir) (trace w') ->
  savedir = download_dir /\
  exists uid t url,
    In (EvGetDataInfo uid) (trace w') /\
    get_data_info X uid = Some t /\
    urls = [url] /\
    In url (fits_urls (access_url t)).
Proof.
  intros Hshow Hw Hrun Hin. unfold browse in Hrun.
  apply bind_inv in Hrun. destruct Hrun as [[e [H1 _]] | [uid [w1 [H1 Hrun]]]];
    destruct (extends_pick_dataset _ harmless_no_download X _ _ _ _ H1)
      as [e1 [T1 Q1]].
  { exfalso. rewrite T1 in Hin.
    exact (no_download_not_in _ _ _ (free_of_app _ _ _ Hw Q1) Hin). }
  assert (Hw1 : free_of is_download (trace w1))
    by (rewrite T1; apply free_of_app; assumption).
  apply bind_inv in Hrun.
  destruct Hrun as [[e [H2 _]] | [[t cands] [w2 [H2 Hrun]]]];
    destruct (find_files_inv X uid _ _ _ H2) as [E2 Hok].
  { exfalso. subst w'. simpl in Hin.
    refine (no_download_not_in _ _ _ (free_of_app _ _ _ Hw1 _) Hin).
    repeat constructor. }
  destruct (Hok t cands eq_refl) as [Hget ->].
  assert (Hw2 : free_of is_download (trace w2)).
  { subst w2. simpl. apply free_of_app; [exact Hw1 | repeat constructor]. }
  assert (Hlisted : In (EvGetDataInfo uid) (trace w2)).
  { subst w2. simpl. apply in_or_app. right. left. reflexivity. }
  apply bind_inv in Hrun.
  destruct Hrun as [[e [H3 _]] | [u [w3 [H3 Hrun]]]];
    destruct (Hshow _ _ _ _ _ H3) as [e3 [T3 Q3]].
  { exfalso. rewrite T3 in Hin.
    exact (no_download_not_in _ _ _ (free_of_app _ _ _ Hw2 Q3) Hin). }
  assert (Hw3 : free_of is_download (trace w3))
    by (rewrite T3; apply free_of_app; assumption).
  apply bind_inv in Hrun.
  destruct Hrun as [[e [H4 _]] | [url [w4 [H4 Hrun]]]];
    destruct (extends_pick_file _ harmless_no_download X _ _ _ _ H4)
      as [e4 [T4 Q4]].
  { exfalso. rewrite T4 in Hin.
    exact (no_download_not_in _ _ _ (free_of_app _ _ _ Hw3 Q4) Hin). }
  assert (Hw4 : free_of is_download (trace w4))
    by (rewrite T4; apply free_of_app; assumption).
  destruct (fetch_and_plot_downloads_only X target url _ _ _ Hrun)
    as [e5 [T5 Q5]].
  rewrite T5 in Hin. apply in_app_or in Hin. destruct Hin as [Hin | Hin];
    [exfalso; exact (no_download_not_in _ _ _ Hw4 Hin)|].
  unfold all_events in Q5. rewrite Forall_forall in Q5.
  destruct (Q5 _ Hin) as [-> ->]. split; [reflexivity|].
  exists uid, t, url. repeat split; try assumption.
  - rewrite T5, T4, T3. repeat (apply in_or_app; left). exact Hlisted.
  - exact (pick_file_in X _ _ _ _ H4).
Qed.

(** X13: whatever a run of either script downloads is a single URL, saved
    to the download directory, and that URL is a candidate of the listing
    the archive returned for a dataset listed in this run: it comes from
    that listing and ends in [.fits] or [.tar.gz]. *)
Theorem download_is_a_listed_candidate (X : externals)
    (lines entries : list string) (main : M unit) (r : result unit)
    (w' : world) (urls : list string) (savedir : string) :
  main = alma_main X \/ main = alma_w_hydrae_main X ->
  main (start lines entries) = (r, w') ->
  In (EvDownload urls savedir) (trace w') ->
  savedir = download_dir /\
  exists uid t url,
    In (EvGetDataInfo uid) (trace w') /\
    get_data_info X uid = Some t /\
    urls = [url] /\
    In url (fits_urls (access_url t)) /\
    In url (access_url t) /\
    (is_fits url = true \/ is_targz url = true).
Proof.
  intros Hmain Hrun Hin.
  assert (H : savedir = download_dir /\
              exists uid t url,
                In (EvGetDataInfo uid) (trace w') /\
                get_data_info X uid = Some t /\
                urls = [url] /\
                In url (fits_urls (access_url t))).
  { destruct Hmain as [-> | ->]; apply bind_inv in Hrun;
      destruct Hrun as [[e [H1 _]] | [a [w1 [H1 Hrun]]]].
    - destruct (query_datasets_before_listing X _ _ _ H1) as [evs [T Hq]].
      simpl in T. rewrite T in Hin. exfalso.
      exact (no_download_not_in _ _ _ (proj2 (free_of_weaken _ Hq)) Hin).
    - destruct (query_datasets_before_listing X _ _ _ H1) as [evs [T Hq]].
      simpl in T. rewrite <- T in Hq.
      apply (browse_downloads_candidate X show_files (fst a) (snd a) w1 r w');
        try assumption; [|exact (proj2 (free_of_weaken _ Hq))].
      intros. apply (extends_show_files _ harmless_no_download).
    - destruct (query_datasets_w_hya_before_listing X _ _ _ H1) as [evs [T Hq]].
      simpl in T. rewrite T in Hin. exfalso.
      exact (no_download_not_in _ _ _ (proj2 (free_of_weaken _ Hq)) Hin).
    - destruct (query_datasets_w_hya_before_listing X _ _ _ H1) as [evs [T Hq]].
      simpl in T. rewrite <- T in Hq.
      apply (browse_downloads_candidate X show_files_w_hya "W Hya" a w1 r w');
        try assumption; [|exact (proj2 (free_of_weaken _ Hq))].
      intros. apply (extends_show_files_w_hya _ harmless_no_download). }
  destruct H as [Hdir [uid [t [url [Hl [Hg [Hu Hc]]]]]]].
  split; [exact Hdir|]. exists uid, t, url.
  repeat split; try assumption.
  - rewrite fits_urls_cases in Hc.
    destruct (filter is_fits (access_url t)) eqn:E; [|rewrite <- E in Hc];
      apply filter_In in Hc; tauto.
  - rewrite fits_urls_cases in Hc.
    destruct (filter is_fits (access_url t)) eqn:E; [|rewrite <- E in Hc];
      apply filter_In in Hc; tauto.
Qed.

Lemma download_is_a_listed_candidate_witness :
  is_fits "https://h/d/image.fits" = true \/
  is_targz "https://h/d/image.fits" = true.
Proof.
  set (run := alma_main Demo.env (start ["W Hya"; "0.1"; "0"; "0"] ["alma.py"])).
  assert (E : run = (fst run, snd run)) by apply surjective_pairing.
  destruct (download_is_a_listed_candidate Demo.env _ _ (alma_main Demo.env)
              (fst run) (snd run) ["https://h/d/image.fits"] "."
              (or_introl eq_refl) E)
    as [_ [uid [t [url [_ [_ [Hu [_ [_ H]]]]]]]]].
  - vm_compute. repeat (try (left; reflexivity); right).
  - injection Hu as <-. exact H.
Defined.

(** ** Runs that succeed *)

Lemma pick_dataset_run (X : externals) (results : results_table)
    (bad : list string) (good : string) (rest : list string) (index : Z)
    (uid : string) (w : world) :
  stdin w = bad ++ good :: rest ->
  Forall (invalid_index X (len_results results)) bad ->
  valid_index X (len_results results) good index ->
  nth_error (member_ous_uid results) (Z.to_nat index) = Some uid ->
  pick_dataset X results w =
  (Ok uid,
   record (flat_map (index_retry X (ds_prompt (len_results results))) bad
           ++ [EvPrompt (ds_prompt (len_results results))])
          (set_stdin rest w)).
Proof.
  intros Hin Hbad Hgood Hnth. unfold pick_dataset.
  erewrite bind_ok;
    [|unfold read_index; rewrite Hin;
      apply index_loop_first_valid; eassumption].
  unfold item. rewrite Hnth. reflexivity.
Qed.

Lemma pick_file_run (X : externals) (urls : list string)
    (bad : list string) (good : string) (rest : list string) (index : Z)
    (url : string) (w : world) :
  stdin w = bad ++ good :: rest ->
  Forall (invalid_index X (Z.of_nat (length urls))) bad ->
  valid_index X (Z.of_nat (length urls)) good index ->
  nth_error urls (Z.to_nat index) = Some url ->
  pick_file X urls w =
  (Ok url,
   record (flat_map (index_retry X (file_prompt (Z.of_nat (length urls)))) bad
           ++ [EvPrompt (file_prompt (Z.of_nat (length urls)))])
          (set_stdin rest w)).
Proof.
  intros Hin Hbad Hgood Hnth. unfold pick_file.
  erewrite bind_ok;
    [|unfold read_index; rewrite Hin;
      apply index_loop_first_valid; eassumption].
  unfold item. rewrite Hnth. reflexivity.
Qed.

Lemma find_files_run (X : externals) (uid : string) (t : info_table)
    (w : world) :
  get_data_info X uid = Some t ->
  fits_urls (access_url t) <> [] ->
  find_files X uid w =
  (Ok (t, fits_urls (access_url t)), record [EvGetDataInfo uid] w).
Proof.
  intros Hget Hne. unfold find_files, bind, emit, outcome, ret.
  rewrite Hget, length_zero_eqb.
  destruct (fits_urls (access_url t)); [congruence | reflexivity].
Qed.

Lemma show_files_run (t : info_table) (w : world) :
  info_table_ok t ->
  show_files t (fits_urls (access_url t)) w =
  (Ok tt,
   record (EvPrint [Str (nl ++ "Available files in dataset:")%string]
           :: numbered_lines (candidate_line t) 0 (fits_urls (access_url t)))
          w).
Proof.
  intros Hok. unfold show_files, bind at 1, print, emit.
  rewrite list_files_any_columns;
    [rewrite record_record; reflexivity | exact Hok |].
  pose proof (fits_urls_length (access_url t)). simpl. lia.
Qed.

Lemma nth_error_some_nonempty {A} (l : list A) (i : nat) (a : A) :
  nth_error l i = Some a -> l <> [].
Proof. intros H ->. destruct i; discriminate H. Qed.

Lemma query_datasets_run (X : externals) (name_line : string)
    (bad : list string) (good : string) (rest : list string) (radius : float)
    (c : coord X) (results : results_table) (w : world) :
  stdin w = name_line :: bad ++ good :: rest ->
  Forall (invalid_radius X) bad ->
  valid_radius X good radius ->
  from_name X (PyStr.strip name_line) = Some c ->
  query_region X c radius = Some results ->
  results_ok results ->
  member_ous_uid results <> [] ->
  exists evs,
    query_datasets X w =
    (Ok (PyStr.strip name_line, results), record evs (set_stdin rest w)).
Proof.
  intros Hin Hbad Hgood Hname Hquery Hok Hne. unfold query_datasets.
  rewrite (name_and_radius_read X name_line bad good rest radius w _
             Hin Hbad Hgood).
  unfold bind at 1, emit. unfold bind at 1, outcome. rewrite Hname. simpl.
  unfold bind at 1, print, emit. unfold bind at 1, emit.
  unfold bind at 1, outcome. rewrite Hquery. simpl.
  unfold bind at 1, emit.
  assert (Hlen : (len_results results =? 0) = false).
  { unfold len_results. rewrite length_zero_eqb.
    destruct (member_ous_uid results); [congruence | reflexivity]. }
  rewrite Hlen. unfold bind at 1, ret. unfold bind at 1, emit.
  unfold bind at 1. rewrite list_datasets_run by (auto; simpl; lia).
  unfold ret. rewrite !record_record. eexists. reflexivity.
Qed.

Lemma query_datasets_w_hya_run (X : externals) (c : coord X)
    (results : results_table) (w : world) :
  from_name X "W Hya" = Some c ->
  query_region X c f_0_1 = Some results ->
  results_ok results ->
  member_ous_uid results <> [] ->
  exists evs, query_datasets_w_hya X w = (Ok results, record evs w).
Proof.
  intros Hname Hquery Hok Hne. unfold query_datasets_w_hya.
  unfold bind at 1, emit. unfold bind at 1, outcome. rewrite Hname. simpl.
  unfold bind at 1, emit. unfold bind at 1, outcome. rewrite Hquery. simpl.
  unfold bind at 1, print, emit.
  assert (Hlen : (len_results results =? 0) = false).
  { unfold len_results. rewrite length_zero_eqb.
    destruct (member_ous_uid results); [congruence | reflexivity]. }
  rewrite Hlen. unfold bind at 1, ret. unfold bind at 1, emit.
  unfold bind at 1. rewrite list_datasets_w_hya_run by (auto; simpl; lia).
  unfold ret. rewrite !record_record. eexists. reflexivity.
Qed.

Lemma plt_returns_after (X : externals) (call : string) (e : event)
    (evs : list event) (w : world) :
  plt_returns X (trace w ++ evs) e = true ->
  plt X call e (record evs w) = (Ok tt, record (evs ++ [e]) w).
Proof.
  intros H. rewrite (plt_ok X call e (record evs w) H).
  rewrite record_record. reflexivity.
Qed.

Ltac flatten_in H := repeat (rewrite <- app_assoc in H; cbn [app] in H).

(** What [plot] does when the file opens with a pixel array, both
    percentiles are computed and every plotting call returns. *)
Lemma plot_draws (X : externals) (target path : string) (hdul : hdulist)
    (data : ndarray) (vmin vmax : float) (w : world) :
  fits_open X (Some path) = Some hdul ->
  primary_data hdul = Some data ->
  percentile X (squeeze data) 1 = Some vmin ->
  percentile X (squeeze data) 99 = Some vmax ->
  calls_return X (trace w) (figure_of target path data vmin vmax) = true ->
  plot X target (Some path) w =
  (Ok tt, record (figure_of target path data vmin vmax) w).
Proof.
  intros Hopen Hdata H1 H99 Hret. unfold figure_of in Hret.
  cbn [calls_return is_plt andb] in Hret.
  apply andb_prop in Hret. destruct Hret as [Hfig Hret].
  apply andb_prop in Hret. destruct Hret as [Himshow Hret].
  apply andb_prop in Hret. destruct Hret as [Hbar Hret].
  apply andb_prop in Hret. destruct Hret as [Htitle Hret].
  apply andb_prop in Hret. destruct Hret as [Hx Hret].
  apply andb_prop in Hret. destruct Hret as [Hy _].
  flatten_in Hfig. flatten_in Himshow. flatten_in Hbar. flatten_in Htitle.
  flatten_in Hx. flatten_in Hy.
  rewrite (plot_reaches_imshow X target (Some path) hdul data vmin vmax w
             Hopen Hdata Hfig H1 H99).
  rewrite (bind_ok _ _ _ tt _ (plt_returns_after X "plt.imshow" _ _ w Himshow)).
  cbn [app].
  rewrite (bind_ok _ _ _ tt _ (plt_returns_after X "plt.colorbar" _ _ w Hbar)).
  cbn [app].
  rewrite (bind_ok (basename_of (Some path)) _ _ (PyStr.basename path) _ eq_refl).
  rewrite (bind_ok _ _ _ tt _ (plt_returns_after X "plt.title" _ _ w Htitle)).
  cbn [app].
  rewrite (bind_ok _ _ _ tt _ (plt_returns_after X "plt.xlabel" _ _ w Hx)).
  cbn [app].
  rewrite (bind_ok _ _ _ tt _ (plt_returns_after X "plt.ylabel" _ _ w Hy)).
  cbn [app]. unfold emit. rewrite record_record. reflexivity.
Qed.

Lemma fetch_and_plot_direct (X : externals) (target url path : string)
    (more downloaded : list string) (hdul : hdulist) (data : ndarray)
    (vmin vmax : float) (w : world) :
  download_files X [url] download_dir (listdir w)
    = Some (path :: more, downloaded) ->
  is_archive_name path = false ->
  fits_open X (Some path) = Some hdul ->
  primary_data hdul = Some data ->
  percentile X (squeeze data) 1 = Some vmin ->
  percentile X (squeeze data) 99 = Some vmax ->
  draws X (figure_of target path data vmin vmax) ->
  fetch_and_plot X target url w =
  (Ok tt,
   record (EvDownload [url] download_dir
           :: EvPrint [Str (nl ++ "Downloaded FITS file: ")%string;
                       OptStr (Some path)]
           :: figure_of target path data vmin vmax)
          (set_listdir downloaded w)).
Proof.
  intros Hdl Hname Hopen Hdata H1 H99 Hdraws. unfold fetch_and_plot.
  rewrite (bind_ok _ _ _ _ _ (download_run X url _ _ _ w Hdl)).
  rewrite (bind_ok _ _ _ _ _ (extract_direct X path _ Hname)).
  unfold bind at 1, print, emit.
  rewrite (plot_draws X target path hdul data vmin vmax _ Hopen Hdata H1 H99
             (Hdraws _)).
  rewrite !record_record. reflexivity.
Qed.

Lemma fetch_and_plot_archive (X : externals) (target url path : string)
    (more downloaded : list string) (before : list string) (name : string)
    (after : list string) (hdul : hdulist) (data : ndarray)
    (vmin vmax : float) (w : world) :
  download_files X [url] download_dir (listdir w)
    = Some (path :: more, downloaded) ->
  is_archive_name path = true ->
  tar_readable X path = true ->
  tar_extractall X path download_dir downloaded
    = Some (before ++ name :: after) ->
  (forall x, In x before -> is_fits x = false) ->
  is_fits name = true ->
  fits_open X (Some (PyStr.path_join download_dir name)) = Some hdul ->
  primary_data hdul = Some data ->
  percentile X (squeeze data) 1 = Some vmin ->
  percentile X (squeeze data) 99 = Some vmax ->
  draws X (figure_of target (PyStr.path_join download_dir name) data vmin vmax) ->
  fetch_and_plot X target url w =
  (Ok tt,
   record ([EvDownload [url] download_dir; EvTarfileOpen path;
            EvOpened (TarHandle path); EvExtractAll download_dir;
            EvClosed (TarHandle path); EvListDir download_dir;
            EvPrint [Str (nl ++ "Downloaded FITS file: ")%string;
                     OptStr (Some (PyStr.path_join download_dir name))]]
           ++ figure_of target (PyStr.path_join download_dir name) data vmin vmax)
          (set_listdir (before ++ name :: after) w)).
Proof.
  intros Hdl Hname Hread Hextract Hbefore Hfits Hopen Hdata H1 H99 Hdraws.
  unfold fetch_and_plot.
  rewrite (bind_ok _ _ _ _ _ (download_run X url _ _ _ w Hdl)).
  rewrite (bind_ok _ _ _ _ _
             (extract_archive X path
                (record [EvDownload [url] download_dir] (set_listdir downloaded w))
                (before ++ name :: after) Hname Hread Hextract)).
  rewrite (first_fits_first before after name Hbefore Hfits).
  unfold bind at 1, print, emit.
  rewrite (plot_draws X target (PyStr.path_join download_dir name) hdul data
             vmin vmax _ Hopen Hdata H1 H99 (Hdraws _)).
  unfold record, set_listdir, figure_of. simpl.
  rewrite <- !app_assoc. reflexivity.
Qed.

Lemma last_bounds_app (a b : list event) (found : option (float * float)) :
  Demo.last_bounds (a ++ b) found = Demo.last_bounds b (Demo.last_bounds a found).
Proof.
  revert found. induction a as [|e a IH]; intros found; [reflexivity|].
  destruct e; simpl; apply IH.
Qed.

(** The plotting library of the demo draws the figure of the demo image. *)
Lemma demo_draws (target path : string) :
  draws Demo.env (figure_of target path Demo.image f_0_1 Demo.f_1).
Proof.
  intros before. unfold figure_of.
  cbn [calls_return is_plt andb plt_returns Demo.env Demo.plotting].
  rewrite last_bounds_app. reflexivity.
Qed.

(** X14: a run of [alma.py] in which a valid radius, dataset index and file
    index are eventually typed, the services answer, the tables are well
    formed and the file downloaded is an image that opens, ends normally.
    It has read the input up to the file index and no further, and the last
    things it did are the download of the chosen candidate, the line naming
    the downloaded file, and the figure drawn from that file under the
    title made of the target name as typed (stripped) and the file name.
    That the file opens as an image means: [fits.open] returns, the primary
    HDU holds a pixel array, both percentiles of the squeezed array are
    computed, and every plotting call of the figure returns. *)
Theorem alma_run_succeeds (X : externals) (w : world)
    (name_line : string) (rbad : list string) (rgood : string) (radius : float)
    (c : coord X) (results : results_table)
    (dbad : list string) (dgood : string) (ds_index : Z) (selected_uid : string)
    (t : info_table)
    (fbad : list string) (fgood : string) (file_index : Z) (url : string)
    (downloaded_file : string) (more downloaded : list string)
    (hdul : hdulist) (data : ndarray) (vmin vmax : float)
    (rest : list string) :
  stdin w = name_line :: rbad ++ rgood :: dbad ++ dgood :: fbad ++ fgood :: rest ->
  Forall (invalid_radius X) rbad ->
  valid_radius X rgood radius ->
  from_name X (PyStr.strip name_line) = Some c ->
  query_region X c radius = Some results ->
  results_ok results ->
  Forall (invalid_index X (len_results results)) dbad ->
  valid_index X (len_results results) dgood ds_index ->
  nth_error (member_ous_uid results) (Z.to_nat ds_index) = Some selected_uid ->
  get_data_info X selected_uid = Some t ->
  info_table_ok t ->
  Forall (invalid_index X (Z.of_nat (length (fits_urls (access_url t))))) fbad ->
  valid_index X (Z.of_nat (length (fits_urls (access_url t)))) fgood file_index ->
  nth_error (fits_urls (access_url t)) (Z.to_nat file_index) = Some url ->
  download_files X [url] download_dir (listdir w)
    = Some (downloaded_file :: more, downloaded) ->
  is_archive_name downloaded_file = false ->
  fits_open X (Some downloaded_file) = Some hdul ->
  primary_data hdul = Some data ->
  percentile X (squeeze data) 1 = Some vmin ->
  percentile X (squeeze data) 99 = Some vmax ->
  draws X (figure_of (PyStr.strip name_line) downloaded_file data vmin vmax) ->
  exists w' before,
    alma_main X w = (Ok tt, w') /\
    stdin w' = rest /\
    listdir w' = downloaded /\
    trace w' =
      before ++
      (EvDownload [url] download_dir
       :: EvPrint [Str (nl ++ "Downloaded FITS file: ")%string;
                   OptStr (Some downloaded_file)]
       :: figure_of (PyStr.strip name_line) downloaded_file data vmin vmax).
Proof.
  intros Hin Hrbad Hrgood Hname Hquery Hok Hdbad Hdgood Hds Hget Htok
    Hfbad Hfgood Hfile Hdl Harch Hopen Hdata H1 H99 Hdraws.
  destruct (query_datasets_run X name_line rbad rgood _ radius c results w
              Hin Hrbad Hrgood Hname Hquery Hok
              (nth_error_some_nonempty _ _ _ Hds)) as [evs Hq].
  unfold alma_main. rewrite (bind_ok _ _ _ _ _ Hq). simpl fst. simpl snd.
  unfold browse.
  erewrite bind_ok;
    [|apply (pick_dataset_run X results dbad dgood (fbad ++ fgood :: rest)
               ds_index selected_uid);
      [reflexivity | assumption | assumption | assumption]].
  erewrite bind_ok;
    [|apply (find_files_run X selected_uid t);
      [assumption | exact (nth_error_some_nonempty _ _ _ Hfile)]].
  cbv beta iota.
  erewrite bind_ok; [|apply show_files_run; assumption].
  erewrite bind_ok;
    [|apply (pick_file_run X _ fbad fgood rest file_index url);
      [reflexivity | assumption | assumption | assumption]].
  erewrite fetch_and_plot_direct;
    [|exact Hdl | exact Harch | exact Hopen | exact Hdata | exact H1
     | exact H99 | exact Hdraws].
  eexists. eexists. split; [reflexivity|]. repeat split.
Qed.

Lemma alma_run_succeeds_witness :
  fst (alma_main Demo.env
         (start [" W Hya "; "abc"; "0.1"; "9"; "0"; "0"; "unread"] ["alma.py"]))
  = Ok tt.
Proof.
  destruct (alma_run_succeeds Demo.env
              (start [" W Hya "; "abc"; "0.1"; "9"; "0"; "0"; "unread"] ["alma.py"])
              " W Hya " ["abc"] "0.1" f_0_1 (f_0_1, f_zero) Demo.datasets
              ["9"] "0" 0 "uid://A001/X1/Xa"
              {| access_url := ["https://h/d/cube.tar.gz"; "https://h/d/image.fits"];
                 access_format := Some ["application/x-tar"; "image/fits"];
                 access_estsize := Some ["2048"; "512"] |}
              [] "0" 0 "https://h/d/image.fits"
              "./image.fits" [] ["alma.py"; "image.fits"]
              {| primary_data := Some Demo.image |} Demo.image f_0_1 Demo.f_1
              ["unread"])
    as [w' [before [H _]]].
  - reflexivity.
  - repeat constructor. intros x Hx. vm_compute in Hx. discriminate Hx.
  - split; reflexivity.
  - reflexivity.
  - reflexivity.
  - repeat split; reflexivity.
  - repeat constructor. intros i Hi. vm_compute in Hi. injection Hi as <-.
    vm_compute. intros [_ H]. discriminate H.
  - split; [reflexivity | vm_compute; split; [discriminate | reflexivity]].
  - reflexivity.
  - reflexivity.
  - split; reflexivity.
  - constructor.
  - split; [reflexivity | vm_compute; split; [discriminate | reflexivity]].
  - reflexivity.
  - reflexivity.
  - reflexivity.
  - reflexivity.
  - reflexivity.
  - reflexivity.
  - reflexivity.
  - apply demo_draws.
  - rewrite H. reflexivity.
Defined.

(** X15: a run of [alma_w-hydrae.py] in which a valid dataset index and
    file index are eventually typed, the services answer, the tables are
    well formed, the file downloaded is an archive that extracts, and the
    first [.fits] entry of the directory opens as an image, ends normally.
    It has read the input up to the file index and no further, and from the
    download on it has opened, extracted and closed the archive, listed the
    directory, named the entry chosen, and drawn the figure from it under
    the title [W Hya - ] followed by the entry's name.  That the entry opens
    as an image means: [fits.open] returns, the primary HDU holds a pixel
    array, both percentiles of the squeezed array are computed, and every
    plotting call of the figure returns. *)
Theorem w_hydrae_archive_run_succeeds (X : externals) (w : world)
    (c : coord X) (results : results_table)
    (dbad : list string) (dgood : string) (ds_index : Z) (selected_uid : string)
    (t : info_table)
    (fbad : list string) (fgood : string) (file_index : Z) (url : string)
    (downloaded_file : string) (more downloaded : list string)
    (before : list string) (name : string) (after : list string)
    (hdul : hdulist) (data : ndarray) (vmin vmax : float)
    (rest : list string) :
  stdin w = dbad ++ dgood :: fbad ++ fgood :: rest ->
  from_name X "W Hya" = Some c ->
  query_region X c f_0_1 = Some results ->
  results_ok results ->
  Forall (invalid_index X (len_results results)) dbad ->
  valid_index X (len_results results) dgood ds_index ->
  nth_error (member_ous_uid results) (Z.to_nat ds_index) = Some selected_uid ->
  get_data_info X selected_uid = Some t ->
  Forall (invalid_index X (Z.of_nat (length (fits_urls (access_url t))))) fbad ->
  valid_index X (Z.of_nat (length (fits_urls (access_url t)))) fgood file_index ->
  nth_error (fits_urls (access_url t)) (Z.to_nat file_index) = Some url ->
  download_files X [url] download_dir (listdir w)
    = Some (downloaded_file :: more, downloaded) ->
  is_archive_name downloaded_file = true ->
  tar_readable X downloaded_file = true ->
  tar_extractall X downloaded_file download_dir downloaded
    = Some (before ++ name :: after) ->
  (forall x, In x before -> is_fits x = false) ->
  is_fits name = true ->
  fits_open X (Some (PyStr.path_join download_dir name)) = Some hdul ->
  primary_data hdul = Some data ->
  percentile X (squeeze data) 1 = Some vmin ->
  percentile X (squeeze data) 99 = Some vmax ->
  draws X (figure_of "W Hya" (PyStr.path_join download_dir name) data vmin vmax) ->
  exists w' shown,
    alma_w_hydrae_main X w = (Ok tt, w') /\
    stdin w' = rest /\
    listdir w' = before ++ name :: after /\
    trace w' =
      shown ++
      ([EvDownload [url] download_dir; EvTarfileOpen downloaded_file;
        EvOpened (TarHandle downloaded_file); EvExtractAll download_dir;
        EvClosed (TarHandle downloaded_file); EvListDir download_dir;
        EvPrint [Str (nl ++ "Downloaded FITS file: ")%string;
                 OptStr (Some (PyStr.path_join download_dir name))]]
       ++ figure_of "W Hya" (PyStr.path_join download_dir name) data vmin vmax).
Proof.
  intros Hin Hname Hquery Hok Hdbad Hdgood Hds Hget Hfbad Hfgood Hfile Hdl
    Harch Hread Hextract Hbefore Hfits Hopen Hdata H1 H99 Hdraws.
  destruct (query_datasets_w_hya_run X c results w Hname Hquery Hok
              (nth_error_some_nonempty _ _ _ Hds)) as [evs Hq].
  unfold alma_w_hydrae_main. rewrite (bind_ok _ _ _ _ _ Hq).
  unfold browse.
  erewrite bind_ok;
    [|apply (pick_dataset_run X results dbad dgood (fbad ++ fgood :: rest)
               ds_index selected_uid);
      [exact Hin | assumption | assumption | assumption]].
  erewrite bind_ok;
    [|apply (find_files_run X selected_uid t);
      [assumption | exact (nth_error_some_nonempty _ _ _ Hfile)]].
  cbv beta iota.
  unfold show_files_w_hya at 1.
  erewrite bind_ok;
    [|unfold bind at 1, print, emit; apply list_files_w_hya_run].
  erewrite bind_ok;
    [|apply (pick_file_run X _ fbad fgood rest file_index url);
      [reflexivity | assumption | assumption | assumption]].
  erewrite fetch_and_plot_archive;
    [|exact Hdl | exact Harch | exact Hread | exact Hextract | exact Hbefore
     | exact Hfits | exact Hopen | exact Hdata | exact H1 | exact H99
     | exact Hdraws].
  eexists. eexists. split; [reflexivity|]. repeat split.
Qed.

Lemma w_hydrae_archive_run_succeeds_witness :
  fst (alma_w_hydrae_main Demo.env (start ["7"; "3"; "0"] ["alma.py"])) = Ok tt.
Proof.
  destruct (w_hydrae_archive_run_succeeds Demo.env
              (start ["7"; "3"; "0"] ["alma.py"])
              (f_0_1, f_zero) Demo.datasets
              ["7"] "3" 3 "uid://A001/X1/Xd"
              {| access_url := ["https://h/d/maps.tar.gz"];
                 access_format := None; access_estsize := None |}
              [] "0" 0 "https://h/d/maps.tar.gz"
              "./maps.tar.gz" [] ["alma.py"; "maps.tar.gz"]
              ["alma.py"; "maps.tar.gz"; "notes.txt"] "map.FITS" []
              {| primary_data := Some Demo.image |} Demo.image f_0_1 Demo.f_1
              [])
    as [w' [shown [H _]]].
  - reflexivity.
  - reflexivity.
  - reflexivity.
  - repeat split; reflexivity.
  - repeat constructor. intros i Hi. vm_compute in Hi. injection Hi as <-.
    vm_compute. intros [_ H]. discriminate H.
  - split; [reflexivity | vm_compute; split; [discriminate | reflexivity]].
  - reflexivity.
  - reflexivity.
  - constructor.
  - split; [reflexivity | vm_compute; split; [discriminate | reflexivity]].
  - reflexivity.
  - reflexivity.
  - reflexivity.
  - reflexivity.
  - reflexivity.
  - intros x Hx. simpl in Hx. destruct Hx as [<-|[<-|[<-|[]]]]; reflexivity.
  - reflexivity.
  - reflexivity.
  - reflexivity.
  - reflexivity.
  - reflexivity.
  - apply demo_draws.
  - rewrite H. reflexivity.
Defined.

(** ** How a run can fail *)
























